(** * A GitHub search crawler: shallow embedding and verified properties

    The development follows the Python sources file by file
    ([settings.py], [exceptions.py], [utils.py], [items.py],
    [crawlers.py]).  The program's collaborators (the [urllib.parse]
    functions, [json.dumps], the [jsonschema] keywords used by
    [PARAMS_SCHEMA], the element tree built by BeautifulSoup, the file
    system and the HTTP session) are modelled first, each to the extent
    the crawler uses it.

    Conventions.
    - A Python [str] is a Rocq [string]; a character stands for the code
      point with the same number (0 to 255).
    - A Python [dict] whose order is observable (JSON documents, items)
      is an association list in insertion order; dictionaries that are
      only looked up (tag attributes, the file system) are [gmap]s.
    - A function that can raise returns a sum with the exception on the
      left; in the model of [urllib.parse], [None] stands for the
      [ValueError] of [urlsplit].
    - Stateful code runs in a state-and-exception monad over the crawler
      object and the outside world.  An [await] hands control back only
      to the coroutine that waits for it, so a coroutine is the sequence
      of its steps.
    - Log lines are not part of the state. *)

From Stdlib Require Import ZArith NArith Ascii String List Bool Lia.
From Stdlib Require Import DecimalString.
From stdpp Require Import base option gmap strings list fin_maps.

Set Warnings "-register-all".

Open Scope string_scope.
Open Scope list_scope.

(* ===================================================================== *)
(** * Python string operations *)
(* ===================================================================== *)

Module PyStr.

Definition code (c : ascii) : N := N_of_ascii c.

Definition in_range (lo hi : N) (c : ascii) : bool :=
  ((lo <=? code c) && (code c <=? hi))%N.

Definition is_ascii_upper (c : ascii) : bool := in_range 65 90 c.
Definition is_ascii_lower (c : ascii) : bool := in_range 97 122 c.
Definition is_ascii_alpha (c : ascii) : bool :=
  is_ascii_upper c || is_ascii_lower c.
Definition is_digit (c : ascii) : bool := in_range 48 57 c.

(** [c in chars] for a one-character [c]. *)
Fixpoint mem_char (c : ascii) (chars : string) : bool :=
  match chars with
  | EmptyString => false
  | String a t => Ascii.eqb c a || mem_char c t
  end.

(** [str.isspace] on one character: the Unicode white space below 256. *)
Definition is_space (c : ascii) : bool :=
  in_range 9 13 c || in_range 28 32 c
  || (code c =? 133)%N || (code c =? 160)%N.

(** [str.lower] on one character: ASCII capitals and the Latin-1
    capitals U+00C0..U+00DE except the multiplication sign. *)
Definition lower_char (c : ascii) : ascii :=
  if is_ascii_upper c
     || (in_range 192 222 c && negb (code c =? 215)%N)
  then ascii_of_N (code c + 32) else c.

Fixpoint map_chars (f : ascii -> ascii) (s : string) : string :=
  match s with
  | EmptyString => EmptyString
  | String a t => String (f a) (map_chars f t)
  end.

Definition lower (s : string) : string := map_chars lower_char s.

(** [sub in s] *)
Fixpoint contains (sub s : string) : bool :=
  String.prefix sub s ||
  match s with
  | EmptyString => false
  | String _ t => contains sub t
  end.

(** [sep.join(parts)] *)
Definition join (sep : string) (parts : list string) : string :=
  String.concat sep parts.

(** [s.replace(c, new)] for a one-character [c]. *)
Fixpoint replace_char (c : ascii) (new : string) (s : string) : string :=
  match s with
  | EmptyString => EmptyString
  | String a t =>
      if Ascii.eqb a c then new +:+ replace_char c new t
      else String a (replace_char c new t)
  end.

(** [s.split(c)] for a one-character separator: never empty. *)
Fixpoint split (c : ascii) (s : string) : list string :=
  match s with
  | EmptyString => [EmptyString]
  | String a t =>
      if Ascii.eqb a c then EmptyString :: split c t
      else match split c t with
           | h :: r => String a h :: r
           | [] => [String a EmptyString]
           end
  end.

(** [s.split(c, 1)] when [c in s]: the text before and after the first
    occurrence; [None] when [c] does not occur. *)
Fixpoint split_once (c : ascii) (s : string) : option (string * string) :=
  match s with
  | EmptyString => None
  | String a t =>
      if Ascii.eqb a c then Some (EmptyString, t)
      else match split_once c t with
           | Some (h, r) => Some (String a h, r)
           | None => None
           end
  end.

(** [s.lstrip(chars)] generalised to a predicate on characters. *)
Fixpoint lstrip_if (p : ascii -> bool) (s : string) : string :=
  match s with
  | EmptyString => EmptyString
  | String a t => if p a then lstrip_if p t else s
  end.

Fixpoint rstrip_if (p : ascii -> bool) (s : string) : string :=
  match s with
  | EmptyString => EmptyString
  | String a t =>
      match rstrip_if p t with
      | EmptyString => if p a then EmptyString else String a EmptyString
      | r => String a r
      end
  end.

Definition strip_if (p : ascii -> bool) (s : string) : string :=
  rstrip_if p (lstrip_if p s).

(** [s.strip()] *)
Definition strip (s : string) : string := strip_if is_space s.

(** [s[:n]] and [s[n:]] for [n >= 0]. *)
Fixpoint take (n : nat) (s : string) : string :=
  match n, s with
  | S n', String a t => String a (take n' t)
  | _, _ => EmptyString
  end.

Fixpoint drop (n : nat) (s : string) : string :=
  match n, s with
  | S n', String _ t => drop n' t
  | _, _ => s
  end.

(** [all(p(c) for c in s)] *)
Fixpoint all_chars (p : ascii -> bool) (s : string) : bool :=
  match s with
  | EmptyString => true
  | String a t => p a && all_chars p t
  end.

(** Truth value of a string: non-empty. *)
Definition truthy (s : string) : bool :=
  match s with EmptyString => false | _ => true end.

(** [str(n)] for an integer. *)
Definition of_Z (z : Z) : string := NilZero.string_of_int (Z.to_int z).

End PyStr.

(* ===================================================================== *)
(** * [urllib.parse]: quoting and reference resolution *)
(* ===================================================================== *)

Module UrlLib.
Import PyStr.

(** ** Percent-encoding *)

Definition hex_digit (n : N) : ascii :=
  if (n <? 10)%N then ascii_of_N (48 + n) else ascii_of_N (55 + n).

(** ['%{:02X}'.format(b)] *)
Definition percent (b : N) : string :=
  String "%" (String (hex_digit (b / 16)) (String (hex_digit (b mod 16)) EmptyString)).

(** UTF-8 bytes of one code point below 256. *)
Definition utf8_char (c : ascii) : list N :=
  let n := code c in
  if (n <? 128)%N then [n]
  else [(192 + n / 64)%N; (128 + n mod 64)%N].

Fixpoint utf8 (s : string) : list N :=
  match s with
  | EmptyString => []
  | String a t => utf8_char a ++ utf8 t
  end.

(** [_ALWAYS_SAFE]: letters, digits and [_.-~]. *)
Definition always_safe (c : ascii) : bool :=
  is_ascii_alpha c || is_digit c || mem_char c "_.-~".

(** One byte of [quote_from_bytes]: kept when it is an always-safe or
    an explicitly safe ASCII character, [%XX] otherwise. *)
Definition quoter (safe : string) (b : N) : string :=
  let c := ascii_of_N b in
  if (b <? 128)%N && (always_safe c || mem_char c safe)
  then String c EmptyString else percent b.

Fixpoint quote_bytes (safe : string) (bs : list N) : string :=
  match bs with
  | [] => EmptyString
  | b :: r => quoter safe b +:+ quote_bytes safe r
  end.

(** [quote(string, safe)] *)
Definition quote (s safe : string) : string := quote_bytes safe (utf8 s).

(** [quote_plus(string, safe)] *)
Definition quote_plus (s safe : string) : string :=
  if negb (mem_char " " s) then quote s safe
  else replace_char " " "+" (quote s (safe +:+ " ")).

(** [urlencode(query, safe=safe)] for a mapping from [str] to [str],
    given as its items in insertion order. *)
Definition urlencode (query : list (string * string)) (safe : string) : string :=
  join "&" (map (fun kv => quote_plus (fst kv) safe +:+ "=" +:+ quote_plus (snd kv) safe) query).

(** ** Splitting *)

Definition uses_relative : list string :=
  [""; "ftp"; "http"; "gopher"; "nntp"; "imap"; "wais"; "file"; "https";
   "shttp"; "mms"; "prospero"; "rtsp"; "rtspu"; "sftp"; "svn"; "svn+ssh";
   "ws"; "wss"].

Definition uses_netloc : list string :=
  [""; "ftp"; "http"; "gopher"; "nntp"; "telnet"; "imap"; "wais"; "file";
   "mms"; "https"; "shttp"; "snews"; "prospero"; "rtsp"; "rtspu"; "rsync";
   "svn"; "svn+ssh"; "sftp"; "nfs"; "git"; "git+ssh"; "ws"; "wss"].

Definition uses_params : list string :=
  [""; "ftp"; "hdl"; "prospero"; "http"; "imap"; "https"; "shttp"; "rtsp";
   "rtspu"; "sip"; "sips"; "mms"; "sftp"; "tel"].

Definition mem_str (s : string) (l : list string) : bool :=
  existsb (String.eqb s) l.

Definition scheme_char (c : ascii) : bool :=
  is_ascii_alpha c || is_digit c || mem_char c "+-.".

(** [_WHATWG_C0_CONTROL_OR_SPACE] *)
Definition c0_or_space (c : ascii) : bool := (code c <=? 32)%N.

(** [_UNSAFE_URL_BYTES_TO_REMOVE]: tab, carriage return, line feed. *)
Definition remove_unsafe (s : string) : string :=
  replace_char "010" "" (replace_char "013" "" (replace_char "009" "" s)).

(** The scheme prefix of [urlsplit]: [url[:i]] lower-cased and
    [url[i+1:]] when [i = url.find(':') > 0], the first character is an
    ASCII letter and [url[:i]] consists of scheme characters. *)
Definition split_scheme (url : string) : option (string * string) :=
  match split_once ":" url with
  | Some (String a h, rest) =>
      if is_ascii_alpha a && all_chars scheme_char (String a h)
      then Some (lower (String a h), rest) else None
  | _ => None
  end.

(** [_splitnetloc(url, 2)] on a [url] that starts with [//]: the text
    up to the first of [/?#], and the rest. *)
Fixpoint span_netloc (s : string) : string * string :=
  match s with
  | EmptyString => (EmptyString, EmptyString)
  | String a t =>
      if mem_char a "/?#" then (EmptyString, s)
      else let '(h, r) := span_netloc t in (String a h, r)
  end.

Record SplitResult := mkSplit {
  sp_scheme : string; sp_netloc : string; sp_path : string;
  sp_query : string; sp_fragment : string }.

(** ** The checks on a bracketed host

    [urlsplit] raises [ValueError] for a network location whose
    brackets do not enclose an IPv6 or IPvFuture address.  The functions
    below say whether the corresponding check returns; the addresses
    themselves are not used. *)

Definition is_hex_digit (c : ascii) : bool :=
  is_digit c || in_range 65 70 c || in_range 97 102 c.

(** [int(s)] for a string of decimal digits. *)
Fixpoint decimal (acc : N) (s : string) : N :=
  match s with
  | EmptyString => acc
  | String a t => decimal (10 * acc + (code a - 48)) t
  end.

(** [IPv4Address._parse_octet(octet_str)]; [None] when it raises. *)
Definition parse_octet (octet_str : string) : option N :=
  if negb (truthy octet_str) then None
  else if negb (all_chars is_digit octet_str) then None
  else if Nat.ltb 3 (String.length octet_str) then None
  else if negb (String.eqb octet_str "0") && String.prefix "0" octet_str then None
  else if (255 <? decimal 0 octet_str)%N then None
  else Some (decimal 0 octet_str).

Fixpoint parse_octets (octets : list string) : option (list N) :=
  match octets with
  | [] => Some []
  | o :: r =>
      match parse_octet o, parse_octets r with
      | Some n, Some ns => Some (n :: ns)
      | _, _ => None
      end
  end.

(** [IPv4Address(address)._ip]; [None] when the constructor raises. *)
Definition ipv4_address (address : string) : option N :=
  if mem_char "/" address then None
  else if negb (truthy address) then None
  else
    let octets := split "." address in
    if negb (Nat.eqb (length octets) 4) then None
    else
      match parse_octets octets with
      | Some ns => Some (fold_left (fun acc n => 256 * acc + n)%N ns 0%N)
      | None => None
      end.

(** [IPv6Address._parse_hextet(hextet_str)] returns: one to four
    hexadecimal digits. *)
Definition hextet_ok (hextet_str : string) : bool :=
  all_chars is_hex_digit hextet_str
  && Nat.leb (String.length hextet_str) 4
  && truthy hextet_str.

(** ['%x' % n] for [n] below 65536. *)
Definition hex_lower_digit (d : N) : ascii :=
  if (d <? 10)%N then ascii_of_N (48 + d) else ascii_of_N (87 + d).

Definition hex_lower (n : N) : string :=
  let digits :=
    String (hex_lower_digit (n / 4096 mod 16))
      (String (hex_lower_digit (n / 256 mod 16))
         (String (hex_lower_digit (n / 16 mod 16)) EmptyString)) in
  lstrip_if (Ascii.eqb "0") digits +:+ String (hex_lower_digit (n mod 16)) EmptyString.

(** The indices [i] of [range(1, len(parts) - 1)] with [parts[i]]
    empty. *)
Definition empty_middle (parts : list string) : list nat :=
  List.filter (fun i => negb (truthy (nth i parts EmptyString)))
              (seq 1 (length parts - 2)).

(** [IPv6Address._ip_int_from_string(ip_str)] returns. *)
Definition ipv6_int_ok (ip_str : string) : bool :=
  if negb (truthy ip_str) then false
  else
    let parts := split ":" ip_str in
    if Nat.ltb (length parts) 3 then false
    else
      let with_suffix :=
        if mem_char "." (List.last parts EmptyString)
        then match ipv4_address (List.last parts EmptyString) with
             | Some ipv4_int =>
                 Some (removelast parts
                       ++ [hex_lower (ipv4_int / 65536 mod 65536);
                           hex_lower (ipv4_int mod 65536)])
             | None => None
             end
        else Some parts in
      match with_suffix with
      | None => false
      | Some parts =>
          if Nat.ltb 9 (length parts) then false
          else
            let first_empty := negb (truthy (nth 0 parts EmptyString)) in
            let last_empty := negb (truthy (List.last parts EmptyString)) in
            match empty_middle parts with
            | _ :: _ :: _ => false
            | [skip_index] =>
                let parts_hi :=
                  if first_empty then skip_index - 1 else skip_index in
                let parts_lo :=
                  if last_empty then length parts - skip_index - 1 - 1
                  else length parts - skip_index - 1 in
                if first_empty && negb (Nat.eqb parts_hi 0) then false
                else if last_empty && negb (Nat.eqb parts_lo 0) then false
                else if Nat.ltb 7 (parts_hi + parts_lo) then false
                else forallb hextet_ok (firstn parts_hi parts)
                     && forallb hextet_ok (skipn (length parts - parts_lo) parts)
            | [] =>
                Nat.eqb (length parts) 8
                && negb first_empty && negb last_empty
                && forallb hextet_ok parts
            end
      end.

(** [IPv6Address(address)] returns: no [/], a scope id after [%] that is
    not empty and holds no further [%], and an address that parses. *)
Definition ipv6_address_ok (address : string) : bool :=
  if mem_char "/" address then false
  else
    match split_once "%" address with
    | Some (addr, scope_id) =>
        if negb (truthy scope_id) || mem_char "%" scope_id then false
        else ipv6_int_ok addr
    | None => ipv6_int_ok address
    end.

Inductive ip_version := IPv4 | IPv6.

(** [ipaddress.ip_address(address)]; [None] when it raises. *)
Definition ip_address (address : string) : option ip_version :=
  match ipv4_address address with
  | Some _ => Some IPv4
  | None => if ipv6_address_ok address then Some IPv6 else None
  end.

(** The longest prefix of characters that satisfy [p], and the rest. *)
Fixpoint span_if (p : ascii -> bool) (s : string) : string * string :=
  match s with
  | EmptyString => (EmptyString, EmptyString)
  | String a t =>
      if p a then let '(h, r) := span_if p t in (String a h, r)
      else (EmptyString, s)
  end.

(** [re.match(r"\Av[a-fA-F0-9]+\..+\Z", hostname)] for a [hostname]
    that starts with [v]. *)
Definition ipvfuture_ok (hostname : string) : bool :=
  let '(digits, rest) := span_if is_hex_digit (drop 1 hostname) in
  truthy digits
  && String.prefix "." rest
  && truthy (drop 1 rest)
  && all_chars (fun c => negb (Ascii.eqb c "010")) (drop 1 rest).

(** [_check_bracketed_host(hostname)] returns. *)
Definition check_bracketed_host (hostname : string) : bool :=
  if String.prefix "v" hostname then ipvfuture_ok hostname
  else
    match ip_address hostname with
    | Some IPv6 => true
    | Some IPv4 => false
    | None => false
    end.

(** [_check_bracketed_netloc(netloc)] returns. *)
Definition check_bracketed_netloc (netloc : string) : bool :=
  let hostname_and_port := List.last (split "@" netloc) EmptyString in
  match split_once "[" hostname_and_port with
  | Some (before_bracket, bracketed) =>
      if truthy before_bracket then false
      else
        let '(hostname, port) :=
          match split_once "]" bracketed with
          | Some (h, p) => (h, p)
          | None => (bracketed, EmptyString)
          end in
        if truthy port && negb (String.prefix ":" port) then false
        else check_bracketed_host hostname
  | None =>
      let hostname :=
        match split_once ":" hostname_and_port with
        | Some (h, _) => h
        | None => hostname_and_port
        end in
      check_bracketed_host hostname
  end.

(** [urlsplit(url, scheme)]; [None] stands for the [ValueError] it
    raises on a network location with unbalanced brackets or with
    brackets around something else than an address.  [_checknetloc]
    returns for every string of code points below 256 (their NFKC forms
    hold none of [/?#@:]), so it has no counterpart here. *)
Definition urlsplit (url scheme : string) : option SplitResult :=
  let url := remove_unsafe (lstrip_if c0_or_space url) in
  let scheme := remove_unsafe (strip_if c0_or_space scheme) in
  let '(scheme, url) :=
    match split_scheme url with
    | Some (s, u) => (s, u)
    | None => (scheme, url)
    end in
  let located :=
    if String.prefix "//" url then
      let '(netloc, rest) := span_netloc (drop 2 url) in
      if (mem_char "[" netloc && negb (mem_char "]" netloc))
         || (mem_char "]" netloc && negb (mem_char "[" netloc))
      then None
      else if mem_char "[" netloc && mem_char "]" netloc
              && negb (check_bracketed_netloc netloc)
      then None
      else Some (netloc, rest)
    else Some (EmptyString, url) in
  match located with
  | None => None
  | Some (netloc, url) =>
      let '(url, fragment) :=
        match split_once "#" url with
        | Some (u, f) => (u, f)
        | None => (url, EmptyString)
        end in
      let '(url, query) :=
        match split_once "?" url with
        | Some (u, q) => (u, q)
        | None => (url, EmptyString)
        end in
      Some (mkSplit scheme netloc url query fragment)
  end.

(** Index of the last [/] of [s], if any. *)
Fixpoint rfind_slash (s : string) : option nat :=
  match s with
  | EmptyString => None
  | String a t =>
      match rfind_slash t with
      | Some i => Some (S i)
      | None => if Ascii.eqb a "/" then Some 0 else None
      end
  end.

(** [_splitparams(url)] *)
Definition splitparams (url : string) : string * string :=
  match rfind_slash url with
  | Some k =>
      match split_once ";" (drop k url) with
      | Some (h, r) => (take k url +:+ h, r)
      | None => (url, EmptyString)
      end
  | None =>
      match split_once ";" url with
      | Some (h, r) => (h, r)
      | None => (url, EmptyString)
      end
  end.

Record ParseResult := mkParse {
  pr_scheme : string; pr_netloc : string; pr_path : string;
  pr_params : string; pr_query : string; pr_fragment : string }.

(** [urlparse(url, scheme)]; [None] when [urlsplit] raises. *)
Definition urlparse (url scheme : string) : option ParseResult :=
  match urlsplit url scheme with
  | None => None
  | Some r =>
      let '(path, params) :=
        if mem_str (sp_scheme r) uses_params && mem_char ";" (sp_path r)
        then splitparams (sp_path r) else (sp_path r, EmptyString) in
      Some (mkParse (sp_scheme r) (sp_netloc r) path params
                    (sp_query r) (sp_fragment r))
  end.

(** [urlunsplit((scheme, netloc, url, query, fragment))] *)
Definition urlunsplit (scheme netloc url query fragment : string) : string :=
  let url :=
    if truthy netloc
       || (truthy scheme && mem_str scheme uses_netloc
           && negb (String.eqb (take 2 url) "//"))
    then "//" +:+ netloc +:+
         (if truthy url && negb (String.eqb (take 1 url) "/")
          then "/" +:+ url else url)
    else url in
  let url := if truthy scheme then scheme +:+ ":" +:+ url else url in
  let url := if truthy query then url +:+ "?" +:+ query else url in
  if truthy fragment then url +:+ "#" +:+ fragment else url.

(** [urlunparse((scheme, netloc, url, params, query, fragment))] *)
Definition urlunparse (scheme netloc url params query fragment : string) : string :=
  let url := if truthy params then url +:+ ";" +:+ params else url in
  urlunsplit scheme netloc url query fragment.

(** ** Joining *)

(** [l[:-1]] *)
Definition drop_last (l : list string) : list string := removelast l.

(** [base_parts]: [bpath.split('/')] without its last entry unless that
    entry is empty. *)
Definition base_parts (bpath : string) : list string :=
  let parts := split "/" bpath in
  if truthy (List.last parts EmptyString) then drop_last parts else parts.

(** [segments[1:-1] = filter(None, segments[1:-1])] *)
Definition squeeze_middle (segments : list string) : list string :=
  match segments with
  | first :: (_ :: _) as rest =>
      first :: List.filter truthy (drop_last rest) ++ [List.last rest EmptyString]
  | _ => segments
  end.

(** The loop over [segments] that builds [resolved_path]. *)
Fixpoint resolve (segments resolved : list string) : list string :=
  match segments with
  | [] => resolved
  | seg :: r =>
      if String.eqb seg ".." then resolve r (drop_last resolved)
      else if String.eqb seg "." then resolve r resolved
      else resolve r (resolved ++ [seg])
  end.

(** The reference [u] resolved against the parsed base [b]: the part
    of [urljoin] that follows the two calls of [urlparse]. *)
Definition join_parsed (b u : ParseResult) (url : string) : string :=
  if negb (String.eqb (pr_scheme u) (pr_scheme b))
     || negb (mem_str (pr_scheme u) uses_relative)
  then url
  else if mem_str (pr_scheme u) uses_netloc && truthy (pr_netloc u)
  then urlunparse (pr_scheme u) (pr_netloc u) (pr_path u)
                  (pr_params u) (pr_query u) (pr_fragment u)
  else
    let netloc :=
      if mem_str (pr_scheme u) uses_netloc then pr_netloc b
      else pr_netloc u in
    if negb (truthy (pr_path u)) && negb (truthy (pr_params u))
    then urlunparse (pr_scheme u) netloc (pr_path b) (pr_params b)
                    (if truthy (pr_query u) then pr_query u else pr_query b)
                    (pr_fragment u)
    else
      let segments :=
        if String.eqb (take 1 (pr_path u)) "/"
        then split "/" (pr_path u)
        else squeeze_middle (base_parts (pr_path b) ++ split "/" (pr_path u)) in
      let resolved := resolve segments [] in
      let resolved :=
        if mem_str (List.last segments EmptyString) ["."; ".."]
        then resolved ++ [EmptyString] else resolved in
      let path := join "/" resolved in
      urlunparse (pr_scheme u) netloc
                 (if truthy path then path else "/")
                 (pr_params u) (pr_query u) (pr_fragment u).

(** [urljoin(base, url)]; [None] stands for the [ValueError] that
    [urlparse] raises on [base] or on [url]. *)
Definition urljoin (base url : string) : option string :=
  if negb (truthy base) then Some url
  else if negb (truthy url) then Some base
  else
    match urlparse base EmptyString with
    | None => None
    | Some b =>
        match urlparse url (pr_scheme b) with
        | None => None
        | Some u => Some (join_parsed b u url)
        end
    end.

End UrlLib.

(* ===================================================================== *)
(** * Python values and [json.dumps] *)
(* ===================================================================== *)

(** The values a JSON document decodes to, and the values the crawler
    stores in its items.  A [dict] keeps its entries in insertion order;
    a [float] is kept as the text [repr] prints for it. *)
Inductive pyval : Type :=
| PNone
| PBool (b : bool)
| PInt (z : Z)
| PFloat (repr : string)
| PStr (s : string)
| PList (l : list pyval)
| PDict (d : list (string * pyval)).

Module PyDict.

(** [d.get(k)] on the entries of a dict: the first binding of [k]. *)
Fixpoint get {A} (k : string) (d : list (string * A)) : option A :=
  match d with
  | [] => None
  | (k', v) :: r => if String.eqb k k' then Some v else get k r
  end.

(** [k in d] *)
Definition has {A} (k : string) (d : list (string * A)) : bool :=
  match get k d with Some _ => true | None => false end.

(** [d[k] = v]: an existing key keeps its position. *)
Fixpoint set {A} (k : string) (v : A) (d : list (string * A)) : list (string * A) :=
  match d with
  | [] => [(k, v)]
  | (k', v') :: r =>
      if String.eqb k k' then (k, v) :: r else (k', v') :: set k v r
  end.

(** [dict(pairs)]: later pairs overwrite earlier ones. *)
Definition of_pairs {A} (pairs : list (string * A)) : list (string * A) :=
  fold_left (fun d kv => set (fst kv) (snd kv) d) pairs [].

End PyDict.

Module Json.
Import PyStr.

Definition dquote : ascii := "034"%char.
Definition backslash : ascii := "092"%char.

Definition hex_lower (n : N) : ascii :=
  if (n <? 10)%N then ascii_of_N (48 + n) else ascii_of_N (87 + n).

(** ['\\u{0:04x}'.format(n)] for [n < 256] *)
Definition u_escape (n : N) : string :=
  String backslash (String "u" (String "0" (String "0"
    (String (hex_lower (n / 16)) (String (hex_lower (n mod 16)) EmptyString))))).

(** The replacement of one character in [py_encode_basestring_ascii]:
    printable ASCII other than the quote and the backslash is kept. *)
Definition escape_char (c : ascii) : string :=
  let n := code c in
  if Ascii.eqb c dquote then String backslash (String dquote EmptyString)
  else if Ascii.eqb c backslash then String backslash (String backslash EmptyString)
  else if (n =? 10)%N then String backslash "n"
  else if (n =? 13)%N then String backslash "r"
  else if (n =? 9)%N then String backslash "t"
  else if (n =? 8)%N then String backslash "b"
  else if (n =? 12)%N then String backslash "f"
  else if in_range 32 126 c then String c EmptyString
  else u_escape n.

Fixpoint escape (s : string) : string :=
  match s with
  | EmptyString => EmptyString
  | String a t => escape_char a +:+ escape t
  end.

Definition encode_str (s : string) : string :=
  String dquote (escape s +:+ String dquote EmptyString).

Fixpoint spaces (n : nat) : string :=
  match n with O => EmptyString | S k => String " " (spaces k) end.

(** [json.dumps(v, indent=indent)] at nesting depth [level]: every
    entry of a non-empty container starts a line indented by
    [indent * (level + 1)] spaces, entries are separated by a comma,
    a key from its value by a colon and a space. *)
Fixpoint dumps_at (indent level : nat) (v : pyval) {struct v} : string :=
  let nl := String "010" (spaces (indent * S level)) in
  match v with
  | PNone => "null"
  | PBool true => "true"
  | PBool false => "false"
  | PInt z => of_Z z
  | PFloat r => r
  | PStr s => encode_str s
  | PList [] => "[]"
  | PList l =>
      "[" +:+ nl
      +:+ join ("," +:+ nl) (map (dumps_at indent (S level)) l)
      +:+ String "010" (spaces (indent * level)) +:+ "]"
  | PDict [] => "{}"
  | PDict d =>
      "{" +:+ nl
      +:+ join ("," +:+ nl)
            (map (fun kv => encode_str (fst kv) +:+ ": "
                            +:+ dumps_at indent (S level) (snd kv)) d)
      +:+ String "010" (spaces (indent * level)) +:+ "}"
  end.

(** [json.dumps(v, indent=indent)] *)
Definition dumps (v : pyval) (indent : nat) : string := dumps_at indent 0 v.

End Json.

(* ===================================================================== *)
(** * [jsonschema]: the keywords used by the parameter schema *)
(* ===================================================================== *)

Module JsonSchema.

Inductive jtype := TObject | TArray | TString | TBoolean | TNull.

(** A schema with the keywords [type], [properties], [items],
    [minItems] and [required]; an absent keyword is [None] or empty. *)
Inductive schema : Type :=
| Schema (type : option jtype)
         (properties : list (string * schema))
         (items : option schema)
         (minItems : option nat)
         (required : list string).

Definition is_type (v : pyval) (t : jtype) : bool :=
  match t, v with
  | TObject, PDict _ => true
  | TArray, PList _ => true
  | TString, PStr _ => true
  | TBoolean, PBool _ => true
  | TNull, PNone => true
  | _, _ => false
  end.

(** [True] when the validator reports no error for [instance].  Each
    keyword applies only to instances of the type it talks about. *)
Fixpoint is_valid (s : schema) (instance : pyval) {struct s} : bool :=
  match s with
  | Schema type properties items minItems required =>
      match type with Some t => is_type instance t | None => true end
      && match instance with
         | PDict d =>
             (fix props (ps : list (string * schema)) : bool :=
                match ps with
                | [] => true
                | (k, sub) :: r =>
                    match PyDict.get k d with
                    | Some x => is_valid sub x
                    | None => true
                    end && props r
                end) properties
         | _ => true
         end
      && match instance, items with
         | PList l, Some sub => forallb (is_valid sub) l
         | _, _ => true
         end
      && match instance, minItems with
         | PList l, Some n => Nat.leb n (length l)
         | _, _ => true
         end
      && match instance with
         | PDict d => forallb (fun k => PyDict.has k d) required
         | _ => true
         end
  end.

End JsonSchema.

(* ===================================================================== *)
(** * settings.py *)
(* ===================================================================== *)

Module settings.
Import JsonSchema.

Definition DEBUG : bool := true.
Definition PARAMS_FILE_PATH : string := "resources/parameters.json".
Definition OUTPUT_FILE_PATH : string := "resources/output.json".
Definition SUPPORTED_GITHUB_TYPES : list string :=
  ["Repositories"; "Issues"; "Wikis"].
Definition HOST : string := "https://github.com".

Definition string_array (minItems : option nat) : schema :=
  Schema (Some TArray) [] (Some (Schema (Some TString) [] None None [])) minItems [].

Definition PARAMS_SCHEMA : schema :=
  Schema (Some TObject)
         [("keywords", string_array (Some 1));
          ("proxies", string_array None);
          ("type", Schema (Some TString) [] None None [])]
         None None
         ["keywords"; "type"].

End settings.

(* ===================================================================== *)
(** * exceptions.py, and the built-in exceptions the program can meet *)
(* ===================================================================== *)

Inductive exn : Type :=
| RequestProcessError (message : string)
  (** raised by [process] on a response that is not 200 *)
| InvalidSearchType (type : pyval)
  (** raised by [validate_params]; carries the value of [type] its
      message is formatted from *)
| ValidationError
  (** [jsonschema.exceptions.ValidationError] *)
| FileNotFoundError (message : string)
| PermissionError
| IsADirectoryError
| NotADirectoryError
| AttributeError
| KeyError (key : string)
| TypeError
| ValueError
| RuntimeError (message : string).

(* ===================================================================== *)
(** * The file system, as [os.path.exists] and [open] see it *)
(* ===================================================================== *)

Module OS.
Import PyStr.

Inductive fnode : Type :=
| File (content : string) (writable : bool)
| Dir (writable : bool).

(** Paths are looked up as the program spells them, relative to the
    working directory, which is the entry ["."]. *)
Abbreviation filesystem := (gmap string fnode).

(** [os.path.exists(path)] *)
Definition path_exists (fs : filesystem) (path : string) : bool :=
  match fs !! path with Some _ => true | None => false end.

Fixpoint rfind (c : ascii) (s : string) : option nat :=
  match s with
  | EmptyString => None
  | String a t =>
      match rfind c t with
      | Some i => Some (S i)
      | None => if Ascii.eqb a c then Some 0 else None
      end
  end.

(** [os.path.dirname(path)] *)
Definition dirname (path : string) : string :=
  let head := match rfind "/" path with
              | Some i => take (S i) path
              | None => EmptyString
              end in
  if truthy head && negb (all_chars (Ascii.eqb "/") head)
  then rstrip_if (Ascii.eqb "/") head else head.

(** The directory that holds the entry [path]. *)
Definition parent (path : string) : string :=
  if truthy (dirname path) then dirname path else ".".

Definition enoent (path : string) : exn :=
  FileNotFoundError ("[Errno 2] No such file or directory: '" +:+ path +:+ "'").

(** [open(path, 'w+')]: an existing writable file is truncated, a
    missing one is created when its directory exists and is writable. *)
Definition open_w (fs : filesystem) (path : string) : exn + filesystem :=
  match fs !! path with
  | Some (File _ true) => inr (<[path := File EmptyString true]> fs)
  | Some (File _ false) => inl PermissionError
  | Some (Dir _) => inl IsADirectoryError
  | None =>
      match fs !! parent path with
      | Some (Dir true) => inr (<[path := File EmptyString true]> fs)
      | Some (Dir false) => inl PermissionError
      | Some (File _ _) => inl NotADirectoryError
      | None => inl (enoent path)
      end
  end.

(** [f.write(text)] followed by [f.flush()] on the file opened at
    [path]. *)
Definition write (fs : filesystem) (path text : string) : filesystem :=
  match fs !! path with
  | Some (File old w) => <[path := File (old +:+ text) w]> fs
  | _ => fs
  end.

End OS.

(* ===================================================================== *)
(** * The element tree built by BeautifulSoup *)
(* ===================================================================== *)

Module Soup.
Import PyStr UrlLib.

(** A page element: a run of text or a tag with its attributes as
    written in the page and its children in document order. *)
Inductive node : Type :=
| NavigableString (s : string)
| Tag (name : string) (attrs : gmap string string) (contents : list node).

(** A parsed document is the list of its top-level elements. *)
Abbreviation soup := (list node).

(** [tag.has_attr(key)]; a text node has no such method. *)
Definition has_attr (n : node) (key : string) : exn + bool :=
  match n with
  | NavigableString _ => inl AttributeError
  | Tag _ attrs _ =>
      inr (match attrs !! key with Some _ => true | None => false end)
  end.

(** [tag[key]] for an attribute that holds a single string. *)
Definition get_item (n : node) (key : string) : exn + string :=
  match n with
  | NavigableString _ => inl TypeError
  | Tag _ attrs _ =>
      match attrs !! key with
      | Some v => inr v
      | None => inl (KeyError key)
      end
  end.

(** [element.text]: all the text below the element, in order. *)
Fixpoint text (n : node) : string :=
  match n with
  | NavigableString s => s
  | Tag _ _ contents => String.concat EmptyString (map text contents)
  end.

(** [tag.descendants]: pre-order. *)
Fixpoint descendants (n : node) : list node :=
  match n with
  | NavigableString _ => []
  | Tag _ _ contents => flat_map (fun c => c :: descendants c) contents
  end.

Definition soup_descendants (doc : soup) : list node :=
  flat_map (fun c => c :: descendants c) doc.

(** The white-space separated values of a multi-valued attribute. *)
Fixpoint words_from (cur : string) (s : string) : list string :=
  match s with
  | EmptyString => if truthy cur then [cur] else []
  | String a t =>
      if is_space a
      then (if truthy cur then [cur] else []) ++ words_from EmptyString t
      else words_from (cur +:+ String a EmptyString) t
  end.

Definition words (s : string) : list string := words_from EmptyString s.

(** The attributes the HTML tree builder stores as lists of values. *)
Definition cdata_list_attribute (tag attr : string) : bool :=
  mem_str attr ["class"; "accesskey"; "dropzone"]
  || (mem_str tag ["a"; "link"] && mem_str attr ["rel"; "rev"])
  || (mem_str tag ["td"; "th"] && String.eqb attr "headers")
  || (String.eqb tag "form" && String.eqb attr "accept-charset")
  || (String.eqb tag "object" && String.eqb attr "archive")
  || (String.eqb tag "area" && String.eqb attr "rel")
  || (String.eqb tag "icon" && String.eqb attr "sizes")
  || (String.eqb tag "iframe" && String.eqb attr "sandbox")
  || (String.eqb tag "output" && String.eqb attr "for").

(** What an [attrs={key: ...}] filter asks of an attribute. *)
Inductive want := Present | Equal (value : string).

(** One attribute filter on one element: [True] asks for presence; a
    string matches a single-valued attribute it is equal to, and a
    multi-valued attribute when it equals one of the values or the
    values joined by spaces. *)
Definition attr_matches (n : node) (key : string) (w : want) : bool :=
  match n with
  | NavigableString _ => false
  | Tag name attrs _ =>
      match attrs !! key, w with
      | None, _ => false
      | Some _, Present => true
      | Some v, Equal target =>
          if cdata_list_attribute name key
          then existsb (String.eqb target) (words v)
               || String.eqb (join " " (words v)) target
          else String.eqb v target
      end
  end.

(** [soup.find_all(attrs={...}, ...)]: the tags of the document, in
    document order, that pass every filter. *)
Definition find_all (doc : soup) (filters : list (string * want)) : list node :=
  List.filter (fun n => forallb (fun kw => attr_matches n (fst kw) (snd kw)) filters)
              (soup_descendants doc).

(** [soup.find(attrs={...})]: the first match or [None]. *)
Definition find (doc : soup) (filters : list (string * want)) : option node :=
  head (find_all doc filters).

End Soup.

(* ===================================================================== *)
(** * The HTTP session and the outside world *)
(* ===================================================================== *)

Module Http.

(** What the server answers to a GET: the status, the body as text,
    and how long the answer takes. *)
Record response := mkResponse {
  status : Z; body : string; latency : nat }.

(** What the transport did, with the time it did it. *)
Inductive event : Type :=
| Sent (at_time : nat) (url : string) (proxy : option string)
| Received (at_time : nat) (url : string).

(** [aiohttp.ClientSession] *)
Record ClientSession := mkSession { closed : bool }.

End Http.

Import PyStr UrlLib Soup Http.

(** The world the crawler runs in.  [server] answers requests, [draw]
    numbers the outcomes of the random generator, [clock] is the current
    time; [trace] and [draws] record what has been consumed. *)
Record world := mkWorld {
  fs : gmap string OS.fnode;
  server : string -> option string -> response;
  clock : nat;
  trace : list event;
  draw : nat -> nat;
  draws : nat }.

Definition set_fs (w : world) (f : gmap string OS.fnode) : world :=
  {| fs := f; server := server w; clock := clock w; trace := trace w;
     draw := draw w; draws := draws w |}.

(* ===================================================================== *)
(** * items.py *)
(* ===================================================================== *)

(** A dataclass with [url] and [extras]. *)
Record GithubSearchItem := mkItem {
  url : string;
  extras : list (string * pyval) }.

(** [GithubSearchItem(url=url)]: [__post_init__] resolves [url] against
    the host; the [ValueError] of [urljoin] ends the construction. *)
Definition new_GithubSearchItem (url : string) : exn + GithubSearchItem :=
  match urljoin settings.HOST url with
  | Some resolved => inr {| url := resolved; extras := [] |}
  | None => inl ValueError
  end.

Definition set_extras (item : GithubSearchItem) (e : list (string * pyval)) : GithubSearchItem :=
  {| url := url item; extras := e |}.

Definition to_dict (item : GithubSearchItem) : pyval :=
  PDict [("url", PStr (url item)); ("extras", PDict (extras item))].

(* ===================================================================== *)
(** * The crawler object and the monad its methods run in *)
(* ===================================================================== *)

Record GithubSearchCrawler := mkCrawler {
  keywords : list string;
  type_ : string;
  proxies : list string;
  items : list pyval;
  _session : option ClientSession }.

Definition state : Type := GithubSearchCrawler * world.

(** A computation returns a value or raises, and leaves a state. *)
Definition M (A : Type) : Type := state -> (exn + A) * state.

Definition ret {A} (a : A) : M A := fun st => (inr a, st).
Definition raise {A} (e : exn) : M A := fun st => (inl e, st).
Definition bind {A B} (m : M A) (k : A -> M B) : M B :=
  fun st => match m st with
            | (inr a, st') => k a st'
            | (inl e, st') => (inl e, st')
            end.
Definition lift {A} (r : exn + A) : M A := fun st => (r, st).
Definition get_self : M GithubSearchCrawler := fun st => (inr (fst st), st).
Definition get_world : M world := fun st => (inr (snd st), st).
Definition put_self (c : GithubSearchCrawler) : M unit := fun st => (inr tt, (c, snd st)).
Definition put_world (w : world) : M unit := fun st => (inr tt, (fst st, w)).

Declare Scope monad_scope.
Delimit Scope monad_scope with monad.
Notation "x <- m ;; k" := (bind m (fun x => k))
  (at level 100, m at next level, right associativity) : monad_scope.
Notation "m ;;; k" := (bind m (fun _ => k))
  (at level 100, right associativity) : monad_scope.
Open Scope monad_scope.

(** [for x in xs: body(x)] *)
Fixpoint for_each {A} (xs : list A) (body : A -> M unit) : M unit :=
  match xs with
  | [] => ret tt
  | x :: r => body x ;;; for_each r body
  end.

(** A list comprehension [[x for x in xs if cond(x)]] whose condition
    can raise. *)
Fixpoint filter_exn {A} (cond : A -> exn + bool) (xs : list A) : exn + list A :=
  match xs with
  | [] => inr []
  | x :: r =>
      match cond x with
      | inl e => inl e
      | inr b =>
          match filter_exn cond r with
          | inl e => inl e
          | inr ys => inr (if b then x :: ys else ys)
          end
      end
  end.

Module Transport.

(** [random.Random._randbelow(n)]: the next outcome, below [n]. *)
Definition randbelow (n : nat) : M nat :=
  w <- get_world ;;
  put_world {| fs := fs w; server := server w; clock := clock w;
               trace := trace w; draw := draw w; draws := S (draws w) |} ;;;
  ret (draw w (draws w) mod n).

(** [session.get(url, proxy=proxy)] awaited to its response: the
    request leaves now, the response arrives [latency] later.  Every
    request on an open session is answered, and the body of the answer
    is text: a run in which the transport fails is not represented. *)
Definition get (session : ClientSession) (url : string) (proxy : option string) : M response :=
  if closed session then raise (RuntimeError "Session is closed")
  else
    w <- get_world ;;
    let r := server w url proxy in
    put_world {| fs := fs w; server := server w;
                 clock := clock w + latency r;
                 trace := trace w ++ [Sent (clock w) url proxy;
                                      Received (clock w + latency r) url];
                 draw := draw w; draws := draws w |} ;;;
    ret r.

(** [session.close()] *)
Definition close (session : ClientSession) : ClientSession :=
  {| closed := true |}.

End Transport.

(* ===================================================================== *)
(** * utils.py *)
(* ===================================================================== *)

Module utils.

(** [_resolve_default_path(default, new)]: [new] when it is given (not
    [None] and not empty), [default] otherwise; the chosen path has to
    exist. *)
Definition _resolve_default_path (default : string) (new : option string) : M string :=
  w <- get_world ;;
  let use_default : M string :=
    if negb (OS.path_exists (fs w) default)
    then raise (FileNotFoundError
                  ("File " +:+ default +:+ " does not exist. Please provide a valid path"))
    else ret default in
  match new with
  | Some new' =>
      if truthy new' then
        if negb (OS.path_exists (fs w) new')
        then raise (FileNotFoundError ("File " +:+ new' +:+ " does not exist"))
        else ret new'
      else use_default
  | None => use_default
  end.

(** [write_items(items, file_path)] *)
Definition write_items (items : list pyval) (file_path : option string) : M unit :=
  path <- _resolve_default_path settings.OUTPUT_FILE_PATH file_path ;;
  w <- get_world ;;
  match OS.open_w (fs w) path with
  | inl e => raise e
  | inr opened =>
      put_world (set_fs w (OS.write opened path (Json.dumps (PList items) 4)))
  end.

End utils.

(* ===================================================================== *)
(** * crawlers.py *)
(* ===================================================================== *)

(** The two ways the crawler calls BeautifulSoup: on a whole page, and
    keeping only the anchors ([parse_only=SoupStrainer('a')]). *)
Record BeautifulSoup := mkParser {
  html_parser : string -> soup;
  html_parser_only_a : string -> soup }.

Module crawlers.

(** [params[key]] *)
Definition subscript (params : pyval) (key : string) : exn + pyval :=
  match params with
  | PDict d =>
      match PyDict.get key d with
      | Some v => inr v
      | None => inl (KeyError key)
      end
  | _ => inl TypeError
  end.

(** [v in names] for a tuple of strings. *)
Definition py_in (v : pyval) (names : list string) : bool :=
  match v with
  | PStr s => mem_str s names
  | _ => false
  end.

(** [validate_params(params)] *)
Definition validate_params (params : pyval) : exn + unit :=
  if negb (JsonSchema.is_valid settings.PARAMS_SCHEMA params)
  then inl ValidationError
  else
    match subscript params "type" with
    | inl e => inl e
    | inr ty =>
        if negb (py_in ty settings.SUPPORTED_GITHUB_TYPES)
        then inl (InvalidSearchType ty)
        else inr tt
    end.

Definition as_str (v : pyval) : option string :=
  match v with PStr s => Some s | _ => None end.

Fixpoint as_strs (l : list pyval) : option (list string) :=
  match l with
  | [] => Some []
  | v :: r =>
      match as_str v, as_strs r with
      | Some s, Some ss => Some (s :: ss)
      | _, _ => None
      end
  end.

Definition as_str_list (v : pyval) : option (list string) :=
  match v with PList l => as_strs l | _ => None end.

(** [__init__], from the parameters read from the JSON file: they are
    validated, then [keywords], [type] and the optional [proxies] are
    stored.  The fields are typed here; a validated document always
    has values of these types. *)
Definition init (params : pyval) : exn + GithubSearchCrawler :=
  match validate_params params with
  | inl e => inl e
  | inr _ =>
      match subscript params "keywords", subscript params "type" with
      | inl e, _ => inl e
      | _, inl e => inl e
      | inr kw, inr ty =>
          let px := match params with
                    | PDict d => default (PList []) (PyDict.get "proxies" d)
                    | _ => PList []
                    end in
          match as_str_list kw, as_str ty, as_str_list px with
          | Some kw', Some ty', Some px' =>
              inr {| keywords := kw'; type_ := ty'; proxies := px';
                     items := []; _session := None |}
          | _, _, _ => inl TypeError
          end
      end
  end.

(** The [search_url] property. *)
Definition search_url (self : GithubSearchCrawler) : exn + string :=
  let query_params :=
    [("q", join "+" (keywords self)); ("type", lower (type_ self))] in
  let query := urlencode query_params "+" in
  match urljoin settings.HOST ("search?" +:+ query) with
  | Some joined => inr joined
  | None => inl ValueError
  end.

(** What the [proxy] property selects when the generator's outcome is
    [r]: [random.choice(seq)] is [seq[r]] for [r] below [len(seq)]. *)
Definition selected (proxies : list string) (r : nat) : option string :=
  match proxies with
  | [] => None
  | _ => Some ("https://" +:+ nth r proxies EmptyString)
  end.

(** The [proxy] property: a fresh outcome on every use. *)
Definition proxy : M (option string) :=
  self <- get_self ;;
  match proxies self with
  | [] => ret None
  | ps => r <- Transport.randbelow (length ps) ;; ret (selected ps r)
  end.

Definition set_session (self : GithubSearchCrawler) (s : option ClientSession) : GithubSearchCrawler :=
  {| keywords := keywords self; type_ := type_ self; proxies := proxies self;
     items := items self; _session := s |}.

Definition append_item (self : GithubSearchCrawler) (i : pyval) : GithubSearchCrawler :=
  {| keywords := keywords self; type_ := type_ self; proxies := proxies self;
     items := items self ++ [i]; _session := _session self |}.

(** [setup()] *)
Definition setup : M unit :=
  self <- get_self ;;
  put_self (set_session self (Some {| closed := false |})).

(** [close()] *)
Definition close : M unit :=
  self <- get_self ;;
  match _session self with
  | None => raise AttributeError
  | Some session =>
      if negb (closed session)
      then put_self (set_session self (Some (Transport.close session)))
      else ret tt
  end.

(** [self._session.get(url, proxy=proxy)] *)
Definition session_get (url : string) (proxy : option string) : M response :=
  self <- get_self ;;
  match _session self with
  | None => raise AttributeError
  | Some session => Transport.get session url proxy
  end.

(** [self.items.append(item.to_dict())] *)
Definition items_append (item : GithubSearchItem) : M unit :=
  self <- get_self ;;
  put_self (append_item self (to_dict item)).

(** [match_condition(a)] of [parse_data_hydro_click_elements] *)
Definition match_condition (a : node) : exn + bool :=
  match has_attr a "href" with
  | inl e => inl e
  | inr false => inr false
  | inr true =>
      match has_attr a "data-hydro-click" with
      | inl e => inl e
      | inr false => inr false
      | inr true =>
          match get_item a "data-hydro-click" with
          | inl e => inl e
          | inr v => inr (contains "search_result.click" v)
          end
      end
  end.

(** The loop body shared by both parsers: [GithubSearchItem(url=a['href'])]. *)
Definition item_of_link (a : node) : exn + GithubSearchItem :=
  match get_item a "href" with
  | inl e => inl e
  | inr href => new_GithubSearchItem href
  end.

(** [parse_data_hydro_click_elements(data)] *)
Definition parse_data_hydro_click_elements (data : soup) : M unit :=
  links <- lift (filter_exn match_condition data) ;;
  for_each links (fun link =>
    item <- lift (item_of_link link) ;;
    items_append item).

(** One element of the list given to [dict]: a sequence of exactly two
    strings. *)
Definition key_value (parts : list string) : exn + string * pyval :=
  match parts with
  | [k; v] => inr (k, PStr v)
  | _ => inl ValueError
  end.

Fixpoint map_exn {A B} (f : A -> exn + B) (xs : list A) : exn + list B :=
  match xs with
  | [] => inr []
  | x :: r =>
      match f x with
      | inl e => inl e
      | inr y =>
          match map_exn f r with
          | inl e => inl e
          | inr ys => inr (y :: ys)
          end
      end
  end.

Section WithParser.
Context (bs4 : BeautifulSoup).

(** [get_extras(text)] *)
Definition get_extras (page : string) : exn + list (string * pyval) :=
  let soup := html_parser bs4 page in
  match find soup [("rel", Equal "author")] with
  | None => inl AttributeError
  | Some author =>
      let owner := strip (text author) in
      match filter_exn
              (fun lang =>
                 match get_item lang "data-ga-click" with
                 | inl e => inl e
                 | inr v => inr (contains "stats" v)
                 end)
              (find_all soup [("data-ga-click", Present)]) with
      | inl e => inl e
      | inr language_elements =>
          match map_exn
                  (fun stat =>
                     key_value (split "010" (replace_char "%" "" (strip (text stat)))))
                  language_elements with
          | inl e => inl e
          | inr pairs =>
              inr [("owner", PStr owner);
                   ("language_stats", PDict (PyDict.of_pairs pairs))]
          end
      end
  end.

(** [parse_repositories(data)] *)
Definition parse_repositories (data : soup) : M unit :=
  let links := find_all data [("class", Equal "v-align-middle"); ("href", Present)] in
  for_each links (fun a =>
    item <- lift (item_of_link a) ;;
    response <- session_get (url item) None ;;
    extras <- lift (get_extras (body response)) ;;
    items_append (set_extras item extras)).

(** The table [coro] of [process]. *)
Definition coro (type : string) : option (soup -> M unit) :=
  if String.eqb type "Repositories" then Some parse_repositories
  else if String.eqb type "Issues" then Some parse_data_hydro_click_elements
  else if String.eqb type "Wikis" then Some parse_data_hydro_click_elements
  else None.

(** [process()].  The one task the method creates runs the extractor of
    the search type, and [gather] waits for it: the extractor runs to its
    end, or to its first exception, before [close] is reached. *)
Definition process : M unit :=
  setup ;;;
  self <- get_self ;;
  target <- lift (search_url self) ;;
  via <- proxy ;;
  response <- session_get target via ;;
  (if (status response =? 200)%Z
   then
     let soup := html_parser_only_a bs4 (body response) in
     match coro (type_ self) with
     | None => raise (KeyError (type_ self))
     | Some parser => parser soup
     end
   else
     raise (RequestProcessError
              ("Bad response status: " +:+ of_Z (status response)))) ;;;
  close ;;;
  self <- get_self ;;
  utils.write_items (items self) None.

End WithParser.

End crawlers.

(* ===================================================================== *)
(** * Sample data *)
(* ===================================================================== *)

Module Sample.

Definition anchor (attrs : list (string * string)) (contents : list node) : node :=
  Tag "a" (list_to_map attrs) contents.

Definition params : pyval :=
  PDict [("keywords", PList [PStr "openstack"; PStr "nova"; PStr "css"]);
         ("proxies", PList [PStr "194.126.37.94:8080"; PStr "13.78.125.167:8080"]);
         ("type", PStr "Repositories")].

Definition crawler : GithubSearchCrawler :=
  {| keywords := ["openstack"; "nova"; "css"];
     type_ := "Repositories";
     proxies := ["194.126.37.94:8080"; "13.78.125.167:8080"];
     items := [];
     _session := None |}.

(** A disk with the output file in place, and one with only its
    directory. *)
Definition disk : gmap string OS.fnode :=
  {[ "." := OS.Dir true;
     "resources" := OS.Dir true;
     "resources/output.json" := OS.File "[]" true ]}.

Definition fresh_disk : gmap string OS.fnode :=
  {[ "." := OS.Dir true; "resources" := OS.Dir true ]}.

Definition unavailable : string -> option string -> response :=
  fun _ _ => {| status := 503; body := "Service Unavailable"; latency := 1 |}.

Definition world_of (d : gmap string OS.fnode)
           (srv : string -> option string -> response) : world :=
  {| fs := d; server := srv; clock := 0; trace := [];
     draw := fun n => n; draws := 0 |}.

(** Three anchors of a result page: a result, a navigation link, a
    result. *)
Definition anchor_A : node :=
  anchor [("href", "/openstack/nova/issues/1");
          ("data-hydro-click", "{event_type:search_result.click,rank:1}")]
         [NavigableString "First"].
Definition anchor_B : node :=
  anchor [("href", "/login")] [NavigableString "Sign in"].
Definition anchor_C : node :=
  anchor [("href", "/openstack/nova/issues/2");
          ("data-hydro-click", "{event_type:search_result.click,rank:2}")]
         [NavigableString "Second"].

(** A repository page in the form [get_extras] expects. *)
Definition detail_page : soup :=
  [Tag "html" ∅
     [Tag "span" {[ "class" := "author" ]}
        [anchor [("rel", "author"); ("href", "/alice")] [NavigableString "alice"]];
      Tag "div" ∅
        [anchor [("href", "/alice/repo/search?l=go");
                 ("data-ga-click", "Repository, language stats search click, location:repo overview")]
           [Tag "span" ∅ [NavigableString "Go"];
            NavigableString (String "010" EmptyString);
            Tag "span" ∅ [NavigableString "80%"]];
         anchor [("href", "/alice/repo/search?l=python");
                 ("data-ga-click", "Repository, language stats search click, location:repo overview")]
           [Tag "span" ∅ [NavigableString "Python"];
            NavigableString (String "010" EmptyString);
            Tag "span" ∅ [NavigableString "20%"]];
         anchor [("href", "/alice/repo/issues");
                 ("data-ga-click", "Repository, go to issues")]
           [NavigableString "Issues"]]]].

Definition repo_link (href : string) : node :=
  anchor [("class", "v-align-middle"); ("href", href)] [NavigableString href].

(** Result pages with one and with two repositories. *)
Definition one_link : soup := [repo_link "/alice/repo"; anchor_B].
Definition two_links : soup := [repo_link "/alice/slow"; anchor_B; repo_link "/alice/fast"].

(** Every page parses to the repository page above. *)
Definition detail_parser : BeautifulSoup :=
  {| html_parser := fun _ => detail_page; html_parser_only_a := fun _ => [] |}.

(** A server that takes five time units for [/alice/slow] and one for
    any other page. *)
Definition slow_first : string -> option string -> response :=
  fun u _ =>
    {| status := 200; body := "<html>";
       latency := if String.eqb u "https://github.com/alice/slow" then 5 else 1 |}.

Definition no_parser : BeautifulSoup :=
  {| html_parser := fun _ => []; html_parser_only_a := fun _ => [] |}.

End Sample.

Import crawlers utils.

(* ===================================================================== *)
(** * Notions used in the statements *)
(* ===================================================================== *)

(** The path [write_items] resolves [file_path] to. *)
Definition destination (file_path : option string) : string :=
  match file_path with
  | Some p => if truthy p then p else settings.OUTPUT_FILE_PATH
  | None => settings.OUTPUT_FILE_PATH
  end.

(** The message of the error raised for a destination that is absent. *)
Definition missing_message (file_path : option string) : string :=
  match file_path with
  | Some p =>
      if truthy p then "File " +:+ p +:+ " does not exist"
      else "File " +:+ settings.OUTPUT_FILE_PATH
           +:+ " does not exist. Please provide a valid path"
  | None => "File " +:+ settings.OUTPUT_FILE_PATH
            +:+ " does not exist. Please provide a valid path"
  end.

(** The directory of [path] is missing, is not a directory, or is not
    writable. *)
Definition parent_unusable (w : world) (path : string) : Prop :=
  match fs w !! OS.parent path with
  | Some (OS.Dir true) => False
  | _ => True
  end.

(** The text of a pretty-printed JSON array with a four-space indent. *)
Definition json_array_text (items : list pyval) : string :=
  match items with
  | [] => "[]"
  | _ =>
      "[" +:+ String "010" "    "
      +:+ join ("," +:+ String "010" "    ") (map (Json.dumps_at 4 1) items)
      +:+ String "010" "]"
  end.

(** The crawler after [setup]: same fields, a fresh open session. *)
Definition ready (c : GithubSearchCrawler) : GithubSearchCrawler :=
  set_session c (Some {| closed := false |}).

(** [n] calls of [close] in a row; the first error stops the row. *)
Fixpoint close_times (n : nat) : M unit :=
  match n with
  | O => ret tt
  | S k => close ;;; close_times k
  end.

(** The world after one request on an open session. *)
Definition after_get (w : world) (url : string) (proxy : option string) : world :=
  {| fs := fs w; server := server w;
     clock := clock w + latency (server w url proxy);
     trace := trace w ++ [Sent (clock w) url proxy;
                          Received (clock w + latency (server w url proxy)) url];
     draw := draw w; draws := draws w |}.

(** The world after one outcome of the random generator was used. *)
Definition after_draw (w : world) : world :=
  {| fs := fs w; server := server w; clock := clock w; trace := trace w;
     draw := draw w; draws := S (draws w) |}.

(** The proxy [process] sends the search request through, the world in
    which the request leaves, and the response to it. *)
Definition first_proxy (c : GithubSearchCrawler) (w : world) : option string :=
  match proxies c with
  | [] => None
  | ps => selected ps (draw w (draws w) mod length ps)
  end.

Definition at_search (c : GithubSearchCrawler) (w : world) : world :=
  match proxies c with
  | [] => w
  | _ => after_draw w
  end.

(** The URL [search_url] returns (it always returns one, see
    [search_url_returns]). *)
Definition search_address (c : GithubSearchCrawler) : string :=
  match search_url c with
  | inr joined => joined
  | inl _ => EmptyString
  end.

Definition search_response (c : GithubSearchCrawler) (w : world) : response :=
  server w (search_address c) (first_proxy c w).

(** The world when the response to the search request has arrived. *)
Definition after_search (c : GithubSearchCrawler) (w : world) : world :=
  after_get (at_search c w) (search_address c) (first_proxy c w).

(** What [process] does with the page of a successful search. *)
Definition on_success (bs4 : BeautifulSoup) (c : GithubSearchCrawler)
           (page : string) : M unit :=
  match coro bs4 (type_ c) with
  | None => raise (KeyError (type_ c))
  | Some parser => parser (html_parser_only_a bs4 page)
  end ;;;
  close ;;;
  self <- get_self ;;
  write_items (items self) None.

(** A result that is not a [RequestProcessError], and a computation
    that never ends in one. *)
Definition calm {A} (r : exn + A) : Prop :=
  forall msg, r <> inl (RequestProcessError msg).

Definition quiet {A} (m : M A) : Prop :=
  forall st, calm (fst (m st)).

(** The crawler with further items at the end of its collection. *)
Definition add_items (c : GithubSearchCrawler) (new : list pyval) : GithubSearchCrawler :=
  {| keywords := keywords c; type_ := type_ c; proxies := proxies c;
     items := items c ++ new; _session := _session c |}.

Definition is_tag (n : node) : Prop :=
  match n with Tag _ _ _ => True | NavigableString _ => False end.

(** An anchor with an [href] and a click-tracking attribute that
    mentions [search_result.click]. *)
Definition tracked (a : node) : bool :=
  match a with
  | Tag _ attrs _ =>
      match attrs !! "href", attrs !! "data-hydro-click" with
      | Some _, Some v => contains "search_result.click" v
      | _, _ => false
      end
  | NavigableString _ => false
  end.

Definition href_of (a : node) : string :=
  match a with
  | Tag _ attrs _ => default EmptyString (attrs !! "href")
  | NavigableString _ => EmptyString
  end.

(** Whether the [href] of a link can be resolved against the host, and
    the URL it then leads to. *)
Definition resolves (a : node) : bool :=
  match urljoin settings.HOST (href_of a) with
  | Some _ => true
  | None => false
  end.

Definition link_url (a : node) : string :=
  default EmptyString (urljoin settings.HOST (href_of a)).

(** The item of a link that is not enriched. *)
Definition plain_item (a : node) : pyval :=
  PDict [("url", PStr (link_url a)); ("extras", PDict [])].

Definition has_href (a : node) : bool :=
  match a with
  | Tag _ attrs _ => match attrs !! "href" with Some _ => true | None => false end
  | NavigableString _ => false
  end.

(** The links [parse_repositories] follows. *)
Definition repository_links (data : soup) : list node :=
  find_all data [("class", Equal "v-align-middle"); ("href", Present)].

(** The elements [get_extras] reads the language statistics from. *)
Definition language_elements (doc : soup) : list node :=
  List.filter
    (fun n => match n with
              | Tag _ attrs _ =>
                  match attrs !! "data-ga-click" with
                  | Some v => contains "stats" v
                  | None => false
                  end
              | NavigableString _ => false
              end)
    (find_all doc [("data-ga-click", Present)]).

(** The [url] of an item of the collection. *)
Definition item_url (v : pyval) : option string :=
  match v with
  | PDict d =>
      match PyDict.get "url" d with
      | Some (PStr u) => Some u
      | _ => None
      end
  | _ => None
  end.

(** Requests made one at a time from time [t] on: each leaves when the
    response to the one before has arrived. *)
Fixpoint sequential_trace (srv : string -> option string -> response)
         (t : nat) (urls : list string) : list event :=
  match urls with
  | [] => []
  | u :: r =>
      Sent t u None
      :: Received (t + latency (srv u None)) u
      :: sequential_trace srv (t + latency (srv u None)) r
  end.



(** The body of the loop of [parse_repositories]. *)
Definition repository_step (bs4 : BeautifulSoup) (a : node) : M unit :=
  item <- lift (item_of_link a) ;;
  response <- session_get (url item) None ;;
  extras <- lift (get_extras bs4 (body response)) ;;
  items_append (set_extras item extras).

(** The item of a link enriched with [extras]. *)
Definition rich_item (a : node) (extras : list (string * pyval)) : pyval :=
  PDict [("url", PStr (link_url a)); ("extras", PDict extras)].

(** The text of a language element: [<Language>\n<Percent>%]. *)
Definition stat_text (language percent : string) : string :=
  language +:+ String "010" (percent +:+ "%").

(** No line feed and no percent sign. *)
Definition plain (s : string) : bool :=
  negb (mem_char "010" s) && negb (mem_char "%" s).

(** The encoding of one character by [quote_plus] with [+] safe. *)
Definition plus_char (a : ascii) : string :=
  replace_char " " "+" (quote_bytes "+ " (utf8_char a)).

Fixpoint plus_encode (s : string) : string :=
  match s with
  | EmptyString => EmptyString
  | String a t => plus_char a +:+ plus_encode t
  end.

(** The characters of an encoded query: always-safe ones, [+] and [%],
    and the separators [&] and [=]. *)
Definition query_char (c : ascii) : bool :=
  always_safe c || mem_char c "+%&=".

(** [key] is not a member of the document. *)
Definition missing (key : string) (params : pyval) : Prop :=
  match params with
  | PDict d => PyDict.get key d = None
  | _ => True
  end.

Definition is_str (v : pyval) : bool :=
  match v with PStr _ => true | _ => false end.

(** [random.choice] on a list of length [n] indexes it with the outcome
    of [randbelow(n)], one of [0 .. n-1], each as likely as the others.
    The number of these outcomes for which [proxy] returns [v]: *)
Definition favourable (ps : list string) (v : option string) : nat :=
  length (List.filter (fun r => bool_decide (selected ps r = v)) (seq 0 (length ps))).

(** The documents [validate_params] accepts. *)
Definition acceptable (params : pyval) : Prop :=
  exists d kws ty,
    params = PDict d
    /\ PyDict.get "keywords" d = Some (PList (map PStr kws))
    /\ kws <> []
    /\ PyDict.get "type" d = Some (PStr ty)
    /\ In ty settings.SUPPORTED_GITHUB_TYPES
    /\ (PyDict.get "proxies" d = None
        \/ exists pxs, PyDict.get "proxies" d = Some (PList (map PStr pxs))).

(** The crawler [__init__] builds from an acceptable document. *)
Definition built_from (d : list (string * pyval)) (c : GithubSearchCrawler) : Prop :=
  PyDict.get "keywords" d = Some (PList (map PStr (keywords c)))
  /\ PyDict.get "type" d = Some (PStr (type_ c))
  /\ match PyDict.get "proxies" d with
     | None => proxies c = []
     | Some v => v = PList (map PStr (proxies c))
     end
  /\ items c = []
  /\ _session c = None.

(** What [get_extras] makes of the page a link leads to. *)
Definition extras_of (bs4 : BeautifulSoup) (srv : string -> option string -> response)
           (a : node) : exn + list (string * pyval) :=
  get_extras bs4 (body (srv (link_url a) None)).

(** The item of a link whose page yields extras. *)
Definition enriched (bs4 : BeautifulSoup) (srv : string -> option string -> response)
           (a : node) : pyval :=
  match extras_of bs4 srv a with
  | inr ex => rich_item a ex
  | inl _ => plain_item a
  end.

(** The link resolves and its page yields extras. *)
Definition extracts (bs4 : BeautifulSoup) (srv : string -> option string -> response)
           (a : node) : Prop :=
  resolves a = true /\ exists ex, extras_of bs4 srv a = inr ex.

(** The world after the pages at [urls] were requested one after the
    other, without proxy. *)
Definition after_gets (w : world) (urls : list string) : world :=
  fold_left (fun w' u => after_get w' u None) urls w.

(** Two worlds that differ at most in the status of the responses to
    requests without proxy. *)
Definition same_pages (w1 w2 : world) : Prop :=
  fs w1 = fs w2 /\ clock w1 = clock w2 /\ trace w1 = trace w2
  /\ draws w1 = draws w2
  /\ forall u, body (server w1 u None) = body (server w2 u None)
               /\ latency (server w1 u None) = latency (server w2 u None).

(** A server like [Sample.slow_first] that answers every request with
    the status 404. *)
Definition not_found : string -> option string -> response :=
  fun u p =>
    {| status := 404; body := body (Sample.slow_first u p);
       latency := latency (Sample.slow_first u p) |}.

(** The lines of a language element, as [get_extras] reads them. *)
Definition stat_lines (stat : node) : list string :=
  split "010" (replace_char "%" "" (strip (text stat))).

(** The pair read from the lines of a language element that has two. *)
Definition stat_pair (stat : node) : string * string :=
  match stat_lines stat with
  | [language; percent] => (language, percent)
  | _ => (EmptyString, EmptyString)
  end.

(** A value of [language_stats]. *)
Definition as_percent (lp : string * string) : string * pyval :=
  (fst lp, PStr (snd lp)).

(** The state in which [process] starts the extractor, and the page it
    gives to it. *)
Definition at_extraction (c : GithubSearchCrawler) (w : world) : state :=
  (ready c, after_search c w).

Definition search_page (bs4 : BeautifulSoup) (c : GithubSearchCrawler) (w : world) : soup :=
  html_parser_only_a bs4 (body (search_response c w)).

(** The search succeeded and the extractor of the search type ran to
    its end. *)
Definition extraction_returns (bs4 : BeautifulSoup) (c : GithubSearchCrawler)
           (w : world) : Prop :=
  status (search_response c w) = 200%Z
  /\ exists parser,
       coro bs4 (type_ c) = Some parser
       /\ fst (parser (search_page bs4 c w) (at_extraction c w)) = inr tt.

(** The crawler at the end of a run that collected [new]. *)
Definition finished (c : GithubSearchCrawler) (new : list pyval) : GithubSearchCrawler :=
  set_session (add_items c new) (Some {| closed := true |}).

(** A page request that succeeds, a crawler for issues, and a parser
    that finds the three sample anchors on the result page. *)
Definition found : string -> option string -> response :=
  fun _ _ => {| status := 200; body := "<a>"; latency := 2 |}.

Definition issues_crawler : GithubSearchCrawler :=
  {| keywords := ["nova"; "live migration"]; type_ := "Issues"; proxies := [];
     items := []; _session := None |}.

Definition anchors_parser : BeautifulSoup :=
  {| html_parser := fun _ => Sample.detail_page;
     html_parser_only_a :=
       fun _ => [Sample.anchor_A; Sample.anchor_B; Sample.anchor_C] |}.

(** A tracked anchor whose [href] cannot be resolved: its network
    location has an opening bracket that is never closed. *)
Definition unresolvable_anchor : node :=
  Sample.anchor [("href", "//[");
                 ("data-hydro-click", "{event_type:search_result.click,rank:2}")]
                [NavigableString "Broken"].

(** The crawler with other keywords. *)
Definition with_keywords (c : GithubSearchCrawler) (kws : list string) : GithubSearchCrawler :=
  {| keywords := kws; type_ := type_ c; proxies := proxies c;
     items := items c; _session := _session c |}.

(** The characters of a search URL. *)
Definition url_char (c : ascii) : bool :=
  query_char c || mem_char c ":/?".

(** The characters of a plain path: always-safe ones, [/], [%] and [+]. *)
Definition path_char (c : ascii) : bool :=
  always_safe c || mem_char c "/%+".

(** A path of plain characters that starts with one [/]. *)
Definition rooted (href : string) : bool :=
  String.prefix "/" href && negb (String.prefix "//" href)
  && all_chars path_char href.

(** No segment of the path is [.] or [..]. *)
Definition no_dot_segments (href : string) : bool :=
  forallb (fun seg => negb (String.eqb seg "..") && negb (String.eqb seg "."))
          (split "/" href).

(** A request that does not go through a proxy, or a response. *)
Definition direct (e : event) : bool :=
  match e with
  | Sent _ _ (Some _) => false
  | _ => true
  end.

(** A value without floating-point numbers. *)
Fixpoint float_free (v : pyval) : bool :=
  match v with
  | PFloat _ => false
  | PList l => forallb float_free l
  | PDict d => forallb (fun kv => float_free (snd kv)) d
  | _ => true
  end.

(** A printable ASCII character or a line feed. *)
Definition printable (c : ascii) : bool :=
  in_range 32 126 c || Ascii.eqb c "010".

(** The content of the file at [path], if it is a file. *)
Definition content_at (w : world) (path : string) : option string :=
  match fs w !! path with
  | Some (OS.File content _) => Some content
  | _ => None
  end.

(* ===================================================================== *)
(** * The library models on sample inputs *)
(* ===================================================================== *)

(** The values below are the ones CPython 3.11 computes. *)

Example urljoin_relative :
  urljoin "https://github.com" "alice/repo" = Some "https://github.com/alice/repo".
Proof. vm_compute. reflexivity. Qed.

Example urljoin_dot_segments :
  urljoin "https://github.com" "/alice/../bob/./repo?tab=readme#top"
  = Some "https://github.com/bob/repo?tab=readme#top".
Proof. vm_compute. reflexivity. Qed.

Example urljoin_absolute :
  urljoin "https://github.com" "https://example.org/x" = Some "https://example.org/x".
Proof. vm_compute. reflexivity. Qed.

Example urljoin_network_path :
  urljoin "https://github.com" "//gist.github.com/a;b" = Some "https://gist.github.com/a;b".
Proof. vm_compute. reflexivity. Qed.

Example urljoin_replaces_last_segment :
  urljoin "https://github.com/search?q=x" "issues/1" = Some "https://github.com/issues/1".
Proof. vm_compute. reflexivity. Qed.

Example urljoin_unbalanced_bracket :
  urljoin "https://github.com" "//[" = None.
Proof. vm_compute. reflexivity. Qed.

Example urljoin_bracketed_hosts :
  urljoin "https://github.com" "//[::1]:8080/x" = Some "https://[::1]:8080/x"
  /\ urljoin "https://github.com" "//[::ffff:1.2.3.4]" = Some "https://[::ffff:1.2.3.4]"
  /\ urljoin "https://github.com" "//[v1.x]/p" = Some "https://[v1.x]/p"
  /\ urljoin "https://github.com" "//[1.2.3.4]" = None
  /\ urljoin "https://github.com" "//[github.com]/x" = None
  /\ urljoin "https://github.com" "//x[::1]" = None
  /\ urljoin "https://github.com" "/a[b]" = Some "https://github.com/a[b]".
Proof. vm_compute. repeat split. Qed.

Example quote_plus_reserved :
  quote_plus "c++ & go/rust 100%~" "+" = "c+++%26+go%2Frust+100%25~".
Proof. vm_compute. reflexivity. Qed.

Example urlencode_query :
  urlencode [("q", "machine learning+python"); ("type", "wikis")] "+"
  = "q=machine+learning+python&type=wikis".
Proof. vm_compute. reflexivity. Qed.

Example dumps_nested :
  Json.dumps (PList [PInt 1; PNone; PBool true; PList []; PDict [("n", PInt (-2))]]) 4
  = "[" +:+ String "010" "    1," +:+ String "010" "    null,"
    +:+ String "010" "    true," +:+ String "010" "    [],"
    +:+ String "010" "    {" +:+ String "010" "        "
    +:+ String Json.dquote "n" +:+ String Json.dquote ": -2"
    +:+ String "010" "    }" +:+ String "010" "]".
Proof. vm_compute. reflexivity. Qed.

Example encode_str_escapes :
  Json.encode_str (String "a" (String "009" (String "b" (String "127"
                     (String "233" (String Json.backslash EmptyString))))))
  = String Json.dquote "a" +:+ String Json.backslash "tb"
    +:+ String Json.backslash "u007f" +:+ String Json.backslash "u00e9"
    +:+ String Json.backslash (String Json.backslash (String Json.dquote EmptyString)).
Proof. vm_compute. reflexivity. Qed.

Example dirname_samples :
  OS.dirname "resources/output.json" = "resources"
  /\ OS.dirname "output.json" = EmptyString
  /\ OS.dirname "/a//b" = "/a"
  /\ OS.dirname "//x" = "//".
Proof. vm_compute. repeat split; reflexivity. Qed.

Example strip_samples :
  strip (String " " (String "031" (" a b " +:+ String "160" (String "010" EmptyString))))
  = "a b".
Proof. vm_compute. reflexivity. Qed.

Example lower_samples :
  lower (String "192" (String "201" (String "215" (String "222" (String "223" "Wikis")))))
  = String "224" (String "233" (String "215" (String "254" (String "223" "wikis")))).
Proof. vm_compute. reflexivity. Qed.

Example search_url_sample :
  search_url Sample.crawler
  = inr "https://github.com/search?q=openstack+nova+css&type=repositories".
Proof. vm_compute. reflexivity. Qed.

(* ===================================================================== *)
(** * The output writer *)
(* ===================================================================== *)

Lemma set_fs_same w : set_fs w (fs w) = w.
Proof. by destruct w. Qed.

(** What [write_items] does, by the state of its destination. *)
Lemma write_items_cases its fp c w :
  write_items its fp (c, w) =
  match fs w !! destination fp with
  | None => (inl (FileNotFoundError (missing_message fp)), (c, w))
  | Some (OS.File _ true) =>
      (inr tt, (c, set_fs w (<[destination fp := OS.File (Json.dumps (PList its) 4) true]> (fs w))))
  | Some (OS.File _ false) => (inl PermissionError, (c, w))
  | Some (OS.Dir _) => (inl IsADirectoryError, (c, w))
  end.
Proof.
  assert (Hgo : forall path,
    (w0 <- get_world ;;
     match OS.open_w (fs w0) path with
     | inl e => raise e
     | inr opened => put_world (set_fs w0 (OS.write opened path (Json.dumps (PList its) 4)))
     end) (c, w) =
    match fs w !! path with
    | None => match OS.open_w (fs w) path with
              | inl e => (inl e, (c, w))
              | inr opened =>
                  (inr tt, (c, set_fs w (OS.write opened path (Json.dumps (PList its) 4))))
              end
    | Some (OS.File _ true) =>
        (inr tt, (c, set_fs w (<[path := OS.File (Json.dumps (PList its) 4) true]> (fs w))))
    | Some (OS.File _ false) => (inl PermissionError, (c, w))
    | Some (OS.Dir _) => (inl IsADirectoryError, (c, w))
    end).
  { intros path. unfold bind, get_world, raise, put_world, OS.open_w. simpl.
    destruct (fs w !! path) as [[old [|]|d]|] eqn:E; simpl; try reflexivity.
    - unfold OS.write. rewrite lookup_insert_eq. simpl.
      by rewrite insert_insert_eq.
    - destruct (fs w !! OS.parent path) as [[?|[|]]|]; reflexivity. }
  unfold write_items, _resolve_default_path, destination, missing_message.
  unfold bind at 1. unfold bind at 1. unfold get_world at 1. simpl.
  unfold OS.path_exists.
  destruct fp as [p|]; [destruct (truthy p)|]; simpl.
  - destruct (fs w !! p) as [n|] eqn:E; simpl; [|reflexivity].
    unfold ret. rewrite Hgo, E. reflexivity.
  - destruct (fs w !! settings.OUTPUT_FILE_PATH) as [n|] eqn:E; simpl; [|reflexivity].
    unfold ret. rewrite Hgo, E. reflexivity.
  - destruct (fs w !! settings.OUTPUT_FILE_PATH) as [n|] eqn:E; simpl; [|reflexivity].
    unfold ret. rewrite Hgo, E. reflexivity.
Qed.

Lemma dumps_array its : Json.dumps (PList its) 4 = json_array_text its.
Proof. destruct its; reflexivity. Qed.

(** C10. When the destination file does not exist, [write_items] fails
    with a file-not-found error and leaves the world as it was, whatever
    the state of the parent directory; when it succeeds, the destination
    was an existing file, and afterwards it holds exactly the serialized
    items. *)
Theorem write_items_requires_existing_file its fp c w :
  (OS.path_exists (fs w) (destination fp) = false ->
   write_items its fp (c, w)
   = (inl (FileNotFoundError (missing_message fp)), (c, w)))
  /\ (fst (write_items its fp (c, w)) = inr tt ->
      exists old,
        fs w !! destination fp = Some (OS.File old true)
        /\ snd (write_items its fp (c, w))
           = (c, set_fs w (<[destination fp :=
                               OS.File (Json.dumps (PList its) 4) true]> (fs w)))).
Proof.
  rewrite write_items_cases. unfold OS.path_exists. split.
  - destruct (fs w !! destination fp); [discriminate | reflexivity].
  - destruct (fs w !! destination fp) as [[old [|]|d]|]; simpl;
      try discriminate.
    intros _. by exists old.
Qed.

Lemma write_items_requires_existing_file_witness :
  (~ parent_unusable (Sample.world_of Sample.fresh_disk Sample.unavailable)
       settings.OUTPUT_FILE_PATH)
  /\ write_items [PStr "x"] None
       (Sample.crawler, Sample.world_of Sample.fresh_disk Sample.unavailable)
     = (inl (FileNotFoundError
               "File resources/output.json does not exist. Please provide a valid path"),
        (Sample.crawler, Sample.world_of Sample.fresh_disk Sample.unavailable)).
Proof.
  split.
  - vm_compute. tauto.
  - apply (proj1 (write_items_requires_existing_file [PStr "x"] None Sample.crawler
                    (Sample.world_of Sample.fresh_disk Sample.unavailable))).
    vm_compute. reflexivity.
Defined.

(** C3, as the claim states it, fails: with the directory of the output
    file present and writable but the file itself absent, the writer
    fails. *)
Lemma write_items_parent_counterexample :
  ~ (forall its c w,
       (exists e, fst (write_items its None (c, w)) = inl e)
       <-> parent_unusable w settings.OUTPUT_FILE_PATH).
Proof.
  intros H.
  destruct (H [] Sample.crawler (Sample.world_of Sample.fresh_disk Sample.unavailable))
    as [Hfail _].
  assert (Hp : parent_unusable (Sample.world_of Sample.fresh_disk Sample.unavailable)
                 settings.OUTPUT_FILE_PATH).
  { apply Hfail. eexists. vm_compute. reflexivity. }
  vm_compute in Hp. exact Hp.
Qed.

(** C3, amended.  [write_items] succeeds exactly when its destination is
    an existing writable file; it then replaces the content of that file
    by the items as one JSON array, pretty-printed.  In every other case
    it fails and writes nothing; an absent destination is a
    file-not-found error. *)
Theorem write_items_serializes its fp c w :
  let dest := destination fp in
  let out := write_items its fp (c, w) in
  (fst out = inr tt <-> exists old, fs w !! dest = Some (OS.File old true))
  /\ (fst out = inr tt ->
      snd out = (c, set_fs w (<[dest := OS.File (json_array_text its) true]> (fs w))))
  /\ (fst out <> inr tt -> snd out = (c, w))
  /\ (fs w !! dest = None ->
      fst out = inl (FileNotFoundError (missing_message fp))).
Proof.
  cbv zeta. rewrite write_items_cases, <- dumps_array.
  destruct (fs w !! destination fp) as [[old [|]|d]|]; simpl;
    repeat split; try discriminate; try congruence; eauto.
  all: intros [old' ?]; congruence.
Qed.

Lemma write_items_serializes_witness :
  snd (write_items [PDict [("url", PStr "https://github.com/a"); ("extras", PDict [])]]
         None (Sample.crawler, Sample.world_of Sample.disk Sample.unavailable))
  = (Sample.crawler,
     set_fs (Sample.world_of Sample.disk Sample.unavailable)
       (<["resources/output.json" :=
            OS.File (json_array_text
                       [PDict [("url", PStr "https://github.com/a"); ("extras", PDict [])]])
                    true]> Sample.disk)).
Proof.
  apply (proj1 (proj2 (write_items_serializes
           [PDict [("url", PStr "https://github.com/a"); ("extras", PDict [])]]
           None Sample.crawler (Sample.world_of Sample.disk Sample.unavailable)))).
  vm_compute. reflexivity.
Defined.

(* ===================================================================== *)
(** * The session life cycle *)
(* ===================================================================== *)

Lemma setup_ready c w : setup (c, w) = (inr tt, (ready c, w)).
Proof. reflexivity. Qed.

Lemma close_open c w s :
  _session c = Some s -> closed s = false ->
  close (c, w) = (inr tt, (set_session c (Some {| closed := true |}), w)).
Proof.
  intros Hs Hc. unfold close, bind, get_self. simpl. rewrite Hs, Hc. reflexivity.
Qed.

Lemma close_closed c w s :
  _session c = Some s -> closed s = true -> close (c, w) = (inr tt, (c, w)).
Proof.
  intros Hs Hc. unfold close, bind, get_self. simpl. rewrite Hs, Hc. reflexivity.
Qed.

(** C9. After [setup], [close] succeeds and leaves the session closed;
    closing again succeeds and changes nothing, however often it is
    repeated. *)
Theorem close_idempotent c w n :
  let st := snd (setup (c, w)) in
  close st = (inr tt, (set_session c (Some {| closed := true |}), w))
  /\ close (snd (close st)) = (inr tt, snd (close st))
  /\ close_times (S n) st = (inr tt, snd (close st)).
Proof.
  cbv zeta. rewrite setup_ready. simpl snd.
  assert (H1 : close (ready c, w)
               = (inr tt, (set_session c (Some {| closed := true |}), w))).
  { by rewrite (close_open _ _ {| closed := false |}). }
  assert (H2 : close (set_session c (Some {| closed := true |}), w)
               = (inr tt, (set_session c (Some {| closed := true |}), w))).
  { by rewrite (close_closed _ _ {| closed := true |}). }
  rewrite H1. simpl snd. split; [reflexivity|]. split; [exact H2|].
  simpl close_times. unfold bind at 1. rewrite H1.
  induction n as [|k IH]; [reflexivity|].
  simpl close_times. unfold bind at 1. rewrite H2. exact IH.
Qed.

(* ===================================================================== *)
(** * Proxy selection *)
(* ===================================================================== *)

Lemma selected_all (ps : list string) :
  map (selected ps) (seq 0 (length ps))
  = map (fun p => Some ("https://" +:+ p)) ps.
Proof.
  destruct ps as [|p0 ps0]; [reflexivity|].
  set (ps := p0 :: ps0).
  transitivity (map (fun r => Some ("https://" +:+ nth r ps EmptyString))
                    (seq 0 (length ps))); [reflexivity|].
  clearbody ps. clear p0 ps0.
  induction ps as [|p ps IH]; [reflexivity|].
  simpl. f_equal. rewrite <- seq_shift, map_map. exact IH.
Qed.

Lemma filter_map_length {A B} (f : A -> B) (P : B -> bool) (l : list A) :
  length (List.filter P (map f l)) = length (List.filter (fun x => P (f x)) l).
Proof.
  induction l as [|x l IH]; [reflexivity|].
  simpl. destruct (P (f x)); simpl; congruence.
Qed.

Lemma favourable_count ps p :
  favourable ps (Some ("https://" +:+ p))
  = length (List.filter (fun q => bool_decide (q = p)) ps).
Proof.
  unfold favourable.
  pose proof (filter_map_length (selected ps)
                (fun v => bool_decide (v = Some ("https://" +:+ p)))
                (seq 0 (length ps))) as H.
  cbv beta in H. rewrite <- H, selected_all, filter_map_length.
  f_equal. apply List.filter_ext. intros q.
  apply bool_decide_ext. split; [|congruence].
  intros [= Hq]. exact Hq.
Qed.

Lemma count_in_positive (ps : list string) p :
  In p ps -> 0 < length (List.filter (fun q => bool_decide (q = p)) ps).
Proof.
  induction ps as [|q ps IH]; [intros []|].
  intros [->|Hin]; simpl.
  - rewrite bool_decide_eq_true_2 by reflexivity. simpl. lia.
  - destruct (bool_decide (q = p)); simpl; [lia | auto].
Qed.

Lemma count_nodup_one (ps : list string) p :
  List.NoDup ps -> In p ps ->
  length (List.filter (fun q => bool_decide (q = p)) ps) = 1.
Proof.
  induction 1 as [|q ps Hq Hnd IH]; [intros []|].
  intros [->|Hin]; simpl.
  - rewrite bool_decide_eq_true_2 by reflexivity. simpl. f_equal.
    clear IH Hnd. induction ps as [|x ps IH]; [reflexivity|].
    simpl. rewrite bool_decide_eq_false_2.
    + apply IH. intros H. apply Hq. by right.
    + intros ->. apply Hq. by left.
  - rewrite bool_decide_eq_false_2; [auto|].
    intros ->. contradiction.
Qed.

(** C8. With no proxy configured, [proxy] is [None] and draws nothing.
    With proxies configured, every use of [proxy] takes a fresh outcome
    [r] of the random generator, below the number of proxies, and
    returns the entry at position [r]; of the equally likely outcomes,
    as many select a given proxy as the list has copies of it: at least
    one for every configured proxy, and exactly one for each when the
    list has no repetition. *)
Theorem proxy_selection c w :
  (proxies c = [] -> proxy (c, w) = (inr None, (c, w)))
  /\ (proxies c <> [] ->
      let n := length (proxies c) in
      let r := draw w (draws w) mod n in
      r < n
      /\ fst (proxy (c, w)) = inr (Some ("https://" +:+ nth r (proxies c) EmptyString))
      /\ In (nth r (proxies c) EmptyString) (proxies c)
      /\ draws (snd (snd (proxy (c, w)))) = S (draws w)
      /\ (forall p, In p (proxies c) ->
            0 < favourable (proxies c) (Some ("https://" +:+ p)))
      /\ (List.NoDup (proxies c) ->
          forall p, In p (proxies c) ->
            favourable (proxies c) (Some ("https://" +:+ p)) = 1)).
Proof.
  split.
  - intros H. unfold proxy, bind, get_self. simpl. rewrite H. reflexivity.
  - intros Hne. cbv zeta.
    assert (Hlen : length (proxies c) <> 0) by (destruct (proxies c); [done | simpl; lia]).
    assert (Hr : draw w (draws w) mod length (proxies c) < length (proxies c))
      by (apply Nat.mod_upper_bound; exact Hlen).
    split; [exact Hr|]. split; [|split; [|split; [|split]]].
    + unfold proxy, bind, get_self. simpl.
      destruct (proxies c) as [|p ps] eqn:E; [done|]. reflexivity.
    + apply nth_In. exact Hr.
    + unfold proxy, bind, get_self. simpl.
      destruct (proxies c) as [|p ps] eqn:E; [done|]. reflexivity.
    + intros p Hp. rewrite favourable_count. by apply count_in_positive.
    + intros Hnd p Hp. rewrite favourable_count. by apply count_nodup_one.
Qed.

Lemma proxy_selection_witness :
  proxy ({| keywords := ["a"]; type_ := "Issues"; proxies := [];
            items := []; _session := None |},
         Sample.world_of Sample.disk Sample.unavailable)
  = (inr None,
     ({| keywords := ["a"]; type_ := "Issues"; proxies := [];
         items := []; _session := None |},
      Sample.world_of Sample.disk Sample.unavailable))
  /\ favourable (proxies Sample.crawler) (Some "https://13.78.125.167:8080") = 1.
Proof.
  split.
  - apply (proj1 (proxy_selection _ _)). reflexivity.
  - refine (proj2 (proj2 (proj2 (proj2 (proj2
             (proj2 (proxy_selection Sample.crawler
                       (Sample.world_of Sample.disk Sample.unavailable)) _)))))
             _ "13.78.125.167:8080" _).
    + simpl. discriminate.
    + simpl. repeat constructor; simpl; intuition discriminate.
    + simpl. tauto.
Defined.

(* ===================================================================== *)
(** * Parameter validation *)
(* ===================================================================== *)

Lemma is_valid_string v :
  JsonSchema.is_valid (JsonSchema.Schema (Some JsonSchema.TString) [] None None []) v = is_str v.
Proof. destruct v; reflexivity. Qed.

Lemma is_valid_string_array m v :
  JsonSchema.is_valid (settings.string_array m) v
  = match v with
    | PList l =>
        forallb is_str l
        && match m with Some n => Nat.leb n (length l) | None => true end
    | _ => false
    end.
Proof.
  destruct v; try reflexivity.
  cbn. rewrite andb_true_r.
  f_equal. induction l as [|v l IH]; [reflexivity|].
  simpl. rewrite IH. destruct v; reflexivity.
Qed.

Lemma is_valid_params params :
  JsonSchema.is_valid settings.PARAMS_SCHEMA params
  = match params with
    | PDict d =>
        match PyDict.get "keywords" d with
        | Some (PList l) => forallb is_str l && Nat.leb 1 (length l)
        | _ => false
        end
        && match PyDict.get "proxies" d with
           | None => true
           | Some (PList l) => forallb is_str l
           | Some _ => false
           end
        && match PyDict.get "type" d with
           | Some (PStr _) => true
           | _ => false
           end
    | _ => false
    end.
Proof.
  destruct params as [| | | | | |d]; try reflexivity.
  change (JsonSchema.is_valid settings.PARAMS_SCHEMA (PDict d)) with
    (true
     && (match PyDict.get "keywords" d with
         | Some x => JsonSchema.is_valid (settings.string_array (Some 1)) x
         | None => true
         end
         && (match PyDict.get "proxies" d with
             | Some x => JsonSchema.is_valid (settings.string_array None) x
             | None => true
             end
             && (match PyDict.get "type" d with
                 | Some x => JsonSchema.is_valid
                               (JsonSchema.Schema (Some JsonSchema.TString) [] None None []) x
                 | None => true
                 end && true)))
     && true && true
     && (PyDict.has "keywords" d && (PyDict.has "type" d && true))).
  unfold PyDict.has.
  destruct (PyDict.get "keywords" d) as [kw|];
    destruct (PyDict.get "proxies" d) as [px|];
    destruct (PyDict.get "type" d) as [ty|];
    rewrite ?is_valid_string_array, ?is_valid_string;
    try destruct kw; try destruct px; try destruct ty; simpl;
    rewrite ?andb_true_r, ?andb_false_r; reflexivity.
Qed.

Lemma mem_str_In s l : mem_str s l = true <-> In s l.
Proof.
  unfold mem_str. rewrite existsb_exists. split.
  - intros [x [Hx He]]. apply String.eqb_eq in He. by subst.
  - intros H. exists s. split; [exact H | apply String.eqb_refl].
Qed.

(** C2. A document that lacks [keywords] or [type], or whose [keywords]
    is an empty array, is rejected as a schema violation, and so is
    every document the schema rejects.  A document the schema accepts
    has a string [type]; it is accepted when that string is one of
    Repositories, Issues, Wikis and rejected with [InvalidSearchType]
    otherwise.  [InvalidSearchType] is raised only for documents the
    schema accepts. *)
Theorem validate_params_spec params :
  let ok := JsonSchema.is_valid settings.PARAMS_SCHEMA params in
  (missing "keywords" params \/ missing "type" params
   \/ subscript params "keywords" = inr (PList []) ->
   validate_params params = inl ValidationError)
  /\ (ok = false -> validate_params params = inl ValidationError)
  /\ (ok = true ->
      exists ty,
        subscript params "type" = inr (PStr ty)
        /\ (In ty ["Repositories"; "Issues"; "Wikis"] ->
            validate_params params = inr tt)
        /\ (~ In ty ["Repositories"; "Issues"; "Wikis"] ->
            validate_params params = inl (InvalidSearchType (PStr ty))))
  /\ (forall v, validate_params params = inl (InvalidSearchType v) -> ok = true).
Proof.
  cbv zeta.
  assert (Hbad : JsonSchema.is_valid settings.PARAMS_SCHEMA params = false ->
                 validate_params params = inl ValidationError).
  { intros H. unfold validate_params. rewrite H. reflexivity. }
  split; [|split; [exact Hbad|split]].
  - intros H. apply Hbad. rewrite is_valid_params.
    destruct params as [| | | | | |d]; try reflexivity.
    unfold missing, subscript in H.
    destruct H as [H|[H|H]].
    + rewrite H. reflexivity.
    + rewrite H. apply andb_false_r.
    + destruct (PyDict.get "keywords" d) as [kw|]; [|discriminate].
      injection H as ->. reflexivity.
  - intros H. unfold validate_params. rewrite H. simpl negb. cbv iota.
    rewrite is_valid_params in H.
    destruct params as [| | | | | |d]; try discriminate.
    apply andb_prop in H as [_ H]. unfold subscript.
    destruct (PyDict.get "type" d) as [[| | | |ty| |]|]; try discriminate.
    exists ty. split; [reflexivity|]. unfold py_in.
    change settings.SUPPORTED_GITHUB_TYPES with ["Repositories"; "Issues"; "Wikis"].
    split; intros Hin.
    + apply mem_str_In in Hin. rewrite Hin. reflexivity.
    + destruct (mem_str ty ["Repositories"; "Issues"; "Wikis"]) eqn:E; [|reflexivity].
      apply mem_str_In in E. contradiction.
  - intros v H. unfold validate_params in H.
    destruct (JsonSchema.is_valid settings.PARAMS_SCHEMA params); [reflexivity|].
    discriminate.
Qed.

Lemma validate_params_spec_witness :
  validate_params (PDict [("type", PStr "Issues")]) = inl ValidationError
  /\ validate_params (PDict [("keywords", PList []); ("type", PStr "Issues")])
     = inl ValidationError
  /\ validate_params (PDict [("keywords", PList [PStr "python"]); ("type", PInt 3)])
     = inl ValidationError
  /\ validate_params (PDict [("keywords", PList [PStr "python"]); ("type", PStr "Commits")])
     = inl (InvalidSearchType (PStr "Commits"))
  /\ validate_params Sample.params = inr tt.
Proof.
  split; [|split; [|split; [|split]]].
  - apply (proj1 (validate_params_spec (PDict [("type", PStr "Issues")]))).
    left. reflexivity.
  - apply (proj1 (validate_params_spec
                    (PDict [("keywords", PList []); ("type", PStr "Issues")]))).
    right. right. reflexivity.
  - apply (proj1 (proj2 (validate_params_spec
             (PDict [("keywords", PList [PStr "python"]); ("type", PInt 3)])))).
    reflexivity.
  - destruct (proj1 (proj2 (proj2 (validate_params_spec
               (PDict [("keywords", PList [PStr "python"]); ("type", PStr "Commits")]))))
               eq_refl) as [ty [Hty [_ Hbad]]].
    injection Hty as <-. apply Hbad. simpl. intuition discriminate.
  - destruct (proj1 (proj2 (proj2 (validate_params_spec Sample.params))) eq_refl)
      as [ty [Hty [Hgood _]]].
    injection Hty as <-. apply Hgood. simpl. tauto.
Defined.

(* ===================================================================== *)
(** * Strings *)
(* ===================================================================== *)

Lemma str_app_assoc a b c : (a +:+ b) +:+ c = a +:+ (b +:+ c).
Proof.
  induction a as [|x a IH]; [reflexivity|].
  change (String x ((a +:+ b) +:+ c) = String x (a +:+ (b +:+ c))).
  by rewrite IH.
Qed.

Lemma str_app_nil_r a : a +:+ EmptyString = a.
Proof.
  induction a as [|x a IH]; [reflexivity|].
  change (String x (a +:+ EmptyString) = String x a). by rewrite IH.
Qed.

Lemma replace_char_app c new a b :
  replace_char c new (a +:+ b) = replace_char c new a +:+ replace_char c new b.
Proof.
  induction a as [|x a IH]; [reflexivity|].
  simpl. rewrite IH. destruct (Ascii.eqb x c); [|reflexivity].
  symmetry. apply str_app_assoc.
Qed.

Lemma replace_char_absent c new s :
  mem_char c s = false -> replace_char c new s = s.
Proof.
  induction s as [|x s IH]; [reflexivity|].
  simpl. intros H. apply orb_false_elim in H as [Hx Hs].
  rewrite Ascii.eqb_sym, Hx, IH by exact Hs. reflexivity.
Qed.

Lemma split_absent c s : mem_char c s = false -> split c s = [s].
Proof.
  induction s as [|x s IH]; [reflexivity|].
  simpl. intros H. apply orb_false_elim in H as [Hx Hs].
  rewrite Ascii.eqb_sym, Hx, IH by exact Hs. reflexivity.
Qed.

Lemma split_at_separator c a b :
  mem_char c a = false -> split c (a +:+ String c b) = a :: split c b.
Proof.
  induction a as [|x a IH]; simpl.
  - intros _. by rewrite Ascii.eqb_refl.
  - intros H. apply orb_false_elim in H as [Hx Ha].
    rewrite Ascii.eqb_sym, Hx, IH by exact Ha. reflexivity.
Qed.

(* ===================================================================== *)
(** * The search URL *)
(* ===================================================================== *)

Ltac each_char a :=
  destruct a as [[] [] [] [] [] [] [] []].

Lemma quote_bytes_app safe a b :
  quote_bytes safe (a ++ b) = quote_bytes safe a +:+ quote_bytes safe b.
Proof.
  induction a as [|x a IH]; [reflexivity|].
  simpl. rewrite IH. symmetry. apply str_app_assoc.
Qed.

Lemma plus_char_no_space a :
  Ascii.eqb " " a = false -> quote_bytes "+" (utf8_char a) = plus_char a.
Proof. each_char a; vm_compute; (reflexivity || discriminate). Qed.

Lemma plus_char_safe a : all_chars query_char (plus_char a) = true.
Proof. each_char a; vm_compute; reflexivity. Qed.

Lemma all_chars_app p a b :
  all_chars p (a +:+ b) = all_chars p a && all_chars p b.
Proof.
  induction a as [|x a IH]; [reflexivity|].
  simpl. rewrite IH. apply andb_assoc.
Qed.

Lemma plus_encode_safe s : all_chars query_char (plus_encode s) = true.
Proof.
  induction s as [|a s IH]; [reflexivity|].
  simpl. by rewrite all_chars_app, plus_char_safe, IH.
Qed.

Lemma plus_encode_app a b : plus_encode (a +:+ b) = plus_encode a +:+ plus_encode b.
Proof.
  induction a as [|x a IH]; [reflexivity|].
  simpl. rewrite IH. symmetry. apply str_app_assoc.
Qed.

Lemma quote_plus_encode s : quote_plus s "+" = plus_encode s.
Proof.
  unfold quote_plus, quote.
  destruct (mem_char " " s) eqn:E; simpl negb; cbv iota.
  - clear E. induction s as [|a s IH]; [reflexivity|].
    simpl utf8. rewrite quote_bytes_app, replace_char_app, IH. reflexivity.
  - induction s as [|a s IH]; [reflexivity|].
    simpl in E. apply orb_false_elim in E as [Ea Es].
    simpl utf8. rewrite quote_bytes_app, (plus_char_no_space a Ea), (IH Es).
    reflexivity.
Qed.

(** Quoting the joined keywords is joining the quoted keywords: the
    separators stay as they are. *)
Lemma quote_plus_join kws :
  quote_plus (join "+" kws) "+" = join "+" (map (fun k => quote_plus k "+") kws).
Proof.
  rewrite quote_plus_encode.
  induction kws as [|k kws IH]; [reflexivity|].
  destruct kws as [|k' kws].
  - simpl. apply eq_sym, quote_plus_encode.
  - change (join "+" (k :: k' :: kws)) with (k +:+ "+" +:+ join "+" (k' :: kws)).
    change (join "+" (map (fun k => quote_plus k "+") (k :: k' :: kws)))
      with (quote_plus k "+" +:+ "+"
            +:+ join "+" (map (fun k => quote_plus k "+") (k' :: kws))).
    rewrite !plus_encode_app, IH, quote_plus_encode. reflexivity.
Qed.

Lemma all_chars_absent p c s :
  all_chars p s = true -> p c = false -> mem_char c s = false.
Proof.
  intros Hs Hc. induction s as [|x s IH]; [reflexivity|].
  simpl in *. apply andb_prop in Hs as [Hx Hs].
  rewrite (IH Hs), orb_false_r.
  destruct (Ascii.eqb_spec c x) as [->|]; [congruence | reflexivity].
Qed.

Lemma mem_char_app c a b : mem_char c (a +:+ b) = mem_char c a || mem_char c b.
Proof.
  induction a as [|x a IH]; [reflexivity|].
  simpl. rewrite IH. apply orb_assoc.
Qed.

Lemma split_once_absent c s : mem_char c s = false -> split_once c s = None.
Proof.
  induction s as [|x s IH]; [reflexivity|].
  simpl. intros H. apply orb_false_elim in H as [Hx Hs].
  rewrite Ascii.eqb_sym, Hx, (IH Hs). reflexivity.
Qed.

(** Splitting a relative reference [search?q=...] whose query consists
    of query characters. *)
Lemma urlsplit_search rest :
  all_chars query_char rest = true ->
  urlsplit ("search?q=" +:+ rest) "https"
  = Some (mkSplit "https" EmptyString "search" ("q=" +:+ rest) EmptyString).
Proof.
  intros H.
  assert (Habs : forall c, query_char c = false -> negb (mem_char c "search?q=") = true ->
                 mem_char c ("search?q=" +:+ rest) = false).
  { intros c Hc Hp. apply negb_true_iff in Hp.
    by rewrite mem_char_app, Hp, (all_chars_absent _ c _ H Hc). }
  unfold urlsplit.
  change (lstrip_if c0_or_space ("search?q=" +:+ rest)) with ("search?q=" +:+ rest).
  unfold remove_unsafe.
  rewrite (replace_char_absent "009" _ ("search?q=" +:+ rest))
    by (apply Habs; reflexivity).
  rewrite (replace_char_absent "013" _ ("search?q=" +:+ rest))
    by (apply Habs; reflexivity).
  rewrite (replace_char_absent "010" _ ("search?q=" +:+ rest))
    by (apply Habs; reflexivity).
  unfold split_scheme.
  rewrite (split_once_absent ":") by (apply Habs; reflexivity).
  change (String.prefix "//" ("search?q=" +:+ rest)) with false.
  cbv beta iota zeta.
  rewrite (split_once_absent "#") by (apply Habs; reflexivity).
  reflexivity.
Qed.

Lemma urlparse_search rest :
  all_chars query_char rest = true ->
  urlparse ("search?q=" +:+ rest) "https"
  = Some (mkParse "https" EmptyString "search" EmptyString ("q=" +:+ rest)
                  EmptyString).
Proof.
  intros H. unfold urlparse. rewrite (urlsplit_search rest H). reflexivity.
Qed.

Lemma urljoin_search rest :
  all_chars query_char rest = true ->
  urljoin settings.HOST ("search?q=" +:+ rest)
  = Some ("https://github.com/search?q=" +:+ rest).
Proof.
  intros H. unfold urljoin.
  change (truthy settings.HOST) with true.
  change (truthy ("search?q=" +:+ rest)) with true.
  change (urlparse settings.HOST EmptyString)
    with (Some (mkParse "https" "github.com" EmptyString EmptyString EmptyString
                        EmptyString)).
  cbv beta iota zeta delta [pr_scheme negb].
  rewrite (urlparse_search rest H).
  reflexivity.
Qed.

(** [search_url] never raises: the reference it builds has no network
    location, whatever the keywords and the type are. *)
Lemma search_url_encoded c :
  search_url c
  = inr ("https://github.com/search?q="
         +:+ plus_encode (join "+" (keywords c))
         +:+ "&type=" +:+ plus_encode (lower (type_ c))).
Proof.
  unfold search_url, urlencode. cbn [map fst snd].
  change (quote_plus "q" "+") with "q". change (quote_plus "type" "+") with "type".
  rewrite !quote_plus_encode.
  set (q := plus_encode (join "+" (keywords c))).
  set (t := plus_encode (lower (type_ c))).
  change ("search?" +:+ join "&" ["q" +:+ "=" +:+ q; "type" +:+ "=" +:+ t])
    with ("search?q=" +:+ (q +:+ ("&type=" +:+ t))).
  rewrite urljoin_search.
  - reflexivity.
  - subst q t. rewrite !all_chars_app, !plus_encode_safe. reflexivity.
Qed.

Lemma search_url_returns c : search_url c = inr (search_address c).
Proof. unfold search_address. by rewrite search_url_encoded. Qed.

Lemma init_type params c :
  init params = inr c -> In (type_ c) settings.SUPPORTED_GITHUB_TYPES.
Proof.
  unfold init, validate_params.
  destruct (negb (JsonSchema.is_valid settings.PARAMS_SCHEMA params)); [discriminate|].
  destruct (subscript params "type") as [e|ty]; [discriminate|].
  destruct (negb (py_in ty settings.SUPPORTED_GITHUB_TYPES)) eqn:E; [discriminate|].
  apply negb_false_iff in E.
  destruct (subscript params "keywords") as [e|kw]; [discriminate|].
  destruct ty as [| | | |s| |]; try discriminate.
  apply mem_str_In in E. simpl as_str.
  destruct (as_str_list kw); [|discriminate].
  destruct (as_str_list _); [|discriminate].
  intros [= <-]. exact E.
Qed.

(** The search URL of a crawler whose type is supported. *)
Lemma search_url_supported c :
  In (type_ c) settings.SUPPORTED_GITHUB_TYPES ->
  search_url c
  = inr ("https://github.com/search?q="
         +:+ join "+" (map (fun k => quote_plus k "+") (keywords c))
         +:+ "&type=" +:+ lower (type_ c)).
Proof.
  intros Hty. rewrite <- quote_plus_join, search_url_encoded, quote_plus_encode.
  simpl in Hty. destruct Hty as [<-|[<-|[<-|[]]]]; reflexivity.
Qed.

(** C6. For a validated configuration, the search URL is the host
    followed by [/search?q=], the keywords each percent-encoded (a space
    becomes [+], a [+] stays) and joined by [+], and [&type=] with the
    type in lower case.  It depends on the keywords and the type only:
    crawlers that agree on them have the same search URL. *)
Theorem search_url_spec params c :
  init params = inr c ->
  search_url c
  = inr (settings.HOST +:+ "/search?q="
         +:+ join "+" (map (fun k => quote_plus k "+") (keywords c))
         +:+ "&type=" +:+ lower (type_ c))
  /\ (exists joined,
        urljoin settings.HOST
          ("search?" +:+ urlencode [("q", join "+" (keywords c));
                                    ("type", lower (type_ c))] "+")
        = Some joined
        /\ search_url c = inr joined)
  /\ (forall c', keywords c' = keywords c -> type_ c' = type_ c ->
                 search_url c' = search_url c).
Proof.
  intros Hinit. split; [|split].
  - rewrite (search_url_supported c (init_type params c Hinit)). reflexivity.
  - pose proof (search_url_returns c) as Hr. unfold search_url in Hr |- *.
    destruct (urljoin _ _) as [joined|]; [|discriminate].
    by exists joined.
  - intros c' Hk Ht. unfold search_url. by rewrite Hk, Ht.
Qed.

Lemma search_url_spec_witness :
  search_url Sample.crawler
  = inr "https://github.com/search?q=openstack+nova+css&type=repositories".
Proof.
  rewrite (proj1 (search_url_spec Sample.params Sample.crawler eq_refl)).
  reflexivity.
Defined.

(* ===================================================================== *)
(** * The search request *)
(* ===================================================================== *)

Lemma proxy_run c w : proxy (c, w) = (inr (first_proxy c w), (c, at_search c w)).
Proof.
  unfold proxy, first_proxy, at_search, bind, get_self. simpl.
  destruct (proxies c); reflexivity.
Qed.

Lemma session_get_open c w u p s :
  _session c = Some s -> closed s = false ->
  session_get u p (c, w) = (inr (server w u p), (c, after_get w u p)).
Proof.
  intros Hs Hc. unfold session_get, bind, get_self. simpl. rewrite Hs.
  unfold Transport.get. rewrite Hc. reflexivity.
Qed.

Lemma at_search_server c w : server (at_search c w) = server w.
Proof. unfold at_search. by destruct (proxies c). Qed.

Lemma after_search_fs c w : fs (after_search c w) = fs w.
Proof. unfold after_search, at_search. by destruct (proxies c). Qed.

(** [process], by the status of the response to the search request. *)
Lemma process_cases bs4 c w :
  process bs4 (c, w) =
  if (status (search_response c w) =? 200)%Z
  then on_success bs4 c (body (search_response c w)) (ready c, after_search c w)
  else (inl (RequestProcessError
               ("Bad response status: " +:+ of_Z (status (search_response c w)))),
        (ready c, after_search c w)).
Proof.
  unfold process. unfold bind at 1. rewrite setup_ready.
  unfold bind at 1. unfold get_self at 1. simpl fst.
  change (search_url (ready c)) with (search_url c).
  unfold bind at 1. unfold lift at 1. rewrite search_url_returns.
  unfold bind at 1. rewrite proxy_run.
  unfold bind at 1.
  rewrite (session_get_open _ _ _ _ {| closed := false |}) by reflexivity.
  rewrite at_search_server.
  change (first_proxy (ready c) w) with (first_proxy c w).
  change (at_search (ready c) w) with (at_search c w).
  change (type_ (ready c)) with (type_ c).
  fold (search_response c w). fold (after_search c w).
  unfold on_success.
  destruct (status (search_response c w) =? 200)%Z; reflexivity.
Qed.

(** ** No other step raises [RequestProcessError] *)

Lemma calm_inr {A} (a : A) : calm (inr a).
Proof. intros msg H. discriminate. Qed.

Lemma calm_inl {A B} (e : exn) : @calm A (inl e) -> @calm B (inl e).
Proof. intros H msg E. apply (H msg). congruence. Qed.

Lemma quiet_ret {A} (a : A) : quiet (ret a).
Proof. intros st. apply calm_inr. Qed.

Lemma quiet_lift {A} (r : exn + A) : calm r -> quiet (lift r).
Proof. intros H st. exact H. Qed.

Lemma quiet_bind {A B} (m : M A) (k : A -> M B) :
  quiet m -> (forall a, quiet (k a)) -> quiet (bind m k).
Proof.
  intros Hm Hk st. unfold bind.
  specialize (Hm st). destruct (m st) as [[e|a] st'].
  - exact (calm_inl e Hm).
  - apply Hk.
Qed.

Lemma quiet_for_each {A} (body : A -> M unit) xs :
  (forall x, quiet (body x)) -> quiet (for_each xs body).
Proof.
  intros Hb. induction xs as [|x xs IH]; simpl.
  - apply quiet_ret.
  - apply quiet_bind; [apply Hb | intros _; exact IH].
Qed.

Lemma calm_filter_exn {A} (cond : A -> exn + bool) xs :
  (forall x, calm (cond x)) -> calm (filter_exn cond xs).
Proof.
  intros Hc. induction xs as [|x xs IH]; simpl; [apply calm_inr|].
  specialize (Hc x). destruct (cond x) as [e|b]; [exact (calm_inl e Hc)|].
  destruct (filter_exn cond xs) as [e|ys]; [exact IH | apply calm_inr].
Qed.

Lemma calm_map_exn {A B} (f : A -> exn + B) xs :
  (forall x, calm (f x)) -> calm (map_exn f xs).
Proof.
  intros Hc. induction xs as [|x xs IH]; simpl; [apply calm_inr|].
  specialize (Hc x). destruct (f x) as [e|b]; [exact (calm_inl e Hc)|].
  destruct (map_exn f xs) as [e|ys]; [exact IH | apply calm_inr].
Qed.

Lemma calm_get_item n k : calm (get_item n k).
Proof.
  destruct n as [|name attrs cs]; simpl; [discriminate|].
  destruct (attrs !! k); discriminate.
Qed.

Lemma calm_match_condition a : calm (match_condition a).
Proof.
  unfold match_condition.
  destruct a as [|name attrs cs]; simpl; [discriminate|].
  destruct (attrs !! "href"); [|discriminate].
  destruct (attrs !! "data-hydro-click"); discriminate.
Qed.

Lemma calm_item_of_link a : calm (item_of_link a).
Proof.
  unfold item_of_link. pose proof (calm_get_item a "href") as H.
  destruct (get_item a "href") as [e|h]; [exact (calm_inl e H)|].
  unfold new_GithubSearchItem. destruct (urljoin _ _); [apply calm_inr | discriminate].
Qed.

Lemma calm_get_extras bs4 page : calm (get_extras bs4 page).
Proof.
  unfold get_extras.
  destruct (find _ _); [|discriminate].
  match goal with |- calm match ?f with _ => _ end =>
    assert (Hf : calm f); [|destruct f as [e|els]; [exact (calm_inl e Hf)|]] end.
  { apply calm_filter_exn. intros x.
    pose proof (calm_get_item x "data-ga-click") as H.
    destruct (get_item x "data-ga-click") as [e|v];
      [exact (calm_inl e H) | apply calm_inr]. }
  match goal with |- calm match ?f with _ => _ end =>
    assert (Hm : calm f);
      [|destruct f as [e|ps]; [exact (calm_inl e Hm) | apply calm_inr]] end.
  apply calm_map_exn. intros x. unfold key_value.
  destruct (split _ _) as [|k [|v [|? ?]]]; discriminate.
Qed.

Lemma quiet_session_get u p : quiet (session_get u p).
Proof.
  intros [c w]. unfold session_get, bind, get_self. simpl.
  destruct (_session c) as [s|]; [|discriminate].
  unfold Transport.get. destruct (closed s); discriminate.
Qed.

Lemma quiet_items_append item : quiet (items_append item).
Proof. intros st. apply calm_inr. Qed.

Lemma quiet_hydro_click data : quiet (parse_data_hydro_click_elements data).
Proof.
  apply quiet_bind; [apply quiet_lift, calm_filter_exn, calm_match_condition|].
  intros links. apply quiet_for_each. intros a.
  apply quiet_bind; [apply quiet_lift, calm_item_of_link|].
  intros item. apply quiet_items_append.
Qed.

Lemma quiet_repositories bs4 data : quiet (parse_repositories bs4 data).
Proof.
  apply quiet_for_each. intros a.
  apply quiet_bind; [apply quiet_lift, calm_item_of_link|]. intros item.
  apply quiet_bind; [apply quiet_session_get|]. intros r.
  apply quiet_bind; [apply quiet_lift, calm_get_extras|]. intros e.
  apply quiet_items_append.
Qed.

Lemma quiet_close : quiet close.
Proof.
  intros [c w]. unfold close, bind, get_self. simpl.
  destruct (_session c) as [s|]; [|discriminate].
  destruct (closed s); discriminate.
Qed.

Lemma quiet_write_items its fp : quiet (write_items its fp).
Proof.
  intros [c w]. rewrite write_items_cases.
  destruct (fs w !! destination fp) as [[old [|]|d]|]; discriminate.
Qed.

Lemma quiet_on_success bs4 c page : quiet (on_success bs4 c page).
Proof.
  unfold on_success. apply quiet_bind.
  - unfold coro.
    destruct (String.eqb (type_ c) "Repositories"); [apply quiet_repositories|].
    destruct (String.eqb (type_ c) "Issues"); [apply quiet_hydro_click|].
    destruct (String.eqb (type_ c) "Wikis"); [apply quiet_hydro_click|].
    intros st. discriminate.
  - intros _. apply quiet_bind; [apply quiet_close|].
    intros _. apply quiet_bind; [intros st; apply calm_inr|].
    intros self. apply quiet_write_items.
Qed.

(** C1. When the status of the response to the search request is not
    200, [process] raises [RequestProcessError] with a message that
    shows the status; the run stops there: the items and the file system
    are as before, so no output is written.  When the status is 200, the
    body of the response is parsed and handed to the extractor of the
    search type, after which the session is closed and the items are
    written; no [RequestProcessError] is raised then. *)
Theorem process_status bs4 c w :
  let r := search_response c w in
  (status r <> 200%Z ->
   process bs4 (c, w)
   = (inl (RequestProcessError ("Bad response status: " +:+ of_Z (status r))),
      (ready c, after_search c w))
   /\ fs (snd (snd (process bs4 (c, w)))) = fs w
   /\ items (fst (snd (process bs4 (c, w)))) = items c)
  /\ (status r = 200%Z ->
      process bs4 (c, w) = on_success bs4 c (body r) (ready c, after_search c w))
  /\ (forall msg,
        fst (process bs4 (c, w)) = inl (RequestProcessError msg) ->
        status r <> 200%Z).
Proof.
  cbv zeta. rewrite process_cases. split; [|split].
  - intros H. apply Z.eqb_neq in H. rewrite H. simpl.
    split; [reflexivity|]. split; [apply after_search_fs | reflexivity].
  - intros H. apply Z.eqb_eq in H. rewrite H. reflexivity.
  - intros msg. destruct (status (search_response c w) =? 200)%Z eqn:E.
    + intros H. exfalso. exact (quiet_on_success bs4 c _ _ msg H).
    + intros _. by apply Z.eqb_neq.
Qed.

Lemma process_status_witness :
  fst (process Sample.no_parser
         (Sample.crawler, Sample.world_of Sample.fresh_disk Sample.unavailable))
  = inl (RequestProcessError "Bad response status: 503")
  /\ fs (snd (snd (process Sample.no_parser
         (Sample.crawler, Sample.world_of Sample.fresh_disk Sample.unavailable))))
     = Sample.fresh_disk.
Proof.
  destruct (proj1 (process_status Sample.no_parser Sample.crawler
                     (Sample.world_of Sample.fresh_disk Sample.unavailable)))
    as [H1 [H2 _]].
  - vm_compute. discriminate.
  - split; [rewrite H1; reflexivity | exact H2].
Defined.

(* ===================================================================== *)
(** * Extraction of issues and wikis *)
(* ===================================================================== *)

Lemma add_items_nil c : add_items c [] = c.
Proof. destruct c. unfold add_items. simpl. by rewrite app_nil_r. Qed.

Lemma add_items_cons c x l : add_items (append_item c x) l = add_items c (x :: l).
Proof. unfold add_items, append_item. simpl. by rewrite <- app_assoc. Qed.

Lemma match_condition_tag a : is_tag a -> match_condition a = inr (tracked a).
Proof.
  destruct a as [|name attrs cs]; [intros []|]. intros _.
  unfold match_condition, tracked. simpl.
  destruct (attrs !! "href"); [|reflexivity].
  destruct (attrs !! "data-hydro-click"); reflexivity.
Qed.

Lemma filter_match_condition data :
  Forall is_tag data ->
  filter_exn match_condition data = inr (List.filter tracked data).
Proof.
  induction 1 as [|a data Ha _ IH]; [reflexivity|].
  simpl. rewrite (match_condition_tag a Ha), IH. reflexivity.
Qed.

Lemma resolved_item a :
  resolves a = true ->
  new_GithubSearchItem (href_of a) = inr {| url := link_url a; extras := [] |}.
Proof.
  unfold resolves, new_GithubSearchItem, link_url.
  destruct (urljoin settings.HOST (href_of a)); [reflexivity | discriminate].
Qed.

Lemma unresolved_item a :
  resolves a = false -> new_GithubSearchItem (href_of a) = inl ValueError.
Proof.
  unfold resolves, new_GithubSearchItem.
  destruct (urljoin settings.HOST (href_of a)); [discriminate | reflexivity].
Qed.

Lemma tracked_item a :
  tracked a = true -> item_of_link a = new_GithubSearchItem (href_of a).
Proof.
  destruct a as [|name attrs cs]; [discriminate|].
  unfold tracked, item_of_link, href_of. simpl.
  destruct (attrs !! "href"); [reflexivity | discriminate].
Qed.

(** The loop of the extractor over links that all resolve, and over
    links of which one does not. *)
Lemma append_links links : forall c w,
  Forall (fun a => tracked a = true) links ->
  Forall (fun a => resolves a = true) links ->
  for_each links (fun link =>
      item <- lift (item_of_link link) ;; items_append item) (c, w)
  = (inr tt, (add_items c (map plain_item links), w)).
Proof.
  induction links as [|a links IH]; intros c w Hall Hres.
  - simpl. by rewrite add_items_nil.
  - apply Forall_cons_1 in Hall as [Ha Hall].
    apply Forall_cons_1 in Hres as [Hr Hres].
    simpl for_each. unfold bind at 1. unfold bind at 1. unfold lift at 1.
    rewrite (tracked_item a Ha), (resolved_item a Hr).
    unfold items_append at 1. unfold bind at 1. unfold get_self, put_self. simpl fst. simpl snd.
    rewrite IH by assumption.
    rewrite add_items_cons. reflexivity.
Qed.

Lemma append_links_stop pre a post : forall c w,
  Forall (fun a => tracked a = true) (pre ++ a :: post) ->
  Forall (fun a => resolves a = true) pre ->
  resolves a = false ->
  for_each (pre ++ a :: post) (fun link =>
      item <- lift (item_of_link link) ;; items_append item) (c, w)
  = (inl ValueError, (add_items c (map plain_item pre), w)).
Proof.
  induction pre as [|b pre IH]; intros c w Hall Hres Ha.
  - apply Forall_cons_1 in Hall as [Ht _].
    simpl for_each. unfold bind at 1. unfold bind at 1. unfold lift at 1.
    rewrite (tracked_item a Ht), (unresolved_item a Ha).
    simpl. by rewrite add_items_nil.
  - change ((b :: pre) ++ a :: post) with (b :: (pre ++ a :: post)) in Hall |- *.
    apply Forall_cons_1 in Hall as [Hb Hall].
    apply Forall_cons_1 in Hres as [Hr Hres].
    simpl for_each. unfold bind at 1. unfold bind at 1. unfold lift at 1.
    rewrite (tracked_item b Hb), (resolved_item b Hr).
    unfold items_append at 1. unfold bind at 1. unfold get_self, put_self. simpl fst. simpl snd.
    rewrite IH by assumption.
    rewrite add_items_cons. reflexivity.
Qed.

Lemma filter_tracked data :
  Forall (fun a => tracked a = true) (List.filter tracked data).
Proof.
  apply List.Forall_forall. intros a Ha.
  apply List.filter_In in Ha. tauto.
Qed.



(* ===================================================================== *)
(** * Extraction of repositories *)
(* ===================================================================== *)

Lemma parse_repositories_loop bs4 data :
  parse_repositories bs4 data
  = for_each (repository_links data) (repository_step bs4).
Proof. reflexivity. Qed.

Lemma find_all_matches doc filters n :
  In n (find_all doc filters) ->
  forall k w, In (k, w) filters -> attr_matches n k w = true.
Proof.
  unfold find_all. intros Hn k w Hk.
  apply List.filter_In in Hn as [_ Hn].
  rewrite forallb_forall in Hn. exact (Hn (k, w) Hk).
Qed.

Lemma attr_matches_present n k :
  attr_matches n k Present = true ->
  exists name attrs cs v, n = Tag name attrs cs /\ attrs !! k = Some v.
Proof.
  destruct n as [|name attrs cs]; [discriminate|]. simpl.
  destruct (attrs !! k) as [v|] eqn:E; [|discriminate].
  intros _. by exists name, attrs, cs, v.
Qed.

Lemma repository_links_href data :
  Forall (fun a => has_href a = true) (repository_links data).
Proof.
  apply List.Forall_forall. intros a Ha.
  destruct (attr_matches_present a "href") as (name & attrs & cs & v & -> & Hv).
  - apply (find_all_matches _ _ _ Ha). simpl. tauto.
  - simpl. by rewrite Hv.
Qed.

Lemma has_href_item a :
  has_href a = true -> item_of_link a = new_GithubSearchItem (href_of a).
Proof.
  destruct a as [|name attrs cs]; [discriminate|].
  unfold has_href, item_of_link, href_of. simpl.
  destruct (attrs !! "href"); [reflexivity | discriminate].
Qed.

(** One turn of the loop on an open session: the page of the link is
    requested and awaited, then its extras are extracted; the item is
    appended unless the extraction raises. *)
Lemma repository_step_run bs4 a c w :
  has_href a = true -> resolves a = true ->
  _session c = Some {| closed := false |} ->
  repository_step bs4 a (c, w)
  = match get_extras bs4 (body (server w (link_url a) None)) with
    | inl e => (inl e, (c, after_get w (link_url a) None))
    | inr extras =>
        (inr tt, (append_item c (rich_item a extras), after_get w (link_url a) None))
    end.
Proof.
  intros Ha Hr Hs. unfold repository_step.
  unfold bind at 1. unfold lift at 1.
  rewrite (has_href_item a Ha), (resolved_item a Hr). cbn [url].
  unfold bind at 1.
  rewrite (session_get_open c w (link_url a) None {| closed := false |} Hs eq_refl).
  unfold bind at 1. unfold lift at 1.
  destruct (get_extras bs4 (body (server w (link_url a) None))) as [e|extras];
    reflexivity.
Qed.

(** One turn of the loop for a link that does not resolve: the item
    cannot be built, and the turn stops before the session is used. *)
Lemma repository_step_unresolved bs4 a c w :
  has_href a = true -> resolves a = false ->
  repository_step bs4 a (c, w) = (inl ValueError, (c, w)).
Proof.
  intros Ha Hr. unfold repository_step.
  unfold bind at 1. unfold lift at 1.
  by rewrite (has_href_item a Ha), (unresolved_item a Hr).
Qed.

(** The loop, on an open session.  It ends after [k] items were
    appended, in the order of the links; the requests were made one at a
    time, in the order of the links; the loop either went through all
    the links, or stopped at link [k]: before the request when the link
    does not resolve, after it when the extraction raised. *)
Lemma repository_loop bs4 links : forall c w,
  Forall (fun a => has_href a = true) links ->
  _session c = Some {| closed := false |} ->
  exists k new,
    let out := for_each links (repository_step bs4) (c, w) in
    fst (snd out) = add_items c new
    /\ map item_url new = map (fun a => Some (link_url a)) (firstn k links)
    /\ Forall (fun a => resolves a = true) (firstn k links)
    /\ fs (snd (snd out)) = fs w
    /\ ((fst out = inr tt /\ k = length links
         /\ trace (snd (snd out))
            = trace w ++ sequential_trace (server w) (clock w) (map link_url links))
        \/ (exists a,
              nth_error links k = Some a
              /\ ((resolves a = false /\ fst out = inl ValueError
                   /\ trace (snd (snd out))
                      = trace w ++ sequential_trace (server w) (clock w)
                                     (map link_url (firstn k links)))
                  \/ (resolves a = true /\ (exists e, fst out = inl e)
                      /\ trace (snd (snd out))
                         = trace w ++ sequential_trace (server w) (clock w)
                                        (map link_url (firstn (S k) links)))))).
Proof.
  induction links as [|a links IH]; intros c w Hall Hs.
  - exists 0, []. simpl. rewrite add_items_nil, app_nil_r. auto 10.
  - apply Forall_cons_1 in Hall as [Ha Hall].
    simpl for_each. unfold bind at 1.
    destruct (resolves a) eqn:Hr.
    2:{ rewrite (repository_step_unresolved bs4 a c w Ha Hr).
        exists 0, []. simpl. rewrite add_items_nil, app_nil_r.
        split; [reflexivity|]. split; [reflexivity|]. split; [constructor|].
        split; [reflexivity|].
        right. exists a. split; [reflexivity|]. left. auto. }
    rewrite (repository_step_run bs4 a c w Ha Hr Hs).
    destruct (get_extras bs4 (body (server w (link_url a) None))) as [e|extras].
    + exists 0, []. simpl. rewrite add_items_nil.
      split; [reflexivity|]. split; [reflexivity|]. split; [constructor|].
      split; [reflexivity|].
      right. exists a. split; [reflexivity|]. right.
      split; [exact Hr|]. split; [by exists e | reflexivity].
    + destruct (IH (append_item c (rich_item a extras))
                   (after_get w (link_url a) None) Hall Hs)
        as (k & new & Hitems & Hurls & Hres & Hfs & Htrace).
      exists (S k), (rich_item a extras :: new). cbv zeta in *.
      split; [by rewrite Hitems, add_items_cons|].
      split; [simpl; by rewrite Hurls|].
      split; [simpl; by constructor|].
      split; [exact Hfs|].
      destruct Htrace as [(Hok & Hk & Ht)|(b & Hb & Hstop)]; [left | right].
      * split; [exact Hok|]. split; [simpl; by rewrite Hk|].
        rewrite Ht. simpl. by rewrite <- app_assoc.
      * exists b. split; [exact Hb|].
        destruct Hstop as [(Hrb & Herr & Ht)|(Hrb & Herr & Ht)]; [left | right].
        -- split; [exact Hrb|]. split; [exact Herr|].
           rewrite Ht. simpl. by rewrite <- app_assoc.
        -- split; [exact Hrb|]. split; [exact Herr|].
           rewrite Ht. simpl. by rewrite <- app_assoc.
Qed.




(** ** The extras of one repository *)

(** A language element in the expected form yields its language and its
    percentage. *)
Lemma stat_text_parses language percent :
  plain language = true -> plain percent = true ->
  key_value (split "010" (replace_char "%" "" (stat_text language percent)))
  = inr (language, PStr percent).
Proof.
  unfold plain, stat_text. intros Hl Hp.
  apply andb_prop in Hl as [Hl1 Hl2]. apply andb_prop in Hp as [Hp1 Hp2].
  apply negb_true_iff in Hl1, Hl2, Hp1, Hp2.
  change (language +:+ String "010" (percent +:+ "%"))
    with (language +:+ (String "010" EmptyString +:+ (percent +:+ "%"))).
  rewrite !replace_char_app.
  rewrite (replace_char_absent _ _ language Hl2), (replace_char_absent _ _ percent Hp2).
  change (replace_char "%" "" (String "010" EmptyString)) with (String "010" EmptyString).
  change (replace_char "%" "" "%") with EmptyString.
  rewrite str_app_nil_r.
  change (language +:+ (String "010" EmptyString +:+ percent))
    with (language +:+ String "010" percent).
  rewrite (split_at_separator _ _ _ Hl1), (split_absent _ _ Hp1).
  reflexivity.
Qed.

(** The form matters: a single element that holds a whole table, its
    columns separated by a tab and its rows by a line feed, is read as
    one pair. *)
Example table_in_one_element :
  key_value (split "010" (replace_char "%" ""
     (strip ("Go" +:+ String "009" "80%" +:+ String "010" "Python"
             +:+ String "009" "20%"))))
  = inr ("Go" +:+ String "009" "80", PStr ("Python" +:+ String "009" "20")).
Proof. vm_compute. reflexivity. Qed.

Lemma set_fresh {A} k (v : A) d :
  ~ In k (map fst d) -> PyDict.set k v d = d ++ [(k, v)].
Proof.
  induction d as [|[k' v'] d IH]; [reflexivity|].
  simpl. intros H. destruct (String.eqb_spec k k') as [->|Hne].
  - exfalso. apply H. by left.
  - rewrite IH; [reflexivity|]. intros Hin. apply H. by right.
Qed.

Lemma of_pairs_nodup {A} (pairs : list (string * A)) :
  List.NoDup (map fst pairs) -> PyDict.of_pairs pairs = pairs.
Proof.
  unfold PyDict.of_pairs.
  enough (H : forall acc,
             List.NoDup (map fst (acc ++ pairs)) ->
             fold_left (fun d kv => PyDict.set (fst kv) (snd kv) d) pairs acc
             = acc ++ pairs) by (exact (H [])).
  induction pairs as [|[k v] pairs IH]; intros acc Hnd.
  - simpl. by rewrite app_nil_r.
  - simpl. rewrite set_fresh.
    + rewrite IH; rewrite <- app_assoc; [reflexivity | exact Hnd].
    + rewrite map_app in Hnd. apply List.NoDup_remove_2 in Hnd.
      intros Hin. apply Hnd. apply List.in_or_app. by left.
Qed.

Lemma map_exn_all {A B} (f : A -> exn + B) (g : A -> B) (xs : list A) :
  Forall (fun x => f x = inr (g x)) xs -> map_exn f xs = inr (map g xs).
Proof.
  induction 1 as [|x xs Hx _ IH]; [reflexivity|].
  simpl. rewrite Hx, IH. reflexivity.
Qed.

Lemma map_exn_map {A B C} (f : B -> exn + C) (g : A -> B) (xs : list A) :
  map_exn (fun x => f (g x)) xs = map_exn f (map g xs).
Proof.
  induction xs as [|x xs IH]; [reflexivity|]. simpl. by rewrite IH.
Qed.

Lemma language_filter doc :
  filter_exn
    (fun lang =>
       match get_item lang "data-ga-click" with
       | inl e => inl e
       | inr v => inr (contains "stats" v)
       end)
    (find_all doc [("data-ga-click", Present)])
  = inr (language_elements doc).
Proof.
  unfold language_elements.
  assert (H : Forall (fun n => attr_matches n "data-ga-click" Present = true)
                     (find_all doc [("data-ga-click", Present)])).
  { apply List.Forall_forall. intros n Hn.
    apply (find_all_matches _ _ _ Hn). simpl. tauto. }
  induction H as [|n l Hn _ IH]; [reflexivity|].
  destruct (attr_matches_present _ _ Hn) as (name & attrs & cs & v & -> & Hv).
  simpl. rewrite Hv, IH. reflexivity.
Qed.

(** C5. On an open session, for a result page with a single link,
    which [urljoin] resolves against the host, and whose repository page
    shows an author and language elements of the form
    [<Language>\n<Percent>%], the extractor appends one item: its
    [owner] is the text of the author element and its [language_stats]
    maps each language to its percentage.  For the author alice and the
    statistics Go 80% and Python 20% this is the item with owner alice
    and the mapping from Go to 80 and from Python to 20. *)
Theorem repository_extras bs4 data c w a author owner stats :
  _session c = Some {| closed := false |} ->
  repository_links data = [a] ->
  resolves a = true ->
  let doc := html_parser bs4 (body (server w (link_url a) None)) in
  find doc [("rel", Equal "author")] = Some author ->
  strip (text author) = owner ->
  map (fun stat => strip (text stat)) (language_elements doc)
  = map (fun lp => stat_text (fst lp) (snd lp)) stats ->
  Forall (fun lp => plain (fst lp) = true /\ plain (snd lp) = true) stats ->
  List.NoDup (map fst stats) ->
  parse_repositories bs4 data (c, w)
  = (inr tt,
     (append_item c
        (rich_item a
           [("owner", PStr owner);
            ("language_stats", PDict (map (fun lp => (fst lp, PStr (snd lp))) stats))]),
      after_get w (link_url a) None)).
Proof.
  intros Hs Hlinks Hres doc Hauthor Howner Hstats Hplain Hnd.
  rewrite parse_repositories_loop, Hlinks.
  simpl for_each. unfold bind at 1.
  assert (Ha : has_href a = true).
  { pose proof (repository_links_href data) as H. rewrite Hlinks in H.
    by apply Forall_cons_1 in H as [H _]. }
  rewrite (repository_step_run bs4 a c w Ha Hres Hs).
  assert (Hex : get_extras bs4 (body (server w (link_url a) None))
                = inr [("owner", PStr owner);
                       ("language_stats",
                        PDict (map (fun lp => (fst lp, PStr (snd lp))) stats))]).
  { unfold get_extras. fold doc. rewrite Hauthor, language_filter, Howner.
    rewrite (map_exn_map
               (fun s => key_value (split "010" (replace_char "%" "" s)))
               (fun stat => strip (text stat))).
    rewrite Hstats, <- map_exn_map.
    rewrite (map_exn_all _ (fun lp => (fst lp, PStr (snd lp)))).
    - rewrite of_pairs_nodup; [reflexivity|].
      rewrite map_map. exact Hnd.
    - apply List.Forall_forall. intros lp Hlp.
      rewrite List.Forall_forall in Hplain.
      destruct (Hplain lp Hlp) as [Hl Hp].
      by apply stat_text_parses. }
  rewrite Hex. reflexivity.
Qed.

Lemma repository_extras_witness :
  parse_repositories Sample.detail_parser Sample.one_link
    (ready Sample.crawler, Sample.world_of Sample.disk Sample.slow_first)
  = (inr tt,
     (append_item (ready Sample.crawler)
        (PDict [("url", PStr "https://github.com/alice/repo");
                ("extras",
                 PDict [("owner", PStr "alice");
                        ("language_stats",
                         PDict [("Go", PStr "80"); ("Python", PStr "20")])])]),
      after_get (Sample.world_of Sample.disk Sample.slow_first)
        "https://github.com/alice/repo" None)).
Proof.
  apply (repository_extras Sample.detail_parser Sample.one_link
           (ready Sample.crawler) (Sample.world_of Sample.disk Sample.slow_first)
           (Sample.repo_link "/alice/repo")
           (Sample.anchor [("rel", "author"); ("href", "/alice")] [NavigableString "alice"])
           "alice" [("Go", "80"); ("Python", "20")]).
  - reflexivity.
  - vm_compute. reflexivity.
  - vm_compute. reflexivity.
  - vm_compute. reflexivity.
  - vm_compute. reflexivity.
  - vm_compute. reflexivity.
  - repeat constructor.
  - repeat constructor; simpl; intuition discriminate.
Defined.

(* ===================================================================== *)
(** * Construction of the crawler *)
(* ===================================================================== *)

Lemma forallb_is_str l :
  forallb is_str l = true <-> exists ss, l = map PStr ss.
Proof.
  split.
  - induction l as [|v l IH]; [by exists []|].
    simpl. intros H. apply andb_prop in H as [Hv Hl].
    destruct v; try discriminate.
    destruct (IH Hl) as [ss ->]. by exists (s :: ss).
  - intros [ss ->]. induction ss as [|s ss IH]; [reflexivity | exact IH].
Qed.

Lemma as_strs_strings ss : as_strs (map PStr ss) = Some ss.
Proof. induction ss as [|s ss IH]; [reflexivity|]. simpl. by rewrite IH. Qed.

Lemma as_strs_inv l ss : as_strs l = Some ss -> l = map PStr ss.
Proof.
  revert ss. induction l as [|v l IH]; intros ss; simpl.
  - by intros [= <-].
  - destruct v; try discriminate. simpl.
    destruct (as_strs l) as [ss'|]; [|discriminate].
    intros [= <-]. simpl. by rewrite (IH ss').
Qed.

Lemma schema_accepts params :
  JsonSchema.is_valid settings.PARAMS_SCHEMA params = true <->
  exists d kws ty,
    params = PDict d
    /\ PyDict.get "keywords" d = Some (PList (map PStr kws))
    /\ kws <> []
    /\ PyDict.get "type" d = Some (PStr ty)
    /\ (PyDict.get "proxies" d = None
        \/ exists pxs, PyDict.get "proxies" d = Some (PList (map PStr pxs))).
Proof.
  rewrite is_valid_params. split.
  - destruct params as [| | | | | |d]; try discriminate.
    intros H. apply andb_prop in H as [H Hty]. apply andb_prop in H as [Hkw Hpx].
    destruct (PyDict.get "keywords" d) as [[| | | | |kl|]|] eqn:Ek; try discriminate.
    apply andb_prop in Hkw as [Hks Hlen].
    apply forallb_is_str in Hks as [kws ->].
    destruct (PyDict.get "type" d) as [[| | | |ty| |]|] eqn:Et; try discriminate.
    exists d, kws, ty.
    split; [reflexivity|]. split; [exact Ek|].
    split; [intros ->; discriminate|]. split; [exact Et|].
    destruct (PyDict.get "proxies" d) as [[| | | | |pl|]|] eqn:Ep; try discriminate;
      [right | by left].
    apply forallb_is_str in Hpx as [pxs ->]. by exists pxs.
  - intros (d & kws & ty & -> & Hkw & Hne & Hty & Hpx).
    rewrite Hkw, Hty.
    assert (Hk : forallb is_str (map PStr kws) = true)
      by (apply forallb_is_str; by exists kws).
    rewrite Hk. destruct kws as [|k kws]; [done|]. simpl.
    destruct Hpx as [->|[pxs ->]]; [reflexivity|].
    assert (Hp : forallb is_str (map PStr pxs) = true)
      by (apply forallb_is_str; by exists pxs).
    by rewrite Hp.
Qed.

Lemma validated_acceptable params :
  validate_params params = inr tt -> acceptable params.
Proof.
  unfold acceptable, validate_params.
  destruct (JsonSchema.is_valid settings.PARAMS_SCHEMA params) eqn:E;
    [|discriminate]. simpl negb. cbv iota.
  apply schema_accepts in E as (d & kws & ty & -> & Hkw & Hne & Hty & Hpx).
  unfold subscript. rewrite Hty. unfold py_in.
  destruct (mem_str ty settings.SUPPORTED_GITHUB_TYPES) eqn:Hin; simpl negb;
    cbv iota; [|intros Hd; discriminate Hd].
  intros _. apply mem_str_In in Hin. by exists d, kws, ty.
Qed.

Lemma acceptable_validated params :
  acceptable params -> validate_params params = inr tt.
Proof.
  unfold acceptable, validate_params.
  intros (d & kws & ty & -> & Hkw & Hne & Hty & Hin & Hpx).
  assert (E : JsonSchema.is_valid settings.PARAMS_SCHEMA (PDict d) = true).
  { apply schema_accepts. by exists d, kws, ty. }
  rewrite E. simpl negb. cbv iota. unfold subscript. rewrite Hty. unfold py_in.
  apply mem_str_In in Hin. by rewrite Hin.
Qed.

(** X1. [validate_params] returns exactly for the objects that have a
    non-empty array of strings as [keywords], one of the three supported
    names as [type], and no [proxies] or an array of strings as
    [proxies]; for every other document it raises. *)
Theorem validate_params_accepts params :
  (validate_params params = inr tt <-> acceptable params)
  /\ (~ acceptable params -> exists e, validate_params params = inl e).
Proof.
  split; [split; [apply validated_acceptable | apply acceptable_validated]|].
  intros Hno. destruct (validate_params params) as [e|[]] eqn:Hv.
  - by exists e.
  - exfalso. apply Hno. by apply validated_acceptable.
Qed.

(** X2. [__init__] fails exactly as [validate_params] does, with the
    same exception; when validation returns, the crawler holds the
    keywords, the type and the proxies of the document (no proxies when
    the document has none), an empty collection of items and no
    session. *)
Theorem init_follows_validation params :
  (forall e, init params = inl e <-> validate_params params = inl e)
  /\ (validate_params params = inr tt ->
      exists d c, params = PDict d /\ init params = inr c /\ built_from d c)
  /\ (forall c, init params = inr c -> validate_params params = inr tt).
Proof.
  assert (Hok : validate_params params = inr tt ->
                exists d c, params = PDict d /\ init params = inr c /\ built_from d c).
  { intros Hv. pose proof Hv as Ha.
    apply validated_acceptable in Ha
      as (d & kws & ty & -> & Hkw & Hne & Hty & Hin & Hpx).
    unfold init. rewrite Hv. unfold subscript. rewrite Hkw, Hty.
    unfold as_str_list, as_str. rewrite as_strs_strings.
    destruct Hpx as [Hp|[pxs Hp]]; rewrite Hp; cbv beta iota delta [default from_option id];
      simpl as_strs.
    - eexists d, _. split; [reflexivity|]. split; [reflexivity|].
      unfold built_from. simpl. by rewrite Hkw, Hty, Hp.
    - rewrite as_strs_strings.
      eexists d, _. split; [reflexivity|]. split; [reflexivity|].
      unfold built_from. simpl. by rewrite Hkw, Hty, Hp. }
  split; [|split; [exact Hok|]].
  - intros e. destruct (validate_params params) as [e'|[]] eqn:Hv.
    + unfold init. rewrite Hv. split; intros [= ->]; reflexivity.
    + destruct (Hok eq_refl) as (d & c & _ & Hc & _). rewrite Hc.
      split; discriminate.
  - intros c Hc. destruct (validate_params params) as [e'|[]] eqn:Hv;
      [|reflexivity].
    unfold init in Hc. rewrite Hv in Hc. discriminate.
Qed.

Lemma get_skip {A} k k' (v : A) d1 d2 :
  k' <> k -> PyDict.get k' (d1 ++ (k, v) :: d2) = PyDict.get k' (d1 ++ d2).
Proof.
  intros Hne. induction d1 as [|[k1 v1] d1 IH]; simpl.
  - destruct (String.eqb_spec k' k); [contradiction | reflexivity].
  - by rewrite IH.
Qed.

(** X3. A member of the document under any other name than [keywords],
    [proxies] and [type] changes nothing: the document is validated, and
    the crawler built, as without it. *)
Theorem init_ignores_other_members d1 d2 k v :
  ~ In k ["keywords"; "proxies"; "type"] ->
  validate_params (PDict (d1 ++ (k, v) :: d2)) = validate_params (PDict (d1 ++ d2))
  /\ init (PDict (d1 ++ (k, v) :: d2)) = init (PDict (d1 ++ d2)).
Proof.
  intros Hk.
  assert (Hkw : "keywords" <> k) by (intros <-; apply Hk; simpl; tauto).
  assert (Hpx : "proxies" <> k) by (intros <-; apply Hk; simpl; tauto).
  assert (Hty : "type" <> k) by (intros <-; apply Hk; simpl; tauto).
  assert (Hv : validate_params (PDict (d1 ++ (k, v) :: d2))
               = validate_params (PDict (d1 ++ d2))).
  { unfold validate_params. rewrite !is_valid_params. unfold subscript.
    by rewrite !(get_skip k _ v d1 d2) by assumption. }
  split; [exact Hv|].
  unfold init. rewrite Hv. unfold subscript.
  by rewrite !(get_skip k _ v d1 d2) by assumption.
Qed.

Lemma init_ignores_other_members_witness :
  init (PDict [("keywords", PList [PStr "python"]); ("page", PInt 2);
               ("type", PStr "Wikis")])
  = init (PDict [("keywords", PList [PStr "python"]); ("type", PStr "Wikis")]).
Proof.
  refine (proj2 (init_ignores_other_members
                   [("keywords", PList [PStr "python"])] [("type", PStr "Wikis")]
                   "page" (PInt 2) _)).
  simpl. intuition discriminate.
Defined.

(* ===================================================================== *)
(** * More on the output writer *)
(* ===================================================================== *)

(** X4. [write_items] changes nothing but the file at its destination:
    every other path of the file system, the crawler, the clock, the
    trace and the random generator are as before, whether it returns or
    raises. *)
Theorem write_items_frame its fp c w p :
  p <> destination fp ->
  let st := snd (write_items its fp (c, w)) in
  fs (snd st) !! p = fs w !! p
  /\ fst st = c
  /\ clock (snd st) = clock w
  /\ trace (snd st) = trace w
  /\ draws (snd st) = draws w.
Proof.
  intros Hp. cbv zeta. rewrite write_items_cases.
  destruct (fs w !! destination fp) as [[old [|]|d]|]; simpl;
    repeat split; try reflexivity.
  by rewrite lookup_insert_ne.
Qed.

Lemma write_items_frame_witness :
  fs (snd (snd (write_items [PStr "x"] None
                  (Sample.crawler, Sample.world_of Sample.disk Sample.unavailable))))
    !! "resources"
  = Some (OS.Dir true).
Proof.
  assert (Hp : "resources" <> destination None) by (vm_compute; discriminate).
  rewrite (proj1 (write_items_frame [PStr "x"] None Sample.crawler
                    (Sample.world_of Sample.disk Sample.unavailable) "resources" Hp)).
  vm_compute. reflexivity.
Defined.

(** X5. Of two writes to the same destination in a row, only the second
    shows: the outcome and the state are those of the second write
    alone, also when the destination cannot be written. *)
Theorem write_items_last_wins first second fp c w :
  (write_items first fp ;;; write_items second fp) (c, w)
  = write_items second fp (c, w).
Proof.
  unfold bind. rewrite (write_items_cases first).
  destruct (fs w !! destination fp) as [[old [|]|d]|] eqn:E.
  - rewrite !write_items_cases. simpl fs.
    rewrite lookup_insert_eq, E. simpl fs.
    rewrite insert_insert_eq. reflexivity.
  - rewrite write_items_cases, E. reflexivity.
  - rewrite write_items_cases, E. reflexivity.
  - rewrite write_items_cases, E. reflexivity.
Qed.

(* ===================================================================== *)
(** * More on the extraction of issues and wikis *)
(* ===================================================================== *)

Lemma filter_exn_text_node data s :
  In (NavigableString s) data ->
  filter_exn match_condition data = inl AttributeError.
Proof.
  induction data as [|a data IH]; [intros []|].
  intros Hin. simpl.
  destruct a as [t|name attrs cs].
  - reflexivity.
  - destruct Hin as [Hin|Hin]; [discriminate|].
    rewrite (match_condition_tag (Tag name attrs cs) I), (IH Hin). reflexivity.
Qed.

(** X6. When a text node stands among the top-level elements of the
    page, the extractor of issues and wikis raises [AttributeError] and
    appends nothing, not even for the result links before the text
    node: the links are all selected before the first item is
    appended. *)
Theorem hydro_click_text_node data s c w :
  In (NavigableString s) data ->
  parse_data_hydro_click_elements data (c, w) = (inl AttributeError, (c, w)).
Proof.
  intros Hin. unfold parse_data_hydro_click_elements.
  unfold bind, lift. rewrite (filter_exn_text_node data s Hin). reflexivity.
Qed.

Lemma hydro_click_text_node_witness :
  parse_data_hydro_click_elements
    [Sample.anchor_A; NavigableString "more"; Sample.anchor_C]
    (Sample.crawler, Sample.world_of Sample.disk Sample.unavailable)
  = (inl AttributeError,
     (Sample.crawler, Sample.world_of Sample.disk Sample.unavailable)).
Proof.
  apply (hydro_click_text_node _ "more"). simpl. tauto.
Defined.

(** X23. When the [href] of a tracked anchor cannot be resolved, the
    extractor of issues and wikis raises [ValueError] at that anchor:
    the items of the tracked anchors before it are in the collection,
    those of the anchors after it are not. *)
Theorem hydro_click_unresolved data pre a post c w :
  Forall is_tag data ->
  List.filter tracked data = pre ++ a :: post ->
  Forall (fun x => resolves x = true) pre ->
  resolves a = false ->
  parse_data_hydro_click_elements data (c, w)
  = (inl ValueError, (add_items c (map plain_item pre), w)).
Proof.
  intros Htags Hsel Hpre Ha. unfold parse_data_hydro_click_elements.
  unfold bind at 1. unfold lift at 1.
  rewrite (filter_match_condition data Htags).
  pose proof (filter_tracked data) as Htr. rewrite Hsel in Htr |- *.
  by apply append_links_stop.
Qed.

Lemma hydro_click_unresolved_witness :
  parse_data_hydro_click_elements
    [Sample.anchor_A; Sample.anchor_B; unresolvable_anchor; Sample.anchor_C]
    (Sample.crawler, Sample.world_of Sample.disk Sample.unavailable)
  = (inl ValueError,
     (add_items Sample.crawler [plain_item Sample.anchor_A],
      Sample.world_of Sample.disk Sample.unavailable)).
Proof.
  apply (hydro_click_unresolved
           [Sample.anchor_A; Sample.anchor_B; unresolvable_anchor; Sample.anchor_C]
           [Sample.anchor_A] unresolvable_anchor [Sample.anchor_C]).
  - repeat constructor.
  - vm_compute. reflexivity.
  - repeat constructor.
  - vm_compute. reflexivity.
Defined.

(* ===================================================================== *)
(** * More on the extraction of repositories *)
(* ===================================================================== *)

Lemma after_get_server w u p : server (after_get w u p) = server w.
Proof. reflexivity. Qed.

Lemma repository_loop_ok bs4 links : forall c w,
  Forall (fun a => has_href a = true) links ->
  _session c = Some {| closed := false |} ->
  Forall (extracts bs4 (server w)) links ->
  for_each links (repository_step bs4) (c, w)
  = (inr tt, (add_items c (map (enriched bs4 (server w)) links),
              after_gets w (map link_url links))).
Proof.
  induction links as [|a links IH]; intros c w Hh Hs Hok.
  - simpl. by rewrite add_items_nil.
  - apply Forall_cons_1 in Hh as [Ha Hh].
    apply Forall_cons_1 in Hok as [[Hr [ex Hex]] Hok].
    simpl for_each. unfold bind at 1.
    rewrite (repository_step_run bs4 a c w Ha Hr Hs).
    unfold extras_of in Hex. rewrite Hex.
    rewrite (IH (append_item c (rich_item a ex)) (after_get w (link_url a) None) Hh Hs Hok).
    rewrite add_items_cons. simpl map. simpl after_gets.
    unfold enriched at 2, extras_of. rewrite Hex. reflexivity.
Qed.

(** The loop up to the link it stops at: [stop] is what the turn for
    that link does. *)
Lemma repository_loop_stops bs4 pre a post e (reached : world -> world) : forall c w,
  Forall (fun x => has_href x = true) pre ->
  _session c = Some {| closed := false |} ->
  Forall (extracts bs4 (server w)) pre ->
  (forall c' w', _session c' = Some {| closed := false |} -> server w' = server w ->
                 repository_step bs4 a (c', w') = (inl e, (c', reached w'))) ->
  for_each (pre ++ a :: post) (repository_step bs4) (c, w)
  = (inl e, (add_items c (map (enriched bs4 (server w)) pre),
             reached (after_gets w (map link_url pre)))).
Proof.
  induction pre as [|x pre IH]; intros c w Hh Hs Hok Hbad.
  - simpl app. simpl for_each. unfold bind at 1.
    rewrite (Hbad c w Hs eq_refl). simpl. by rewrite add_items_nil.
  - simpl app in *. apply Forall_cons_1 in Hh as [Hx Hh].
    apply Forall_cons_1 in Hok as [[Hr [ex Hex]] Hok].
    simpl for_each. unfold bind at 1.
    rewrite (repository_step_run bs4 x c w Hx Hr Hs).
    unfold extras_of in Hex. rewrite Hex.
    rewrite (IH (append_item c (rich_item x ex)) (after_get w (link_url x) None)
                Hh Hs Hok Hbad).
    rewrite add_items_cons. simpl map. simpl after_gets.
    unfold enriched at 2, extras_of. rewrite Hex. reflexivity.
Qed.

Lemma after_gets_app w us vs :
  after_gets w (us ++ vs) = after_gets (after_gets w us) vs.
Proof. unfold after_gets. apply fold_left_app. Qed.

Lemma after_gets_server us : forall w, server (after_gets w us) = server w.
Proof.
  induction us as [|u us IH]; intros w; [reflexivity|].
  simpl. by rewrite IH.
Qed.

(** X7. On an open session, [parse_repositories] requests the pages of
    the links in page order, without proxy, and appends for each link
    the item made of its resolved URL and the extras of its page.  The
    first link that fails ends the loop, the items of the links before
    it stay in the collection and the links after it are not requested:
    a link whose [href] cannot be resolved fails with [ValueError]
    before its page is requested, a page whose extraction raises fails
    with that exception after the request. *)
Theorem repositories_items bs4 data c w :
  _session c = Some {| closed := false |} ->
  let links := repository_links data in
  (Forall (extracts bs4 (server w)) links ->
   parse_repositories bs4 data (c, w)
   = (inr tt, (add_items c (map (enriched bs4 (server w)) links),
               after_gets w (map link_url links))))
  /\ (forall pre a post,
        links = pre ++ a :: post ->
        Forall (extracts bs4 (server w)) pre ->
        resolves a = false ->
        parse_repositories bs4 data (c, w)
        = (inl ValueError, (add_items c (map (enriched bs4 (server w)) pre),
                            after_gets w (map link_url pre))))
  /\ (forall pre a post e,
        links = pre ++ a :: post ->
        Forall (extracts bs4 (server w)) pre ->
        resolves a = true ->
        extras_of bs4 (server w) a = inl e ->
        parse_repositories bs4 data (c, w)
        = (inl e, (add_items c (map (enriched bs4 (server w)) pre),
                   after_gets w (map link_url (pre ++ [a]))))).
Proof.
  intros Hs. cbv zeta. rewrite parse_repositories_loop.
  pose proof (repository_links_href data) as Hh. split; [|split].
  - intros Hok. by apply repository_loop_ok.
  - intros pre a post Heq Hok Hbad. rewrite Heq in *.
    apply Forall_app in Hh as [Hpre Ha]. apply Forall_cons_1 in Ha as [Ha _].
    apply (repository_loop_stops bs4 pre a post ValueError (fun w' => w'));
      try assumption.
    intros c' w' _ _. by apply repository_step_unresolved.
  - intros pre a post e Heq Hok Hr Hbad. rewrite Heq in *.
    apply Forall_app in Hh as [Hpre Ha]. apply Forall_cons_1 in Ha as [Ha _].
    rewrite map_app, after_gets_app.
    apply (repository_loop_stops bs4 pre a post e
             (fun w' => after_get w' (link_url a) None)); try assumption.
    intros c' w' Hs' Hsrv. rewrite (repository_step_run bs4 a c' w' Ha Hr Hs').
    unfold extras_of in Hbad. rewrite Hsrv, Hbad. reflexivity.
Qed.

Lemma repositories_items_witness :
  parse_repositories Sample.detail_parser Sample.two_links
    (ready Sample.crawler, Sample.world_of Sample.disk Sample.slow_first)
  = (inr tt,
     (add_items (ready Sample.crawler)
        (map (enriched Sample.detail_parser Sample.slow_first)
             (repository_links Sample.two_links)),
      after_gets (Sample.world_of Sample.disk Sample.slow_first)
        (map link_url (repository_links Sample.two_links))))
  /\ parse_repositories Sample.detail_parser
       [Sample.repo_link "/alice/repo"; Sample.repo_link "//["; Sample.repo_link "/bob"]
       (ready Sample.crawler, Sample.world_of Sample.disk Sample.slow_first)
     = (inl ValueError,
        (add_items (ready Sample.crawler)
           [enriched Sample.detail_parser Sample.slow_first
              (Sample.repo_link "/alice/repo")],
         after_gets (Sample.world_of Sample.disk Sample.slow_first)
           ["https://github.com/alice/repo"])).
Proof.
  split.
  - apply (proj1 (repositories_items Sample.detail_parser Sample.two_links
                    (ready Sample.crawler)
                    (Sample.world_of Sample.disk Sample.slow_first) eq_refl)).
    repeat constructor; eexists; vm_compute; reflexivity.
  - apply (proj1 (proj2 (repositories_items Sample.detail_parser
                           [Sample.repo_link "/alice/repo"; Sample.repo_link "//[";
                            Sample.repo_link "/bob"]
                           (ready Sample.crawler)
                           (Sample.world_of Sample.disk Sample.slow_first) eq_refl))
             [Sample.repo_link "/alice/repo"] (Sample.repo_link "//[")
             [Sample.repo_link "/bob"]).
    + vm_compute. reflexivity.
    + repeat constructor. eexists. vm_compute. reflexivity.
    + vm_compute. reflexivity.
Defined.

Lemma session_get_unusable c w u p :
  session_get u p (c, w)
  = match _session c with
    | None => (inl AttributeError, (c, w))
    | Some s =>
        if closed s then (inl (RuntimeError "Session is closed"), (c, w))
        else (inr (server w u p), (c, after_get w u p))
    end.
Proof.
  unfold session_get, bind, get_self. simpl.
  destruct (_session c) as [s|]; [|reflexivity].
  unfold Transport.get. destruct (closed s); reflexivity.
Qed.

(** X8. [parse_repositories] builds the item of a link before it uses
    the session.  Without a usable session it therefore stops at the
    first link before any request: with [ValueError] when the [href] of
    that link cannot be resolved, otherwise with [AttributeError] when
    [setup] was not called and with [RuntimeError] when the session is
    closed.  A page without repository links needs no session. *)
Theorem repositories_need_session bs4 data c w :
  (repository_links data = [] ->
   parse_repositories bs4 data (c, w) = (inr tt, (c, w)))
  /\ (forall a rest,
        repository_links data = a :: rest ->
        (resolves a = false ->
         parse_repositories bs4 data (c, w) = (inl ValueError, (c, w)))
        /\ (resolves a = true ->
            (_session c = None ->
             parse_repositories bs4 data (c, w) = (inl AttributeError, (c, w)))
            /\ (_session c = Some {| closed := true |} ->
                parse_repositories bs4 data (c, w)
                = (inl (RuntimeError "Session is closed"), (c, w))))).
Proof.
  rewrite parse_repositories_loop.
  pose proof (repository_links_href data) as Hh.
  destruct (repository_links data) as [|a links]; split; try done.
  intros a' rest [= <- <-]. apply Forall_cons_1 in Hh as [Ha _].
  split.
  - intros Hr. simpl for_each. unfold bind at 1.
    by rewrite (repository_step_unresolved bs4 a c w Ha Hr).
  - intros Hr.
    split; intros Hs; simpl for_each; unfold bind at 1; unfold repository_step;
      unfold bind at 1; unfold lift at 1;
      rewrite (has_href_item a Ha), (resolved_item a Hr);
      unfold bind at 1; rewrite session_get_unusable, Hs; reflexivity.
Qed.

Lemma repositories_need_session_witness :
  parse_repositories Sample.detail_parser Sample.two_links
    (Sample.crawler, Sample.world_of Sample.disk Sample.slow_first)
  = (inl AttributeError,
     (Sample.crawler, Sample.world_of Sample.disk Sample.slow_first))
  /\ parse_repositories Sample.detail_parser [Sample.repo_link "//["]
       (Sample.crawler, Sample.world_of Sample.disk Sample.slow_first)
     = (inl ValueError,
        (Sample.crawler, Sample.world_of Sample.disk Sample.slow_first)).
Proof.
  split.
  - refine (proj1 (proj2 (proj2 (repositories_need_session Sample.detail_parser
                                   Sample.two_links Sample.crawler
                                   (Sample.world_of Sample.disk Sample.slow_first))
                            (Sample.repo_link "/alice/slow")
                            [Sample.repo_link "/alice/fast"] _) _) _).
    + vm_compute. reflexivity.
    + vm_compute. reflexivity.
    + reflexivity.
  - refine (proj1 (proj2 (repositories_need_session Sample.detail_parser
                            [Sample.repo_link "//["] Sample.crawler
                            (Sample.world_of Sample.disk Sample.slow_first))
                     (Sample.repo_link "//[") [] _) _).
    + vm_compute. reflexivity.
    + vm_compute. reflexivity.
Defined.

Lemma same_pages_after_get w1 w2 u :
  same_pages w1 w2 -> same_pages (after_get w1 u None) (after_get w2 u None).
Proof.
  intros (Hfs & Hclock & Htrace & Hdraws & Hsrv).
  destruct (Hsrv u) as [Hb Hl].
  unfold same_pages, after_get. simpl.
  rewrite Hfs, Hclock, Htrace, Hdraws, Hl. auto.
Qed.

Lemma repository_loop_status_blind bs4 links : forall c w1 w2,
  Forall (fun a => has_href a = true) links ->
  _session c = Some {| closed := false |} ->
  same_pages w1 w2 ->
  let o1 := for_each links (repository_step bs4) (c, w1) in
  let o2 := for_each links (repository_step bs4) (c, w2) in
  fst o1 = fst o2 /\ fst (snd o1) = fst (snd o2)
  /\ same_pages (snd (snd o1)) (snd (snd o2)).
Proof.
  induction links as [|a links IH]; intros c w1 w2 Hh Hs Hw; cbv zeta.
  - simpl. auto.
  - apply Forall_cons_1 in Hh as [Ha Hh].
    simpl for_each. unfold bind.
    destruct (resolves a) eqn:Hr.
    2:{ rewrite (repository_step_unresolved bs4 a c w1 Ha Hr),
                (repository_step_unresolved bs4 a c w2 Ha Hr). simpl. auto. }
    rewrite (repository_step_run bs4 a c w1 Ha Hr Hs),
            (repository_step_run bs4 a c w2 Ha Hr Hs).
    pose proof (same_pages_after_get w1 w2 (link_url a) Hw) as Hw'.
    destruct Hw as (_ & _ & _ & _ & Hsrv). destruct (Hsrv (link_url a)) as [Hb _].
    rewrite Hb.
    destruct (get_extras bs4 (body (server w2 (link_url a) None))) as [e|ex].
    + simpl. auto.
    + apply (IH (append_item c (rich_item a ex)) _ _ Hh Hs Hw').
Qed.

(** X9. [parse_repositories] never looks at the status of the response
    to a page request: in two worlds whose servers answer with the same
    bodies after the same time, it ends the same way, with the same
    items, at the same time and with the same trace, whatever the
    statuses are. *)
Theorem repositories_status_blind bs4 data c w1 w2 :
  _session c = Some {| closed := false |} ->
  same_pages w1 w2 ->
  let o1 := parse_repositories bs4 data (c, w1) in
  let o2 := parse_repositories bs4 data (c, w2) in
  fst o1 = fst o2
  /\ items (fst (snd o1)) = items (fst (snd o2))
  /\ clock (snd (snd o1)) = clock (snd (snd o2))
  /\ trace (snd (snd o1)) = trace (snd (snd o2)).
Proof.
  intros Hs Hw. cbv zeta. rewrite !parse_repositories_loop.
  destruct (repository_loop_status_blind bs4 (repository_links data) c w1 w2
              (repository_links_href data) Hs Hw)
    as (Hout & Hc & _ & Hclock & Htrace & _).
  cbv zeta in Hc. rewrite Hc. auto.
Qed.

Lemma repositories_status_blind_witness :
  fst (parse_repositories Sample.detail_parser Sample.two_links
         (ready Sample.crawler, Sample.world_of Sample.disk Sample.slow_first))
  = fst (parse_repositories Sample.detail_parser Sample.two_links
           (ready Sample.crawler, Sample.world_of Sample.disk not_found)).
Proof.
  refine (proj1 (repositories_status_blind Sample.detail_parser Sample.two_links
                   (ready Sample.crawler)
                   (Sample.world_of Sample.disk Sample.slow_first)
                   (Sample.world_of Sample.disk not_found) eq_refl _)).
  repeat split; reflexivity.
Defined.

(* ===================================================================== *)
(** * The extras of a repository page *)
(* ===================================================================== *)

Lemma get_set_eq {A} k (v : A) d : PyDict.get k (PyDict.set k v d) = Some v.
Proof.
  induction d as [|[k' v'] d IH]; simpl.
  - by rewrite String.eqb_refl.
  - destruct (String.eqb_spec k k') as [->|Hne]; simpl.
    + by rewrite String.eqb_refl.
    + destruct (String.eqb_spec k k'); [contradiction | exact IH].
Qed.

Lemma get_set_ne {A} k k' (v : A) d :
  k' <> k -> PyDict.get k' (PyDict.set k v d) = PyDict.get k' d.
Proof.
  intros Hne. induction d as [|[k1 v1] d IH]; simpl.
  - destruct (String.eqb_spec k' k); [contradiction | reflexivity].
  - destruct (String.eqb_spec k k1) as [->|Hk]; simpl.
    + destruct (String.eqb_spec k' k1); [contradiction | reflexivity].
    + by rewrite IH.
Qed.

Lemma set_keys {A} k (v : A) d :
  map fst (PyDict.set k v d)
  = if PyDict.has k d then map fst d else map fst d ++ [k].
Proof.
  unfold PyDict.has. induction d as [|[k' v'] d IH]; [reflexivity|].
  simpl. destruct (String.eqb_spec k k') as [->|Hne]; [reflexivity|].
  simpl. rewrite IH. by destruct (PyDict.get k d).
Qed.

Lemma get_none_keys {A} k (d : list (string * A)) :
  PyDict.get k d = None -> ~ In k (map fst d).
Proof.
  induction d as [|[k' v'] d IH]; [intros _ []|].
  simpl. destruct (String.eqb_spec k k') as [->|Hne]; [discriminate|].
  intros H [Heq|Hin]; [by subst | by apply IH].
Qed.

Lemma set_nodup {A} k (v : A) d :
  List.NoDup (map fst d) -> List.NoDup (map fst (PyDict.set k v d)).
Proof.
  intros Hnd. rewrite set_keys. unfold PyDict.has.
  destruct (PyDict.get k d) eqn:E; [exact Hnd|].
  apply List.NoDup_app_remove_l with (l := []). simpl.
  rewrite <- (List.rev_involutive (map fst d ++ [k])).
  apply List.NoDup_rev. rewrite List.rev_app_distr. simpl.
  constructor.
  - rewrite <- List.in_rev. by apply get_none_keys.
  - by apply List.NoDup_rev.
Qed.

Lemma of_pairs_nodup_keys {A} (pairs : list (string * A)) :
  List.NoDup (map fst (PyDict.of_pairs pairs)).
Proof.
  unfold PyDict.of_pairs.
  enough (H : forall acc, List.NoDup (map fst acc) ->
              List.NoDup (map fst (fold_left
                (fun d kv => PyDict.set (fst kv) (snd kv) d) pairs acc)))
    by (apply H; constructor).
  induction pairs as [|[k v] pairs IH]; intros acc Hacc; [exact Hacc|].
  simpl. apply IH. by apply set_nodup.
Qed.

Lemma get_app_last {A} k k1 (v1 : A) l :
  PyDict.get k (l ++ [(k1, v1)])
  = match PyDict.get k l with
    | Some v => Some v
    | None => if String.eqb k k1 then Some v1 else None
    end.
Proof.
  induction l as [|[k' v'] l IH]; [reflexivity|].
  simpl. by destruct (String.eqb k k').
Qed.

(** Looking a key up in [dict(pairs)] finds the last pair with that
    key. *)
Lemma get_of_pairs {A} k (pairs : list (string * A)) :
  PyDict.get k (PyDict.of_pairs pairs) = PyDict.get k (rev pairs).
Proof.
  unfold PyDict.of_pairs.
  enough (H : forall acc,
              PyDict.get k (fold_left
                (fun d kv => PyDict.set (fst kv) (snd kv) d) pairs acc)
              = match PyDict.get k (rev pairs) with
                | Some v => Some v
                | None => PyDict.get k acc
                end).
  { rewrite H. by destruct (PyDict.get k (rev pairs)). }
  induction pairs as [|[k1 v1] pairs IH]; intros acc; [reflexivity|].
  simpl. rewrite IH, get_app_last.
  destruct (PyDict.get k (rev pairs)); [reflexivity|].
  destruct (String.eqb_spec k k1) as [->|Hne].
  - apply get_set_eq.
  - by apply get_set_ne.
Qed.

Lemma set_as_percent k v (d : list (string * string)) :
  PyDict.set k (PStr v) (map as_percent d) = map as_percent (PyDict.set k v d).
Proof.
  induction d as [|[k' v'] d IH]; [reflexivity|].
  simpl. destruct (String.eqb k k'); [reflexivity|]. simpl. by rewrite IH.
Qed.

Lemma of_pairs_as_percent (pairs : list (string * string)) :
  PyDict.of_pairs (map as_percent pairs) = map as_percent (PyDict.of_pairs pairs).
Proof.
  unfold PyDict.of_pairs.
  enough (H : forall acc,
              fold_left (fun d kv => PyDict.set (fst kv) (snd kv) d)
                        (map as_percent pairs) (map as_percent acc)
              = map as_percent
                  (fold_left (fun d kv => PyDict.set (fst kv) (snd kv) d) pairs acc))
    by (exact (H [])).
  induction pairs as [|[k v] pairs IH]; intros acc; [reflexivity|].
  simpl. rewrite set_as_percent. apply IH.
Qed.

Lemma key_value_two stat :
  length (stat_lines stat) = 2 ->
  key_value (stat_lines stat) = inr (as_percent (stat_pair stat)).
Proof.
  unfold stat_pair. destruct (stat_lines stat) as [|k [|v [|x l]]]; try discriminate.
  reflexivity.
Qed.

Lemma key_value_other stat :
  length (stat_lines stat) <> 2 -> key_value (stat_lines stat) = inl ValueError.
Proof.
  destruct (stat_lines stat) as [|k [|v [|x l]]]; try reflexivity.
  intros H. by exfalso.
Qed.

Lemma map_exn_bad {A B} (f : A -> exn + B) e xs :
  (forall x e', f x = inl e' -> e' = e) ->
  (exists x, In x xs /\ f x = inl e) ->
  map_exn f xs = inl e.
Proof.
  intros Honly [x [Hin Hx]]. induction xs as [|y xs IH]; [destruct Hin|].
  simpl. destruct (f y) as [e'|b] eqn:Ey.
  - by rewrite (Honly y e' Ey).
  - destruct Hin as [->|Hin]; [congruence|]. by rewrite (IH Hin).
Qed.

(** What [get_extras] does, by the form of the page. *)
Lemma get_extras_cases bs4 page :
  get_extras bs4 page
  = match find (html_parser bs4 page) [("rel", Equal "author")] with
    | None => inl AttributeError
    | Some author =>
        match map_exn (fun stat => key_value (stat_lines stat))
                      (language_elements (html_parser bs4 page)) with
        | inl e => inl e
        | inr pairs =>
            inr [("owner", PStr (strip (text author)));
                 ("language_stats", PDict (PyDict.of_pairs pairs))]
        end
    end.
Proof.
  unfold get_extras. destruct (find _ _); [|reflexivity].
  rewrite language_filter. reflexivity.
Qed.

(** X10. [get_extras] raises [AttributeError] when the page has no
    author element, whatever else it holds, and [ValueError] when a
    language element does not consist of exactly two lines; it returns
    for every other page. *)
Theorem get_extras_errors bs4 page :
  let doc := html_parser bs4 page in
  (find doc [("rel", Equal "author")] = None ->
   get_extras bs4 page = inl AttributeError)
  /\ (forall author,
        find doc [("rel", Equal "author")] = Some author ->
        (exists stat, In stat (language_elements doc)
                      /\ length (stat_lines stat) <> 2) ->
        get_extras bs4 page = inl ValueError)
  /\ (forall author,
        find doc [("rel", Equal "author")] = Some author ->
        Forall (fun stat => length (stat_lines stat) = 2) (language_elements doc) ->
        exists ex, get_extras bs4 page = inr ex).
Proof.
  cbv zeta. rewrite get_extras_cases. split; [|split].
  - intros ->. reflexivity.
  - intros author -> [stat [Hin Hbad]].
    rewrite (map_exn_bad _ ValueError); [reflexivity| |].
    + intros x e' Hx. unfold key_value in Hx.
      destruct (stat_lines x) as [|k [|v [|y l]]]; congruence.
    + exists stat. split; [exact Hin | by apply key_value_other].
  - intros author -> Hall.
    rewrite (map_exn_all _ (fun stat => as_percent (stat_pair stat))).
    + eexists. reflexivity.
    + apply List.Forall_forall. intros stat Hin.
      rewrite List.Forall_forall in Hall. by apply key_value_two, Hall.
Qed.

(** X11. What [get_extras] returns has two members: [owner], the text
    of the author element without surrounding white space, and
    [language_stats], which maps every language named by a language
    element to the percentage of the last element that names it; no
    language occurs twice. *)
Theorem get_extras_shape bs4 page ex :
  get_extras bs4 page = inr ex ->
  let doc := html_parser bs4 page in
  exists author stats,
    find doc [("rel", Equal "author")] = Some author
    /\ ex = [("owner", PStr (strip (text author)));
             ("language_stats", PDict (map as_percent stats))]
    /\ List.NoDup (map fst stats)
    /\ forall language,
         PyDict.get language stats
         = PyDict.get language (rev (map stat_pair (language_elements doc))).
Proof.
  rewrite get_extras_cases. cbv zeta.
  destruct (find _ _) as [author|]; [|discriminate].
  destruct (map_exn _ _) as [e|pairs] eqn:Hm; [discriminate|].
  intros [= <-].
  assert (Hpairs : pairs = map as_percent
                     (map stat_pair (language_elements (html_parser bs4 page)))).
  { revert pairs Hm.
    induction (language_elements (html_parser bs4 page)) as [|stat l IH];
      intros pairs Hm; simpl in Hm.
    - by injection Hm as <-.
    - destruct (key_value (stat_lines stat)) as [e|kv] eqn:Hkv; [discriminate|].
      destruct (map_exn _ l) as [e|rest]; [discriminate|].
      injection Hm as <-. simpl. rewrite <- (IH rest eq_refl). f_equal.
      unfold key_value, stat_pair in *.
      destruct (stat_lines stat) as [|k [|v [|y t]]]; try discriminate.
      by injection Hkv as <-. }
  exists author, (PyDict.of_pairs (map stat_pair (language_elements (html_parser bs4 page)))).
  split; [reflexivity|]. split; [by rewrite Hpairs, of_pairs_as_percent|].
  split; [apply of_pairs_nodup_keys | intros language; apply get_of_pairs].
Qed.

(* ===================================================================== *)
(** * The whole run *)
(* ===================================================================== *)

Lemma filter_exn_tracked data links :
  filter_exn match_condition data = inr links ->
  Forall (fun a => tracked a = true) links.
Proof.
  revert links. induction data as [|a data IH]; intros links; simpl.
  - intros [= <-]. constructor.
  - destruct a as [t|name attrs cs]; [discriminate|].
    rewrite (match_condition_tag (Tag name attrs cs) I).
    destruct (filter_exn match_condition data) as [e|ys]; [discriminate|].
    destruct (tracked (Tag name attrs cs)) eqn:Ht; intros [= <-].
    + constructor; [exact Ht | by apply IH].
    + by apply IH.
Qed.

Lemma filter_exn_attribute_error data e :
  filter_exn match_condition data = inl e -> e = AttributeError.
Proof.
  induction data as [|a data IH]; simpl; [discriminate|].
  destruct a as [t|name attrs cs]; [by intros [= <-]|].
  rewrite (match_condition_tag (Tag name attrs cs) I).
  destruct (filter_exn match_condition data) as [e'|ys]; [|discriminate].
  intros [= <-]. by apply IH.
Qed.

Lemma append_links_cases links : forall c w,
  Forall (fun a => tracked a = true) links ->
  exists new,
    for_each links (fun link =>
        item <- lift (item_of_link link) ;; items_append item) (c, w)
    = (inr tt, (add_items c new, w))
    \/ for_each links (fun link =>
          item <- lift (item_of_link link) ;; items_append item) (c, w)
       = (inl ValueError, (add_items c new, w)).
Proof.
  induction links as [|a links IH]; intros c w Hall.
  - exists []. left. simpl. by rewrite add_items_nil.
  - apply Forall_cons_1 in Hall as [Ha Hall].
    simpl for_each. unfold bind at 1. unfold bind at 1. unfold lift at 1.
    rewrite (tracked_item a Ha).
    destruct (resolves a) eqn:Hr.
    + rewrite (resolved_item a Hr).
      unfold items_append at 1. unfold bind at 1. unfold get_self, put_self.
      simpl fst. simpl snd.
      destruct (IH (append_item c (to_dict {| url := link_url a; extras := [] |})) w Hall)
        as [new Hnew].
      exists (plain_item a :: new).
      change (to_dict {| url := link_url a; extras := [] |}) with (plain_item a) in Hnew.
      rewrite <- add_items_cons. exact Hnew.
    + rewrite (unresolved_item a Hr). exists []. right. by rewrite add_items_nil.
Qed.

(** The extractor of issues and wikis either raises [AttributeError]
    and changes nothing, or appends items and then returns or raises
    [ValueError]. *)
Lemma hydro_click_cases data c w :
  parse_data_hydro_click_elements data (c, w) = (inl AttributeError, (c, w))
  \/ exists new,
       parse_data_hydro_click_elements data (c, w) = (inr tt, (add_items c new, w))
       \/ parse_data_hydro_click_elements data (c, w)
          = (inl ValueError, (add_items c new, w)).
Proof.
  unfold parse_data_hydro_click_elements. unfold bind at 1. unfold lift at 1.
  destruct (filter_exn match_condition data) as [e|links] eqn:E.
  - left. by rewrite (filter_exn_attribute_error data e E).
  - right. apply append_links_cases. by apply (filter_exn_tracked data).
Qed.

(** An extractor started on an open session leaves the session and the
    file system alone, and appends to the items. *)
Lemma extractor_effect bs4 c w parser data :
  coro bs4 (type_ c) = Some parser ->
  _session c = Some {| closed := false |} ->
  (exists new, fst (snd (parser data (c, w))) = add_items c new)
  /\ fs (snd (snd (parser data (c, w)))) = fs w.
Proof.
  intros Hcoro Hs.
  assert (Hh : parser = parse_data_hydro_click_elements ->
          (exists new, fst (snd (parser data (c, w))) = add_items c new)
          /\ fs (snd (snd (parser data (c, w)))) = fs w).
  { intros ->.
    destruct (hydro_click_cases data c w) as [H|[new [H|H]]]; rewrite H; simpl.
    - split; [exists []; by rewrite add_items_nil | reflexivity].
    - split; [by exists new | reflexivity].
    - split; [by exists new | reflexivity]. }
  unfold coro in Hcoro.
  destruct (String.eqb (type_ c) "Repositories").
  - injection Hcoro as <-. rewrite parse_repositories_loop.
    destruct (repository_loop bs4 (repository_links data) c w
                (repository_links_href data) Hs)
      as (k & new & Hitems & _ & _ & Hfs & _).
    split; [by exists new | exact Hfs].
  - destruct (String.eqb (type_ c) "Issues"); [injection Hcoro as <-; by apply Hh|].
    destruct (String.eqb (type_ c) "Wikis"); [injection Hcoro as <-; by apply Hh|].
    discriminate.
Qed.

(** [process] after a successful search, by what the extractor does. *)
Lemma on_success_cases bs4 c page st :
  on_success bs4 c page st
  = match coro bs4 (type_ c) with
    | None => (inl (KeyError (type_ c)), st)
    | Some parser =>
        match parser (html_parser_only_a bs4 page) st with
        | (inl e, st2) => (inl e, st2)
        | (inr _, st2) =>
            (close ;;; self <- get_self ;; write_items (items self) None) st2
        end
    end.
Proof.
  unfold on_success. unfold bind at 1.
  destruct (coro bs4 (type_ c)) as [parser|]; [|reflexivity].
  destruct (parser (html_parser_only_a bs4 page) st) as [[e|[]] st2]; reflexivity.
Qed.

Lemma finish_open c w :
  _session c = Some {| closed := false |} ->
  (close ;;; self <- get_self ;; write_items (items self) None) (c, w)
  = write_items (items c) None (set_session c (Some {| closed := true |}), w).
Proof.
  intros Hs. unfold bind at 1.
  rewrite (close_open c w {| closed := false |} Hs eq_refl).
  reflexivity.
Qed.

(** The run, by its three stages: the search, the extraction, the
    write. *)
Lemma process_stages bs4 c w :
  process bs4 (c, w)
  = if (status (search_response c w) =? 200)%Z then
      match coro bs4 (type_ c) with
      | None => (inl (KeyError (type_ c)), at_extraction c w)
      | Some parser =>
          match parser (search_page bs4 c w) (at_extraction c w) with
          | (inl e, st2) => (inl e, st2)
          | (inr _, (c2, w2)) =>
              write_items (items c2) None
                (set_session c2 (Some {| closed := true |}), w2)
          end
      end
    else (inl (RequestProcessError
                 ("Bad response status: " +:+ of_Z (status (search_response c w)))),
          at_extraction c w).
Proof.
  rewrite process_cases.
  destruct (status (search_response c w) =? 200)%Z; [|reflexivity].
  rewrite on_success_cases. fold (search_page bs4 c w). fold (at_extraction c w).
  destruct (coro bs4 (type_ c)) as [parser|] eqn:Hcoro; [|reflexivity].
  destruct (extractor_effect bs4 (ready c) (after_search c w) parser
              (search_page bs4 c w) Hcoro eq_refl) as ([new Hnew] & _).
  fold (at_extraction c w) in Hnew.
  destruct (parser (search_page bs4 c w) (at_extraction c w)) as [[e|[]] [c2 w2]];
    [reflexivity|].
  simpl in Hnew. subst c2. by apply finish_open.
Qed.

Lemma write_items_crawler its fp c w : fst (snd (write_items its fp (c, w))) = c.
Proof.
  rewrite write_items_cases.
  destruct (fs w !! destination fp) as [[old [|]|d]|]; reflexivity.
Qed.

(** X12. [process] closes the session exactly when the search succeeded
    and the extractor ran to its end, whether or not the write that
    follows succeeds.  In every other case it ends in an exception and
    the session it opened stays open. *)
Theorem process_session bs4 c w :
  let out := process bs4 (c, w) in
  (extraction_returns bs4 c w ->
   _session (fst (snd out)) = Some {| closed := true |})
  /\ (~ extraction_returns bs4 c w ->
      _session (fst (snd out)) = Some {| closed := false |}
      /\ exists e, fst out = inl e).
Proof.
  cbv zeta. unfold extraction_returns. rewrite process_stages.
  destruct (status (search_response c w) =? 200)%Z eqn:Est.
  - apply Z.eqb_eq in Est.
    destruct (coro bs4 (type_ c)) as [parser|] eqn:Hcoro.
    + destruct (extractor_effect bs4 (ready c) (after_search c w) parser
                  (search_page bs4 c w) Hcoro eq_refl) as ([new Hnew] & _).
      fold (at_extraction c w) in Hnew.
      destruct (parser (search_page bs4 c w) (at_extraction c w))
        as [[e|[]] [c2 w2]] eqn:Hp; simpl in Hnew; subst c2.
      * split.
        -- intros (_ & parser' & [= <-] & Hret). rewrite Hp in Hret. discriminate.
        -- intros _. split; [reflexivity | by exists e].
      * split.
        -- intros _. by rewrite write_items_crawler.
        -- intros Hno. exfalso. apply Hno. split; [exact Est|].
           exists parser. split; [reflexivity | by rewrite Hp].
    + split.
      * intros (_ & parser' & Hnone & _). discriminate.
      * intros _. split; [reflexivity | by eexists].
  - apply Z.eqb_neq in Est. split.
    + intros [Hok _]. contradiction.
    + intros _. split; [reflexivity | by eexists].
Qed.

(** X13. [process] returns only when the output file was written: the
    file then holds, as one JSON array, all the items of the collection,
    and it existed before.  When [process] raises, at whatever stage,
    the file system is as it was: no partial output. *)
Theorem process_output bs4 c w :
  let out := process bs4 (c, w) in
  (fst out = inr tt ->
   extraction_returns bs4 c w
   /\ (exists old, fs w !! settings.OUTPUT_FILE_PATH = Some (OS.File old true))
   /\ fs (snd (snd out))
      = <[settings.OUTPUT_FILE_PATH :=
            OS.File (Json.dumps (PList (items (fst (snd out)))) 4) true]> (fs w))
  /\ (fst out <> inr tt -> fs (snd (snd out)) = fs w).
Proof.
  cbv zeta. unfold extraction_returns. rewrite process_stages.
  destruct (status (search_response c w) =? 200)%Z eqn:Est;
    [|split; [discriminate | intros _; apply after_search_fs]].
  apply Z.eqb_eq in Est.
  destruct (coro bs4 (type_ c)) as [parser|] eqn:Hcoro;
    [|split; [discriminate | intros _; apply after_search_fs]].
  destruct (extractor_effect bs4 (ready c) (after_search c w) parser
              (search_page bs4 c w) Hcoro eq_refl) as (_ & Hfs).
  fold (at_extraction c w) in Hfs. rewrite after_search_fs in Hfs.
  destruct (parser (search_page bs4 c w) (at_extraction c w))
    as [[e|[]] [c2 w2]] eqn:Hp; simpl in Hfs.
  - split; [discriminate | intros _; exact Hfs].
  - rewrite write_items_cases. change (destination None) with settings.OUTPUT_FILE_PATH.
    rewrite Hfs.
    destruct (fs w !! settings.OUTPUT_FILE_PATH) as [[old [|]|d]|] eqn:E; simpl;
      (split; [try discriminate | try (intros _; exact Hfs)]).
    + intros _. split; [|split; [by exists old | reflexivity]].
      split; [exact Est|]. exists parser. split; [reflexivity | by rewrite Hp].
    + intros H. by exfalso.
Qed.

(** X14. A run for issues or wikis whose search succeeds on a page of
    tags, the [href] of every tracked anchor being one that [urljoin]
    resolves, with the output file in place: [process] returns, the
    collection has one item more for every tracked anchor, in page
    order, the session is closed and the output file holds the whole
    collection. *)
Theorem process_issues_run bs4 c w old :
  type_ c = "Issues" \/ type_ c = "Wikis" ->
  status (search_response c w) = 200%Z ->
  Forall is_tag (search_page bs4 c w) ->
  Forall (fun a => resolves a = true) (List.filter tracked (search_page bs4 c w)) ->
  fs w !! settings.OUTPUT_FILE_PATH = Some (OS.File old true) ->
  let new := map plain_item (List.filter tracked (search_page bs4 c w)) in
  process bs4 (c, w)
  = (inr tt,
     (finished c new,
      set_fs (after_search c w)
        (<[settings.OUTPUT_FILE_PATH :=
             OS.File (Json.dumps (PList (items c ++ new)) 4) true]> (fs w)))).
Proof.
  intros Hty Hst Htags Hres Hfile. cbv zeta. rewrite process_stages.
  apply Z.eqb_eq in Hst. rewrite Hst.
  assert (Hcoro : coro bs4 (type_ c) = Some parse_data_hydro_click_elements).
  { unfold coro. destruct Hty as [-> | ->]; reflexivity. }
  rewrite Hcoro. unfold parse_data_hydro_click_elements.
  unfold bind at 1. unfold lift at 1.
  rewrite (filter_match_condition _ Htags).
  unfold at_extraction. rewrite append_links.
  - rewrite write_items_cases. change (destination None) with settings.OUTPUT_FILE_PATH.
    rewrite after_search_fs, Hfile. reflexivity.
  - apply filter_tracked.
  - exact Hres.
Qed.

(** X15. The output file is looked for only at the end.  When it does
    not exist, a run whose search and extraction succeed still sends
    its requests and collects its items, closes the session, and only
    then raises the file-not-found error; nothing is written. *)
Theorem process_missing_output bs4 c w :
  extraction_returns bs4 c w ->
  fs w !! settings.OUTPUT_FILE_PATH = None ->
  let out := process bs4 (c, w) in
  fst out
  = inl (FileNotFoundError
           "File resources/output.json does not exist. Please provide a valid path")
  /\ (exists parser,
        coro bs4 (type_ c) = Some parser
        /\ snd out
           = (set_session
                (fst (snd (parser (search_page bs4 c w) (at_extraction c w))))
                (Some {| closed := true |}),
              snd (snd (parser (search_page bs4 c w) (at_extraction c w)))))
  /\ fs (snd (snd out)) = fs w.
Proof.
  intros (Hst & parser & Hcoro & Hret) Hfile. cbv zeta. rewrite process_stages.
  apply Z.eqb_eq in Hst. rewrite Hst, Hcoro.
  destruct (extractor_effect bs4 (ready c) (after_search c w) parser
              (search_page bs4 c w) Hcoro eq_refl) as (_ & Hfs).
  fold (at_extraction c w) in Hfs. rewrite after_search_fs in Hfs.
  destruct (parser (search_page bs4 c w) (at_extraction c w))
    as [[e|[]] [c2 w2]] eqn:Hp; [discriminate|]. simpl in Hfs.
  rewrite write_items_cases. change (destination None) with settings.OUTPUT_FILE_PATH.
  rewrite Hfs, Hfile. simpl.
  split; [reflexivity|]. split; [|exact Hfs].
  exists parser. split; [reflexivity|]. by rewrite Hp.
Qed.

Lemma process_session_witness :
  _session (fst (snd (process Sample.no_parser
                        (Sample.crawler,
                         Sample.world_of Sample.disk Sample.unavailable))))
  = Some {| closed := false |}
  /\ _session (fst (snd (process anchors_parser
                           (issues_crawler, Sample.world_of Sample.disk found))))
     = Some {| closed := true |}.
Proof.
  split.
  - apply (proj2 (process_session Sample.no_parser Sample.crawler
                    (Sample.world_of Sample.disk Sample.unavailable))).
    intros [Hst _]. vm_compute in Hst. discriminate.
  - apply (proj1 (process_session anchors_parser issues_crawler
                    (Sample.world_of Sample.disk found))).
    split; [reflexivity|].
    eexists. split; [reflexivity | vm_compute; reflexivity].
Defined.

Lemma process_output_witness :
  fs (snd (snd (process anchors_parser
                  (issues_crawler, Sample.world_of Sample.fresh_disk found))))
  = Sample.fresh_disk.
Proof.
  apply (proj2 (process_output anchors_parser issues_crawler
                  (Sample.world_of Sample.fresh_disk found))).
  vm_compute. discriminate.
Defined.

Lemma process_issues_run_witness :
  process anchors_parser (issues_crawler, Sample.world_of Sample.disk found)
  = (inr tt,
     (finished issues_crawler
        [plain_item Sample.anchor_A; plain_item Sample.anchor_C],
      set_fs (after_search issues_crawler (Sample.world_of Sample.disk found))
        (<[settings.OUTPUT_FILE_PATH :=
             OS.File (Json.dumps
                        (PList [plain_item Sample.anchor_A; plain_item Sample.anchor_C]) 4)
                     true]> Sample.disk))).
Proof.
  apply (process_issues_run anchors_parser issues_crawler
           (Sample.world_of Sample.disk found) "[]").
  - left. reflexivity.
  - reflexivity.
  - repeat constructor.
  - repeat constructor.
  - vm_compute. reflexivity.
Defined.

Lemma process_missing_output_witness :
  fst (process anchors_parser
         (issues_crawler, Sample.world_of Sample.fresh_disk found))
  = inl (FileNotFoundError
           "File resources/output.json does not exist. Please provide a valid path").
Proof.
  apply (process_missing_output anchors_parser issues_crawler
           (Sample.world_of Sample.fresh_disk found)).
  - split; [reflexivity|].
    eexists. split; [reflexivity | vm_compute; reflexivity].
  - vm_compute. reflexivity.
Defined.

(* ===================================================================== *)
(** * More on the search URL *)
(* ===================================================================== *)

Lemma join_cons sep x y l :
  join sep (x :: y :: l) = x +:+ sep +:+ join sep (y :: l).
Proof. reflexivity. Qed.

(** Joining a list in which one entry is itself a joined list. *)
Lemma join_flatten sep pre mid post :
  mid <> [] ->
  join sep (pre ++ [join sep mid] ++ post) = join sep (pre ++ mid ++ post).
Proof.
  intros Hmid.
  assert (Hhead : join sep ([join sep mid] ++ post) = join sep (mid ++ post)).
  { induction mid as [|m mid IH]; [done|].
    destruct mid as [|m' mid].
    - reflexivity.
    - specialize (IH ltac:(discriminate)).
      change ((m :: m' :: mid) ++ post) with (m :: ((m' :: mid) ++ post)).
      change ((m' :: mid) ++ post) with (m' :: (mid ++ post)) in *.
      rewrite (join_cons sep m m' (mid ++ post)), <- IH.
      rewrite (join_cons sep m m' mid).
      destruct post as [|p post].
      + simpl. reflexivity.
      + simpl app. rewrite !join_cons. by rewrite !str_app_assoc. }
  induction pre as [|p pre IH]; [exact Hhead|].
  assert (Hne : forall l, mid ++ l <> []) by (destruct mid; [done | discriminate]).
  simpl app in *.
  destruct (pre ++ join sep mid :: post) as [|x l] eqn:E1;
    [by destruct pre|].
  destruct (pre ++ mid ++ post) as [|y l'] eqn:E2.
  { destruct pre; [by apply Hne in E2 | discriminate]. }
  rewrite !join_cons. by rewrite IH.
Qed.

Lemma plus_encode_join sep l :
  plus_encode (join sep l) = join (plus_encode sep) (map plus_encode l).
Proof.
  induction l as [|x l IH]; [reflexivity|].
  destruct l as [|y l]; [reflexivity|].
  simpl map in *. rewrite !join_cons, !plus_encode_app, IH. reflexivity.
Qed.

(** X17. A space inside a keyword cannot be told from the border between
    two keywords: a keyword made of several words separated by single
    spaces gives the same search URL as these words given one by one. *)
Theorem search_url_space_separates c pre words post :
  words <> [] ->
  search_url (with_keywords c (pre ++ [join " " words] ++ post))
  = search_url (with_keywords c (pre ++ words ++ post)).
Proof.
  intros Hw. unfold search_url, with_keywords. cbn [keywords type_].
  assert (Hq : quote_plus (join "+" (pre ++ [join " " words] ++ post)) "+"
               = quote_plus (join "+" (pre ++ words ++ post)) "+").
  { rewrite !quote_plus_encode, !plus_encode_join, !map_app. simpl map.
    rewrite plus_encode_join.
    change (plus_encode " ") with "+". change (plus_encode "+") with "+".
    apply join_flatten. destruct words; [done | discriminate]. }
  unfold urlencode. cbn [map fst snd]. by rewrite Hq.
Qed.

Lemma search_url_space_separates_witness :
  search_url (with_keywords Sample.crawler ["openstack nova"; "css"])
  = search_url (with_keywords Sample.crawler ["openstack"; "nova"; "css"]).
Proof.
  apply (search_url_space_separates Sample.crawler [] ["openstack"; "nova"] ["css"]).
  discriminate.
Defined.

Lemma all_chars_weaken (p q : ascii -> bool) s :
  (forall c, p c = true -> q c = true) ->
  all_chars p s = true -> all_chars q s = true.
Proof.
  intros Hpq. induction s as [|a s IH]; [reflexivity|].
  simpl. intros H. apply andb_prop in H as [Ha Hs].
  by rewrite (Hpq a Ha), (IH Hs).
Qed.

(** X18. Whatever the keywords hold (spaces, reserved or non-ASCII
    characters), [search_url] returns for a crawler with a supported
    type, and the URL consists of ASCII letters, digits and the
    characters [-._~:/?&=+%] only. *)
Theorem search_url_characters c :
  In (type_ c) settings.SUPPORTED_GITHUB_TYPES ->
  exists joined,
    search_url c = inr joined /\ all_chars url_char joined = true.
Proof.
  intros Hty. rewrite (search_url_supported c Hty), <- quote_plus_join.
  eexists. split; [reflexivity|].
  rewrite quote_plus_encode, !all_chars_app.
  assert (Hq : all_chars url_char (plus_encode (join "+" (keywords c))) = true).
  { apply (all_chars_weaken query_char); [|apply plus_encode_safe].
    intros a Ha. unfold url_char. by rewrite Ha. }
  rewrite Hq. simpl in Hty.
  destruct Hty as [<-|[<-|[<-|[]]]]; vm_compute; reflexivity.
Qed.

Lemma search_url_characters_witness :
  exists joined,
    search_url (with_keywords Sample.crawler ["c++ & go"; "100%"]) = inr joined
    /\ all_chars url_char joined = true.
Proof.
  apply (search_url_characters (with_keywords Sample.crawler ["c++ & go"; "100%"])).
  simpl. tauto.
Defined.

(* ===================================================================== *)
(** * The URL of an item *)
(* ===================================================================== *)

Lemma rooted_inv href :
  rooted href = true ->
  exists rest, href = String "/" rest
               /\ String.prefix "//" href = false
               /\ all_chars path_char href = true.
Proof.
  unfold rooted. intros H. apply andb_prop in H as [H Hc].
  apply andb_prop in H as [Hp Hpp]. apply negb_true_iff in Hpp.
  destruct href as [|a rest]; [discriminate|].
  cbn [String.prefix] in Hp. destruct (ascii_dec "/" a) as [<-|]; [|discriminate].
  by exists rest.
Qed.

Lemma urlparse_rooted href :
  rooted href = true ->
  urlparse href "https"
  = Some (mkParse "https" EmptyString href EmptyString EmptyString EmptyString).
Proof.
  intros H. destruct (rooted_inv href H) as (rest & -> & Hpp & Hc).
  assert (Habs : forall c, path_char c = false -> mem_char c (String "/" rest) = false)
    by (intros c; apply all_chars_absent; exact Hc).
  unfold urlparse, urlsplit.
  change (lstrip_if c0_or_space (String "/" rest)) with (String "/" rest).
  unfold remove_unsafe.
  rewrite (replace_char_absent "009" _ (String "/" rest)) by (by apply Habs).
  rewrite (replace_char_absent "013" _ (String "/" rest)) by (by apply Habs).
  rewrite (replace_char_absent "010" _ (String "/" rest)) by (by apply Habs).
  unfold split_scheme.
  rewrite (split_once_absent ":") by (by apply Habs).
  rewrite Hpp. cbv beta iota zeta.
  rewrite (split_once_absent "#") by (by apply Habs).
  rewrite (split_once_absent "?") by (by apply Habs).
  cbn [sp_scheme sp_netloc sp_path sp_query sp_fragment].
  rewrite (Habs ";"%char eq_refl), andb_false_r. reflexivity.
Qed.

Lemma resolve_plain segs : forall acc,
  forallb (fun seg => negb (String.eqb seg "..") && negb (String.eqb seg ".")) segs = true ->
  resolve segs acc = acc ++ segs.
Proof.
  induction segs as [|seg segs IH]; intros acc H; simpl.
  - by rewrite app_nil_r.
  - simpl in H. apply andb_prop in H as [Hseg Hsegs].
    apply andb_prop in Hseg as [H1 H2]. apply negb_true_iff in H1, H2.
    rewrite H1, H2, (IH _ Hsegs), <- app_assoc. reflexivity.
Qed.

Lemma split_nonempty c s : split c s <> [].
Proof.
  destruct s as [|a s]; simpl; [discriminate|].
  destruct (Ascii.eqb a c); [discriminate|].
  destruct (split c s); discriminate.
Qed.

(** Joining what was split gives the string back. *)
Lemma join_split c s : join (String c EmptyString) (split c s) = s.
Proof.
  induction s as [|a s IH]; [reflexivity|].
  simpl split. destruct (Ascii.eqb_spec a c) as [->|Hne].
  - pose proof (split_nonempty c s) as Hs.
    destruct (split c s) as [|x l] eqn:E; [done|].
    rewrite join_cons, IH. reflexivity.
  - destruct (split c s) as [|x l] eqn:E; [by apply split_nonempty in E|].
    destruct l as [|y l].
    + simpl in *. by rewrite IH.
    + rewrite join_cons in *. rewrite <- IH. reflexivity.
Qed.

Lemma last_plain segs :
  segs <> [] ->
  forallb (fun seg => negb (String.eqb seg "..") && negb (String.eqb seg ".")) segs = true ->
  mem_str (List.last segs EmptyString) ["."; ".."] = false.
Proof.
  intros Hne H.
  assert (Hin : In (List.last segs EmptyString) segs).
  { destruct segs as [|x l]; [done|]. clear. revert x.
    induction l as [|y l IH]; intros x; [by left|]. right. apply IH. }
  rewrite forallb_forall in H. specialize (H _ Hin).
  apply andb_prop in H as [H1 H2]. apply negb_true_iff in H1, H2.
  unfold mem_str. simpl. by rewrite H1, H2.
Qed.

Lemma urljoin_rooted href :
  rooted href = true -> no_dot_segments href = true ->
  urljoin settings.HOST href = Some (settings.HOST +:+ href).
Proof.
  intros Hr Hd. pose proof (urlparse_rooted href Hr) as Hparse.
  destruct (rooted_inv href Hr) as (rest & -> & Hpp & Hc).
  unfold no_dot_segments in Hd.
  unfold urljoin.
  change (truthy settings.HOST) with true.
  change (truthy (String "/" rest)) with true.
  change (urlparse settings.HOST EmptyString)
    with (Some (mkParse "https" "github.com" EmptyString EmptyString EmptyString
                        EmptyString)).
  cbv beta iota zeta delta [pr_scheme negb].
  rewrite Hparse. unfold join_parsed.
  cbv beta iota zeta delta [pr_scheme pr_netloc pr_path pr_params pr_query pr_fragment].
  change (negb (String.eqb "https" "https") || negb (mem_str "https" uses_relative))
    with false.
  change (mem_str "https" uses_netloc) with true.
  change (truthy EmptyString) with false.
  change (truthy (String "/" rest)) with true.
  change (true && false) with false.
  change (negb true && negb false) with false.
  cbv iota.
  change (String.eqb (take 1 (String "/" rest)) "/") with true. cbv iota.
  rewrite (resolve_plain _ [] Hd).
  rewrite (last_plain _ (split_nonempty _ _) Hd).
  change ([] ++ split "/" (String "/" rest)) with (split "/" (String "/" rest)).
  rewrite (join_split "/" (String "/" rest)).
  reflexivity.
Qed.

Lemma urlparse_absolute path :
  rooted path = true ->
  urlparse (settings.HOST +:+ path) "https"
  = Some (mkParse "https" "github.com" path EmptyString EmptyString EmptyString).
Proof.
  intros H. destruct (rooted_inv path H) as (rest & -> & Hpp & Hc).
  assert (Hrest : forall c, path_char c = false -> mem_char c (String "/" rest) = false)
    by (intros c; apply all_chars_absent; exact Hc).
  assert (Habs : forall c, path_char c = false ->
                 mem_char c settings.HOST = false ->
                 mem_char c (settings.HOST +:+ String "/" rest) = false).
  { intros c Hc' Hh. by rewrite mem_char_app, Hh, (Hrest c Hc'). }
  unfold urlparse, urlsplit.
  change (lstrip_if c0_or_space (settings.HOST +:+ String "/" rest))
    with (settings.HOST +:+ String "/" rest).
  unfold remove_unsafe.
  rewrite (replace_char_absent "009" _ (settings.HOST +:+ String "/" rest))
    by (by apply Habs).
  rewrite (replace_char_absent "013" _ (settings.HOST +:+ String "/" rest))
    by (by apply Habs).
  rewrite (replace_char_absent "010" _ (settings.HOST +:+ String "/" rest))
    by (by apply Habs).
  change (split_scheme (settings.HOST +:+ String "/" rest))
    with (Some ("https", "//github.com" +:+ String "/" rest)).
  cbv beta iota.
  change (String.prefix "//" ("//github.com" +:+ String "/" rest)) with true.
  cbv iota.
  change (span_netloc (drop 2 ("//github.com" +:+ String "/" rest)))
    with ("github.com", String "/" rest).
  cbv beta iota zeta.
  change (mem_char "[" "github.com") with false.
  change (mem_char "]" "github.com") with false.
  cbv beta iota zeta delta [andb orb negb].
  rewrite (split_once_absent "#") by (by apply Hrest).
  rewrite (split_once_absent "?") by (by apply Hrest).
  cbn [sp_scheme sp_netloc sp_path sp_query sp_fragment].
  rewrite (Hrest ";"%char eq_refl). reflexivity.
Qed.

Lemma urljoin_absolute_same path :
  rooted path = true ->
  urljoin settings.HOST (settings.HOST +:+ path) = Some (settings.HOST +:+ path).
Proof.
  intros Hr. pose proof (urlparse_absolute path Hr) as Hparse.
  destruct (rooted_inv path Hr) as (rest & -> & Hpp & Hc).
  unfold urljoin.
  change (truthy settings.HOST) with true.
  change (truthy (settings.HOST +:+ String "/" rest)) with true.
  change (urlparse settings.HOST EmptyString)
    with (Some (mkParse "https" "github.com" EmptyString EmptyString EmptyString
                        EmptyString)).
  cbv beta iota zeta delta [pr_scheme negb].
  rewrite Hparse.
  reflexivity.
Qed.

(** X19. An item can be made from every link that starts with one [/],
    consists of plain path characters and has no segment [.] or [..]:
    its URL is the host followed by the link; and making an item from
    that URL again gives the same item. *)
Theorem item_url_rooted href :
  rooted href = true -> no_dot_segments href = true ->
  new_GithubSearchItem href
  = inr {| url := settings.HOST +:+ href; extras := [] |}
  /\ new_GithubSearchItem (settings.HOST +:+ href) = new_GithubSearchItem href.
Proof.
  intros Hr Hd. unfold new_GithubSearchItem.
  rewrite (urljoin_rooted href Hr Hd), (urljoin_absolute_same href Hr).
  split; reflexivity.
Qed.

Lemma item_url_rooted_witness :
  new_GithubSearchItem "/openstack/nova.git"
  = inr {| url := "https://github.com/openstack/nova.git"; extras := [] |}.
Proof.
  rewrite (proj1 (item_url_rooted "/openstack/nova.git" eq_refl eq_refl)).
  reflexivity.
Defined.

Lemma mem_lstrip c p s : mem_char c s = false -> mem_char c (lstrip_if p s) = false.
Proof.
  induction s as [|a s IH]; [reflexivity|].
  intros H. simpl. destruct (p a); [|exact H].
  simpl in H. apply orb_false_elim in H as [_ H]. by apply IH.
Qed.

Lemma mem_removed c x s :
  mem_char c s = false -> mem_char c (replace_char x "" s) = false.
Proof.
  induction s as [|a s IH]; [reflexivity|].
  simpl. intros H. apply orb_false_elim in H as [Ha Hs].
  destruct (Ascii.eqb a x); simpl; [by apply IH|].
  by rewrite Ha, (IH Hs).
Qed.

Lemma mem_split_once c x s h r :
  split_once x s = Some (h, r) -> mem_char c s = false -> mem_char c r = false.
Proof.
  revert h. induction s as [|a s IH]; intros h; simpl; [discriminate|].
  intros Hsp H. apply orb_false_elim in H as [Ha Hs].
  destruct (Ascii.eqb a x).
  - by injection Hsp as <- <-.
  - destruct (split_once x s) as [[h' r']|]; [|discriminate].
    injection Hsp as <- <-. by apply (IH h').
Qed.

Lemma mem_drop c n : forall s, mem_char c s = false -> mem_char c (drop n s) = false.
Proof.
  induction n as [|n IH]; intros s H; [by destruct s|].
  destruct s as [|a s]; [reflexivity|].
  simpl in H |- *. apply orb_false_elim in H as [_ H]. by apply IH.
Qed.

Lemma mem_span_netloc c s :
  mem_char c s = false -> mem_char c (fst (span_netloc s)) = false.
Proof.
  induction s as [|a s IH]; [reflexivity|].
  intros H. cbn [mem_char] in H. apply orb_false_elim in H as [Ha Hs].
  cbn [span_netloc]. destruct (mem_char a "/?#"); [reflexivity|].
  specialize (IH Hs). destruct (span_netloc s) as [h r].
  cbn [fst mem_char] in *. by rewrite Ha, IH.
Qed.

(** Without brackets in the reference, [urlsplit] has nothing to
    reject. *)
Lemma urlsplit_bracket_free url scheme :
  mem_char "[" url = false -> mem_char "]" url = false ->
  exists r, urlsplit url scheme = Some r.
Proof.
  intros Ho Hc. unfold urlsplit.
  set (url1 := remove_unsafe (lstrip_if c0_or_space url)).
  assert (H1 : forall c, mem_char c url = false -> mem_char c url1 = false).
  { intros c H. unfold url1, remove_unsafe. by apply mem_removed, mem_removed, mem_removed, mem_lstrip. }
  generalize (remove_unsafe (strip_if c0_or_space scheme)). intros scheme1.
  assert (H2 : exists scheme2 url2,
             match split_scheme url1 with
             | Some (s, u) => (s, u)
             | None => (scheme1, url1)
             end = (scheme2, url2)
             /\ forall c, mem_char c url = false -> mem_char c url2 = false).
  { unfold split_scheme.
    destruct (split_once ":" url1) as [[[|a h] rest]|] eqn:E;
      try (by exists scheme1, url1).
    destruct (is_ascii_alpha a && all_chars scheme_char (String a h));
      [|by exists scheme1, url1].
    eexists _, rest. split; [reflexivity|].
    intros c H. exact (mem_split_once c _ _ _ _ E (H1 c H)). }
  destruct H2 as (scheme2 & url2 & -> & H2).
  destruct (String.prefix "//" url2).
  - pose proof (mem_span_netloc "[" _ (mem_drop "[" 2 _ (H2 _ Ho))) as Hno.
    pose proof (mem_span_netloc "]" _ (mem_drop "]" 2 _ (H2 _ Hc))) as Hnc.
    destruct (span_netloc (drop 2 url2)) as [netloc rest]. cbn [fst] in Hno, Hnc.
    rewrite Hno, Hnc. cbn [andb orb negb].
    destruct (split_once "#" rest) as [[u f]|];
      [destruct (split_once "?" u) as [[u' q]|]
      |destruct (split_once "?" rest) as [[u' q]|]]; by eexists.
  - destruct (split_once "#" url2) as [[u f]|];
      [destruct (split_once "?" u) as [[u' q]|]
      |destruct (split_once "?" url2) as [[u' q]|]]; by eexists.
Qed.

(** X24. Only a bracket can keep an item from being built: for every
    link that holds neither an opening nor a closing bracket,
    [GithubSearchItem] returns an item. *)
Theorem item_without_brackets href :
  mem_char "[" href = false -> mem_char "]" href = false ->
  exists item, new_GithubSearchItem href = inr item.
Proof.
  intros Ho Hc. unfold new_GithubSearchItem, urljoin.
  change (truthy settings.HOST) with true. cbv beta iota delta [negb].
  destruct (truthy href); [|by eexists].
  change (urlparse settings.HOST EmptyString)
    with (Some (mkParse "https" "github.com" EmptyString EmptyString EmptyString
                        EmptyString)).
  cbv beta iota delta [pr_scheme]. unfold urlparse.
  destruct (urlsplit_bracket_free href "https" Ho Hc) as [r ->].
  destruct (mem_str (sp_scheme r) uses_params && mem_char ";" (sp_path r));
    [destruct (splitparams (sp_path r))|]; by eexists.
Qed.

Lemma item_without_brackets_witness :
  exists item, new_GithubSearchItem "//gist.github.com/../x y?#" = inr item.
Proof.
  apply (item_without_brackets "//gist.github.com/../x y?#"); reflexivity.
Defined.

(* ===================================================================== *)
(** * Path resolution *)
(* ===================================================================== *)

(** X20. [_resolve_default_path] never changes the state, and a path it
    returns exists.  An empty [new] counts as none given.  A [new] that
    is given decides alone: when it does not exist, the call fails even
    if the default exists. *)
Theorem resolve_default_path_edges default new c w :
  snd (_resolve_default_path default new (c, w)) = (c, w)
  /\ (forall p, fst (_resolve_default_path default new (c, w)) = inr p ->
                OS.path_exists (fs w) p = true
                /\ p = match new with
                       | Some n => if truthy n then n else default
                       | None => default
                       end)
  /\ _resolve_default_path default (Some EmptyString) (c, w)
     = _resolve_default_path default None (c, w)
  /\ (forall n, new = Some n -> truthy n = true ->
                OS.path_exists (fs w) n = false ->
                fst (_resolve_default_path default new (c, w))
                = inl (FileNotFoundError ("File " +:+ n +:+ " does not exist"))).
Proof.
  unfold _resolve_default_path, bind, get_world. simpl.
  split; [|split; [|split]].
  - destruct new as [n|]; [destruct (truthy n)|];
      try destruct (OS.path_exists (fs w) n);
      try destruct (OS.path_exists (fs w) default); reflexivity.
  - intros p. destruct new as [n|]; [destruct (truthy n)|].
    + destruct (OS.path_exists (fs w) n) eqn:E; simpl; [|discriminate].
      by intros [= <-].
    + destruct (OS.path_exists (fs w) default) eqn:E; simpl; [|discriminate].
      by intros [= <-].
    + destruct (OS.path_exists (fs w) default) eqn:E; simpl; [|discriminate].
      by intros [= <-].
  - reflexivity.
  - intros n -> Hn Hmiss. rewrite Hn, Hmiss. reflexivity.
Qed.

Lemma resolve_default_path_edges_witness :
  fst (_resolve_default_path settings.OUTPUT_FILE_PATH (Some "out/items.json")
         (Sample.crawler, Sample.world_of Sample.disk Sample.unavailable))
  = inl (FileNotFoundError "File out/items.json does not exist").
Proof.
  apply (proj2 (proj2 (proj2 (resolve_default_path_edges
           settings.OUTPUT_FILE_PATH (Some "out/items.json") Sample.crawler
           (Sample.world_of Sample.disk Sample.unavailable)))) "out/items.json").
  - reflexivity.
  - reflexivity.
  - vm_compute. reflexivity.
Defined.

(* ===================================================================== *)
(** * The requests of a run *)
(* ===================================================================== *)

Lemma write_items_world its fp c w :
  clock (snd (snd (write_items its fp (c, w)))) = clock w
  /\ trace (snd (snd (write_items its fp (c, w)))) = trace w
  /\ draws (snd (snd (write_items its fp (c, w)))) = draws w.
Proof.
  rewrite write_items_cases.
  destruct (fs w !! destination fp) as [[old [|]|d]|]; simpl; auto.
Qed.

Lemma sequential_trace_direct srv t urls :
  forallb direct (sequential_trace srv t urls) = true.
Proof.
  revert t. induction urls as [|u urls IH]; intros t; [reflexivity|].
  simpl. apply IH.
Qed.

Lemma extractor_trace bs4 c w parser data :
  coro bs4 (type_ c) = Some parser ->
  _session c = Some {| closed := false |} ->
  exists rest,
    trace (snd (snd (parser data (c, w)))) = trace w ++ rest
    /\ forallb direct rest = true
    /\ (type_ c <> "Repositories" -> rest = []).
Proof.
  intros Hcoro Hs. unfold coro in Hcoro.
  assert (Hh : parser = parse_data_hydro_click_elements ->
               exists rest,
                 trace (snd (snd (parser data (c, w)))) = trace w ++ rest
                 /\ forallb direct rest = true
                 /\ (type_ c <> "Repositories" -> rest = [])).
  { intros ->. exists []. rewrite app_nil_r.
    destruct (hydro_click_cases data c w) as [H|[new [H|H]]]; rewrite H; auto. }
  destruct (String.eqb_spec (type_ c) "Repositories") as [Hty|Hty].
  - injection Hcoro as <-. rewrite parse_repositories_loop.
    destruct (repository_loop bs4 (repository_links data) c w
                (repository_links_href data) Hs)
      as (k & new & _ & _ & _ & _
          & [(_ & _ & Ht)|(b & _ & [(_ & _ & Ht)|(_ & _ & Ht)])]);
      eexists; (split; [exact Ht|]);
      (split; [apply sequential_trace_direct | by intros Hne]).
  - destruct (String.eqb (type_ c) "Issues"); [injection Hcoro as <-; by apply Hh|].
    destruct (String.eqb (type_ c) "Wikis"); [injection Hcoro as <-; by apply Hh|].
    discriminate.
Qed.

(** X21. The first request of a run is the search request, sent through
    the selected proxy when proxies are configured.  No other request
    goes through a proxy: the pages of repositories are requested
    directly.  A run for another type than repositories makes no other
    request at all. *)
Theorem process_requests bs4 c w :
  exists rest,
    trace (snd (snd (process bs4 (c, w))))
    = trace w
      ++ Sent (clock w) (search_address c) (first_proxy c w)
         :: Received (clock w + latency (search_response c w)) (search_address c)
         :: rest
    /\ forallb direct rest = true
    /\ (type_ c <> "Repositories" -> rest = []).
Proof.
  assert (Hsearch : trace (after_search c w)
                    = trace w ++ [Sent (clock w) (search_address c) (first_proxy c w);
                                  Received (clock w + latency (search_response c w))
                                           (search_address c)]).
  { unfold after_search, search_response, after_get, at_search.
    destruct (proxies c); reflexivity. }
  rewrite process_stages. unfold at_extraction.
  destruct (status (search_response c w) =? 200)%Z;
    [|exists []; cbn [fst snd]; rewrite Hsearch; auto].
  destruct (coro bs4 (type_ c)) as [parser|] eqn:Hcoro;
    [|exists []; cbn [fst snd]; rewrite Hsearch; auto].
  destruct (extractor_trace bs4 (ready c) (after_search c w) parser
              (search_page bs4 c w) Hcoro eq_refl) as (rest & Ht & Hd & Hn).
  rewrite Hsearch, <- app_assoc in Ht.
  exists rest.
  destruct (parser (search_page bs4 c w) (ready c, after_search c w))
    as [[e|[]] [c2 w2]]; cbn [fst snd] in Ht |- *.
  - auto.
  - destruct (write_items_world (items c2) None
                (set_session c2 (Some {| closed := true |})) w2) as (_ & Htr & _).
    rewrite Htr. auto.
Qed.

Lemma process_requests_witness :
  exists rest,
    trace (snd (snd (process anchors_parser
                       (issues_crawler, Sample.world_of Sample.disk found))))
    = [] ++ Sent 0 (search_address issues_crawler) None
            :: Received 2 (search_address issues_crawler) :: rest
    /\ rest = [].
Proof.
  destruct (process_requests anchors_parser issues_crawler
              (Sample.world_of Sample.disk found)) as (rest & Ht & _ & Hn).
  exists rest. split; [exact Ht|]. apply Hn. discriminate.
Defined.

(* ===================================================================== *)
(** * The characters of the output *)
(* ===================================================================== *)

Lemma escape_char_printable a : all_chars printable (Json.escape_char a) = true.
Proof. each_char a; vm_compute; reflexivity. Qed.

Lemma encode_str_printable s : all_chars printable (Json.encode_str s) = true.
Proof.
  unfold Json.encode_str.
  change (String Json.dquote (Json.escape s +:+ String Json.dquote EmptyString))
    with (String Json.dquote EmptyString
          +:+ (Json.escape s +:+ String Json.dquote EmptyString)).
  rewrite !all_chars_app.
  assert (H : all_chars printable (Json.escape s) = true).
  { induction s as [|a s IH]; [reflexivity|].
    simpl. by rewrite all_chars_app, escape_char_printable, IH. }
  by rewrite H.
Qed.

Lemma spaces_printable n : all_chars printable (Json.spaces n) = true.
Proof. induction n as [|n IH]; [reflexivity | exact IH]. Qed.

Lemma uint_printable d :
  all_chars printable (NilEmpty.string_of_uint d) = true.
Proof. induction d; simpl; try reflexivity; exact IHd. Qed.

Lemma of_Z_printable z : all_chars printable (of_Z z) = true.
Proof.
  unfold of_Z, NilZero.string_of_int, NilZero.string_of_uint.
  destruct (Z.to_int z) as [d|d]; destruct d;
    first [reflexivity | exact (uint_printable _)].
Qed.

Lemma join_printable sep parts :
  all_chars printable sep = true ->
  Forall (fun s => all_chars printable s = true) parts ->
  all_chars printable (join sep parts) = true.
Proof.
  intros Hsep. induction 1 as [|x l Hx Hl IH]; [reflexivity|].
  destruct l as [|y l]; [exact Hx|].
  rewrite join_cons, !all_chars_app. by rewrite Hx, Hsep, IH.
Qed.

Lemma dumps_at_printable indent : forall v level,
  float_free v = true ->
  all_chars printable (Json.dumps_at indent level v) = true.
Proof.
  fix IH 1. intros v level Hv.
  destruct v as [|[|]|z|r|s|l|d]; try reflexivity.
  - apply of_Z_printable.
  - discriminate.
  - apply encode_str_printable.
  - destruct l as [|x l]; [reflexivity|].
    change (Json.dumps_at indent level (PList (x :: l)))
      with ("[" +:+ String "010" (Json.spaces (indent * S level))
            +:+ join ("," +:+ String "010" (Json.spaces (indent * S level)))
                  (map (Json.dumps_at indent (S level)) (x :: l))
            +:+ String "010" (Json.spaces (indent * level)) +:+ "]").
    assert (Hnl : forall n, all_chars printable (String "010" (Json.spaces n)) = true)
      by (intros n; apply spaces_printable).
    assert (Hj : all_chars printable
                   (join ("," +:+ String "010" (Json.spaces (indent * S level)))
                      (map (Json.dumps_at indent (S level)) (x :: l))) = true).
    { apply join_printable; [by rewrite all_chars_app, Hnl|].
      change (forallb float_free (x :: l) = true) in Hv.
      revert Hv. generalize (x :: l) as l0.
      fix IHl 1. intros l0 Hv. destruct l0 as [|y l0]; [constructor|].
      simpl in Hv. apply andb_prop in Hv as [Hy Hl].
      simpl map. constructor; [exact (IH y (S level) Hy) | exact (IHl l0 Hl)]. }
    rewrite !all_chars_app, !Hnl, Hj. reflexivity.
  - destruct d as [|x d]; [reflexivity|].
    change (Json.dumps_at indent level (PDict (x :: d)))
      with ("{" +:+ String "010" (Json.spaces (indent * S level))
            +:+ join ("," +:+ String "010" (Json.spaces (indent * S level)))
                  (map (fun kv => Json.encode_str (fst kv) +:+ ": "
                                  +:+ Json.dumps_at indent (S level) (snd kv)) (x :: d))
            +:+ String "010" (Json.spaces (indent * level)) +:+ "}").
    assert (Hnl : forall n, all_chars printable (String "010" (Json.spaces n)) = true)
      by (intros n; apply spaces_printable).
    assert (Hj : all_chars printable
                   (join ("," +:+ String "010" (Json.spaces (indent * S level)))
                      (map (fun kv => Json.encode_str (fst kv) +:+ ": "
                              +:+ Json.dumps_at indent (S level) (snd kv)) (x :: d)))
                 = true).
    { apply join_printable; [by rewrite all_chars_app, Hnl|].
      change (forallb (fun kv => float_free (snd kv)) (x :: d) = true) in Hv.
      revert Hv. generalize (x :: d) as d0.
      fix IHd 1. intros d0 Hv. destruct d0 as [|[k y] d0]; [constructor|].
      simpl in Hv. apply andb_prop in Hv as [Hy Hd].
      simpl map. constructor; [|exact (IHd d0 Hd)].
      rewrite !all_chars_app, encode_str_printable.
      cbn [fst snd] in *. rewrite (IH y (S level) Hy). reflexivity. }
    rewrite !all_chars_app, !Hnl, Hj. reflexivity.
Qed.

(** The text [write_items] leaves in its destination consists of
    printable ASCII characters and line feeds. *)
Lemma write_items_ascii its fp c w :
  forallb float_free its = true ->
  fst (write_items its fp (c, w)) = inr tt ->
  exists text,
    content_at (snd (snd (write_items its fp (c, w)))) (destination fp) = Some text
    /\ all_chars printable text = true.
Proof.
  intros Hits. rewrite write_items_cases. unfold content_at.
  destruct (fs w !! destination fp) as [[old [|]|d]|]; try discriminate.
  intros _. simpl. rewrite lookup_insert_eq. eexists. split; [reflexivity|].
  by apply dumps_at_printable.
Qed.

Lemma as_percent_float_free stats :
  forallb (fun kv => float_free (snd kv)) (map as_percent stats) = true.
Proof. induction stats as [|lp stats IH]; [reflexivity | exact IH]. Qed.

Lemma key_value_percent parts kv :
  key_value parts = inr kv -> exists lp, kv = as_percent lp.
Proof.
  unfold key_value. destruct parts as [|k [|v [|y t]]]; try discriminate.
  intros [= <-]. by exists (k, v).
Qed.

Lemma map_exn_percent {A} (f : A -> list string) xs pairs :
  map_exn (fun x => key_value (f x)) xs = inr pairs ->
  exists stats, pairs = map as_percent stats.
Proof.
  revert pairs. induction xs as [|x xs IH]; intros pairs; simpl.
  - intros [= <-]. by exists [].
  - destruct (key_value (f x)) as [e|kv] eqn:Hkv; [discriminate|].
    destruct (map_exn _ xs) as [e|rest]; [discriminate|].
    intros [= <-]. destruct (key_value_percent _ _ Hkv) as [lp ->].
    destruct (IH rest eq_refl) as [stats ->]. by exists (lp :: stats).
Qed.

Lemma get_extras_float_free bs4 page ex :
  get_extras bs4 page = inr ex -> float_free (PDict ex) = true.
Proof.
  rewrite get_extras_cases. destruct (find _ _) as [author|]; [|discriminate].
  destruct (map_exn _ _) as [e|pairs] eqn:Hm; [discriminate|].
  intros [= <-]. destruct (map_exn_percent _ _ _ Hm) as [stats ->].
  rewrite of_pairs_as_percent. simpl.
  by rewrite as_percent_float_free.
Qed.

Lemma for_each_invariant {A} (I : state -> Prop) (body : A -> M unit) xs :
  (forall x st, I st -> I (snd (body x st))) ->
  forall st, I st -> I (snd (for_each xs body st)).
Proof.
  intros Hbody. induction xs as [|x xs IH]; intros st Hst; [exact Hst|].
  simpl. unfold bind. specialize (Hbody x st Hst).
  destruct (body x st) as [[e|[]] st']; [exact Hbody | by apply IH].
Qed.

Lemma append_float_free c w item :
  forallb float_free (items c) = true ->
  float_free (PDict (extras item)) = true ->
  forallb float_free (items (fst (snd (items_append item (c, w))))) = true.
Proof.
  intros Hc Hitem. unfold items_append, bind, get_self, put_self. simpl.
  rewrite forallb_app, Hc. simpl. simpl in Hitem. by rewrite Hitem.
Qed.

Lemma extractor_float_free bs4 c w parser data :
  coro bs4 (type_ c) = Some parser ->
  forallb float_free (items c) = true ->
  forallb float_free (items (fst (snd (parser data (c, w))))) = true.
Proof.
  intros Hcoro Hc.
  assert (Hh : forallb float_free
                 (items (fst (snd (parse_data_hydro_click_elements data (c, w))))) = true).
  { unfold parse_data_hydro_click_elements. unfold bind at 1. unfold lift at 1.
    destruct (filter_exn match_condition data) as [e|links]; [exact Hc|].
    apply (for_each_invariant
             (fun st => forallb float_free (items (fst st)) = true)); [|exact Hc].
    intros a [c1 w1] H1. unfold bind, lift.
    destruct (item_of_link a) as [e|item] eqn:Hi; [exact H1|].
    apply append_float_free; [exact H1|].
    unfold item_of_link in Hi.
    destruct (get_item a "href") as [e|href]; [discriminate|].
    unfold new_GithubSearchItem in Hi.
    destruct (urljoin settings.HOST href); [|discriminate].
    by injection Hi as <-. }
  assert (Hr : forallb float_free
                 (items (fst (snd (parse_repositories bs4 data (c, w))))) = true).
  { rewrite parse_repositories_loop.
    apply (for_each_invariant
             (fun st => forallb float_free (items (fst st)) = true)); [|exact Hc].
    intros a [c1 w1] H1. unfold repository_step.
    unfold bind at 1. unfold lift at 1.
    destruct (item_of_link a) as [e|item]; [exact H1|].
    unfold bind at 1. rewrite session_get_unusable.
    destruct (_session c1) as [s|]; [|exact H1].
    destruct (closed s); [exact H1|].
    unfold bind at 1. unfold lift at 1.
    destruct (get_extras bs4 (body (server w1 (url item) None))) as [e|ex] eqn:Hex;
      [exact H1|].
    apply append_float_free; [exact H1|].
    exact (get_extras_float_free bs4 _ ex Hex). }
  unfold coro in Hcoro.
  destruct (String.eqb (type_ c) "Repositories"); [by injection Hcoro as <-|].
  destruct (String.eqb (type_ c) "Issues"); [by injection Hcoro as <-|].
  destruct (String.eqb (type_ c) "Wikis"); [by injection Hcoro as <-|].
  discriminate.
Qed.

(** X22. Whatever characters the pages hold, the text a run leaves in
    the output file consists of printable ASCII characters and line
    feeds only, provided the collection held no floating-point number at
    the start (it is empty after [__init__]). *)
Theorem process_output_ascii bs4 c w :
  forallb float_free (items c) = true ->
  fst (process bs4 (c, w)) = inr tt ->
  exists text,
    content_at (snd (snd (process bs4 (c, w)))) settings.OUTPUT_FILE_PATH = Some text
    /\ all_chars printable text = true.
Proof.
  intros Hc. rewrite process_stages.
  destruct (status (search_response c w) =? 200)%Z; [|discriminate].
  destruct (coro bs4 (type_ c)) as [parser|] eqn:Hcoro; [|discriminate].
  pose proof (extractor_float_free bs4 (ready c) (after_search c w) parser
                (search_page bs4 c w) Hcoro Hc) as Hff.
  fold (at_extraction c w) in Hff.
  destruct (parser (search_page bs4 c w) (at_extraction c w))
    as [[e|[]] [c2 w2]]; [discriminate|]. simpl in Hff.
  intros Hret.
  exact (write_items_ascii (items c2) None _ w2 Hff Hret).
Qed.

(* ===================================================================== *)
(** * Sample runs of the properties above *)
(* ===================================================================== *)

Lemma validate_params_accepts_witness :
  acceptable Sample.params
  /\ exists e, validate_params (PDict [("keywords", PList [])]) = inl e.
Proof.
  split.
  - apply (proj1 (proj1 (validate_params_accepts Sample.params))).
    vm_compute. reflexivity.
  - apply (proj2 (validate_params_accepts (PDict [("keywords", PList [])]))).
    intros (d & kws & ty & [= <-] & _ & _ & Hty & _). discriminate.
Defined.

Lemma init_follows_validation_witness :
  exists d c, Sample.params = PDict d /\ init Sample.params = inr c /\ built_from d c.
Proof.
  apply (proj1 (proj2 (init_follows_validation Sample.params))).
  vm_compute. reflexivity.
Defined.

Lemma get_extras_errors_witness :
  get_extras Sample.no_parser "<html></html>" = inl AttributeError
  /\ exists ex, get_extras Sample.detail_parser "<html></html>" = inr ex.
Proof.
  split.
  - apply (proj1 (get_extras_errors Sample.no_parser "<html></html>")).
    vm_compute. reflexivity.
  - apply (proj2 (proj2 (get_extras_errors Sample.detail_parser "<html></html>"))
             (Sample.anchor [("rel", "author"); ("href", "/alice")]
                [NavigableString "alice"])).
    + vm_compute. reflexivity.
    + vm_compute. repeat constructor.
Defined.

Lemma get_extras_shape_witness :
  exists author stats,
    find Sample.detail_page [("rel", Equal "author")] = Some author
    /\ [("owner", PStr "alice");
        ("language_stats", PDict [("Go", PStr "80"); ("Python", PStr "20")])]
       = [("owner", PStr (strip (text author)));
          ("language_stats", PDict (map as_percent stats))]
    /\ List.NoDup (map fst stats)
    /\ forall language,
         PyDict.get language stats
         = PyDict.get language
             (rev (map stat_pair (language_elements Sample.detail_page))).
Proof.
  apply (get_extras_shape Sample.detail_parser "<html></html>"
           [("owner", PStr "alice");
            ("language_stats", PDict [("Go", PStr "80"); ("Python", PStr "20")])]).
  vm_compute. reflexivity.
Defined.

Lemma process_output_ascii_witness :
  exists text,
    content_at (snd (snd (process anchors_parser
                            (issues_crawler, Sample.world_of Sample.disk found))))
      settings.OUTPUT_FILE_PATH = Some text
    /\ all_chars printable text = true.
Proof.
  apply (process_output_ascii anchors_parser issues_crawler
           (Sample.world_of Sample.disk found)).
  - reflexivity.
  - vm_compute. reflexivity.
Defined.
